(** * PRISMA figure pipeline: preprocessing, validation, statistics, layout

    A shallow embedding of the Python sources under [lib/prism] and of the
    pandas, numpy and CPython operations they call, followed by the
    properties the specification states about them and by further
    properties of the same code: its errors, its edge cases, and how the
    preprocessing, the statistics and the legend of the plot compose.

    - Python [str] values are [string]s; the characters the code inspects
      (comma, period, digits, the letters of AUC) are ASCII.
    - Python floats are IEEE binary64 numbers: Rocq's primitive [float],
      whose operations round to nearest-even exactly as the hardware does.
    - A pandas DataFrame is a list of labelled rows over named columns;
      DataFrames bound to a variable and assigned into live in a store, so
      that in-place column assignment and aliasing are explicit.
    - The numpy reductions are written once over a small arithmetic
      interface and read both in binary64 (what runs) and in exact rational
      arithmetic (what the formulas mean). *)

From Stdlib Require Import ZArith QArith Qround Floats Ascii String DecimalString List Lia Lqa.
From stdpp Require Import base option list sorting gmap strings.

Set Default Proof Using "Type".
Set Warnings "-inexact-float".

(* ================================================================== *)
(** * Python strings *)

Module PyStr.

Definition comma : ascii := Ascii.ascii_of_nat 44.
Definition period : ascii := Ascii.ascii_of_nat 46.
Definition underscore : ascii := Ascii.ascii_of_nat 95.
Definition plus_sign : ascii := Ascii.ascii_of_nat 43.
Definition minus_sign : ascii := Ascii.ascii_of_nat 45.

(** [s.replace(old, new)] for one-character [old] and [new], the only
    form the sources use ([","] by ["."]): every occurrence is replaced. *)
Fixpoint str_replace (old new : ascii) (s : string) : string :=
  match s with
  | EmptyString => EmptyString
  | String c s' =>
      String (if Ascii.eqb c old then new else c) (str_replace old new s')
  end.

(** [pat in s]: [pat] occurs in [s] as a contiguous substring.  The
    pandas call [.str.contains("AUC")] searches the regular expression
    [AUC], which has no metacharacter and so matches exactly the
    substring, case-sensitively. *)
Fixpoint str_contains (pat s : string) : bool :=
  String.prefix pat s
  || match s with
     | EmptyString => false
     | String _ s' => str_contains pat s'
     end.

(** [sep.join(l)]. *)
Fixpoint join (sep : string) (l : list string) : string :=
  match l with
  | [] => ""
  | [x] => x
  | x :: rest => x +:+ sep +:+ join sep rest
  end.

(** ASCII whitespace, as [Py_ISSPACE]: space, and the controls 9 to 13. *)
Definition is_space (c : ascii) : bool :=
  let n := Ascii.nat_of_ascii c in
  Nat.eqb n 32 || (Nat.leb 9 n && Nat.leb n 13).

Definition is_digit (c : ascii) : bool :=
  let n := Ascii.nat_of_ascii c in Nat.leb 48 n && Nat.leb n 57.

Fixpoint lstrip (s : string) : string :=
  match s with
  | String c s' => if is_space c then lstrip s' else s
  | EmptyString => EmptyString
  end.

Fixpoint rstrip (s : string) : string :=
  match s with
  | EmptyString => EmptyString
  | String c s' =>
      match rstrip s' with
      | EmptyString => if is_space c then EmptyString else String c EmptyString
      | r => String c r
      end
  end.

Definition strip (s : string) : string := rstrip (lstrip s).

Fixpoint all_digits (s : string) : bool :=
  match s with
  | EmptyString => true
  | String c s' => is_digit c && all_digits s'
  end.

(** ASCII lower-casing of one character. *)
Definition lower (c : ascii) : ascii :=
  let n := Ascii.nat_of_ascii c in
  if Nat.leb 65 n && Nat.leb n 90 then Ascii.ascii_of_nat (n + 32) else c.

Fixpoint lower_str (s : string) : string :=
  match s with
  | EmptyString => EmptyString
  | String c s' => String (lower c) (lower_str s')
  end.

(** A character that is neither white space, an underscore, nor a comma. *)
Definition plain (c : ascii) : bool :=
  negb (is_space c) && negb (Ascii.eqb c underscore) && negb (Ascii.eqb c comma).

Fixpoint all_plain (s : string) : bool :=
  match s with
  | EmptyString => true
  | String c s' => plain c && all_plain s'
  end.

(** White space only. *)
Fixpoint all_space (s : string) : bool :=
  match s with
  | EmptyString => true
  | String c s' => is_space c && all_space s'
  end.

End PyStr.

(* ================================================================== *)
(** * Python floats: binary64 and [float(str)] *)

Module PyFloat.
Import PyStr.

(** The binary64 number nearest to the rational [n/d] (ties to even),
    with the given sign; overflow gives an infinity.  This is IEEE
    division carried out on the two integers without first rounding
    them. *)
Definition round_ratio (neg : bool) (n d : positive) : float :=
  SF2Prim (SFdiv prec emax (S754_finite neg n 0) (S754_finite false d 0)).

(** The binary64 number nearest to [(-1)^neg * m * 10^e]: what a
    correctly rounded decimal-to-binary conversion returns. *)
Definition of_decimal (neg : bool) (m : N) (e : Z) : float :=
  match m with
  | N0 => if neg then PrimFloat.neg_zero else PrimFloat.zero
  | Npos p =>
      match e with
      | Z0 => round_ratio neg p 1
      | Zpos k => round_ratio neg (p * Pos.pow 10 k) 1
      | Zneg k => round_ratio neg p (Pos.pow 10 k)
      end
  end.

(** The nearest binary64 number to a rational: a decimal literal of the
    source, such as [0.01]. *)
Definition of_Q (q : Q) : float :=
  match Qnum q with
  | Z0 => PrimFloat.zero
  | Zpos n => round_ratio false n (Qden q)
  | Zneg n => round_ratio true n (Qden q)
  end.

(** A decimal rendering of a binary64 number that [float] reads back as
    the same number: every digit of its exact value.  Python's [repr]
    prints the shortest such rendering instead. *)
Definition exact_repr (x : float) : string :=
  match Prim2SF x with
  | S754_zero s => if s then "-0.0" else "0.0"
  | S754_infinity s => if s then "-inf" else "inf"
  | S754_nan => "nan"
  | S754_finite s m e =>
      let digits (p : positive) : string := NilZero.string_of_uint (Pos.to_uint p) in
      (if s then "-" else "")
      +:+ match e with
          | Z0 => digits m +:+ ".0"
          | Zpos k => digits (m * Pos.pow 2 k)%positive +:+ ".0"
          | Zneg k =>
              let ds := digits (m * Pos.pow 5 k)%positive in
              let k := Pos.to_nat k in
              let ds := String.concat "" (replicate (S k - String.length ds) "0") +:+ ds in
              String.substring 0 (String.length ds - k) ds
              +:+ "." +:+ String.substring (String.length ds - k) k ds
          end
  end.

(** The exact rational value of a finite binary64 number. *)
Definition to_Q (x : float) : option Q :=
  match Prim2SF x with
  | S754_zero _ => Some 0%Q
  | S754_finite s m e =>
      let v := match e with
               | Z0 => Zpos m # 1
               | Zpos k => Zpos (m * Pos.pow 2 k) # 1
               | Zneg k => Zpos m # Pos.pow 2 k
               end in
      Some (if s then Qopp v else v)
  | _ => None
  end.

Definition digit_value (c : ascii) : N := N.of_nat (Ascii.nat_of_ascii c - 48).

(** The number a string of decimal digits denotes, most significant
    digit first. *)
Fixpoint N_of_digits_acc (acc : N) (s : string) : N :=
  match s with
  | EmptyString => acc
  | String c s' => N_of_digits_acc (10 * acc + digit_value c) s'
  end.
Definition N_of_digits (s : string) : N := N_of_digits_acc 0 s.

(** The longest prefix of digits, and what follows it. *)
Fixpoint span_digits (s : string) : string * string :=
  match s with
  | String c s' =>
      if is_digit c
      then let '(ds, rest) := span_digits s' in (String c ds, rest)
      else (EmptyString, s)
  | EmptyString => (EmptyString, EmptyString)
  end.

(** An optional sign: [true] for a minus. *)
Definition take_sign (s : string) : bool * string :=
  match s with
  | String c s' =>
      if Ascii.eqb c minus_sign then (true, s')
      else if Ascii.eqb c plus_sign then (false, s')
      else (false, s)
  | EmptyString => (false, s)
  end.

(** The exponent part [e[+-]ddd] when it is complete; otherwise nothing
    is consumed and the exponent is [0]. *)
Definition take_exponent (s : string) : Z * string :=
  match s with
  | String c s' =>
      if Ascii.eqb (lower c) (Ascii.ascii_of_nat 101) then
        let '(neg, s'') := take_sign s' in
        let '(ds, rest) := span_digits s'' in
        match ds with
        | EmptyString => (0%Z, s)
        | _ => let e := Z.of_N (N_of_digits ds) in
               ((if neg then (- e)%Z else e), rest)
        end
      else (0%Z, s)
  | EmptyString => (0%Z, s)
  end.

(** CPython's [_Py_dg_strtod]: sign, digits, an optional point and
    digits, an optional exponent.  [None] when no digit was read;
    otherwise the correctly rounded value and the unread rest. *)
Definition strtod (s : string) : option (float * string) :=
  let '(neg, s0) := take_sign s in
  let '(ip, s1) := span_digits s0 in
  let '(fp, s2) :=
    match s1 with
    | String c s1' =>
        if Ascii.eqb c period then span_digits s1' else (EmptyString, s1)
    | EmptyString => (EmptyString, s1)
    end in
  match ip +:+ fp with
  | EmptyString => None
  | ds =>
      let '(e, s3) := take_exponent s2 in
      Some (of_decimal neg (N_of_digits ds) (e - Z.of_nat (String.length fp)), s3)
  end.

(** CPython's [_Py_parse_inf_or_nan]: [inf], [infinity] or [nan] in any
    letter case, after an optional sign. *)
Definition parse_inf_or_nan (s : string) : option (float * string) :=
  let '(neg, s0) := take_sign s in
  let low := lower_str s0 in
  if String.prefix "infinity" low then
    Some ((if neg then neg_infinity else infinity), String.substring 8 (String.length s0 - 8) s0)
  else if String.prefix "inf" low then
    Some ((if neg then neg_infinity else infinity), String.substring 3 (String.length s0 - 3) s0)
  else if String.prefix "nan" low then
    Some (nan, String.substring 3 (String.length s0 - 3) s0)
  else None.

(** [float_from_string_inner]: the whole string must be consumed. *)
Definition float_from_string_inner (s : string) : option float :=
  match strtod s with
  | Some (x, rest) => if String.eqb rest "" then Some x else None
  | None =>
      match parse_inf_or_nan s with
      | Some (x, rest) => if String.eqb rest "" then Some x else None
      | None => None
      end
  end.

(** Underscores may only stand between two digits (PEP 515); they are
    removed before the number is read.  [prev] is the previous
    character, if any. *)
Fixpoint strip_underscores (prev : option ascii) (s : string) : option string :=
  match s with
  | EmptyString =>
      match prev with
      | Some p => if Ascii.eqb p underscore then None else Some EmptyString
      | None => Some EmptyString
      end
  | String c s' =>
      if Ascii.eqb c underscore then
        match prev with
        | Some p => if is_digit p then strip_underscores (Some c) s' else None
        | None => None
        end
      else
        let after_underscore :=
          match prev with Some p => Ascii.eqb p underscore | None => false end in
        if after_underscore && negb (is_digit c) then None
        else option_map (String c) (strip_underscores (Some c) s')
  end.

(** [float(s)] for a [str]: [None] stands for [ValueError]. *)
Definition python_float (s : string) : option float :=
  match strip_underscores None (strip s) with
  | Some t => float_from_string_inner t
  | None => None
  end.

(** ** Decimal numerals

    The text of a number written with a decimal mark: an optional sign,
    the digits of the integer part, the mark, the digits of the
    fraction. *)
Inductive sign := NoSign | Plus | Minus.

Definition sign_text (sg : sign) : string :=
  match sg with
  | NoSign => ""
  | Plus => "+"
  | Minus => "-"
  end.

Definition is_minus (sg : sign) : bool :=
  match sg with
  | Minus => true
  | _ => false
  end.

Definition numeral (mark : ascii) (sg : sign) (int_digits frac_digits : string) : string :=
  sign_text sg +:+ int_digits +:+ String mark frac_digits.

End PyFloat.

(* ================================================================== *)
(** * Arithmetic interface, and numpy's reductions over it *)

Module Numpy.

(** The operations the sources apply to numbers.  [n_of_int] is the
    conversion of a Python int, [n_floor] is [np.floor] followed by the
    cast to an index, and [n_lit] reads a decimal literal. *)
Class Arith (R : Type) := {
  n_add : R -> R -> R;
  n_sub : R -> R -> R;
  n_mul : R -> R -> R;
  n_div : R -> R -> R;
  n_ltb : R -> R -> bool;
  n_leb : R -> R -> bool;
  n_isnan : R -> bool;
  n_of_int : Z -> R;
  n_floor : R -> Z;
  n_lit : Q -> R
}.

Declare Scope num_scope.
Delimit Scope num_scope with num.
Infix "+" := n_add : num_scope.
Infix "-" := n_sub : num_scope.
Infix "*" := n_mul : num_scope.
Infix "/" := n_div : num_scope.
Infix "<?" := n_ltb : num_scope.
Infix "<=?" := n_leb : num_scope.

(** [floor] of a binary64 number as an integer ([0] where the cast is
    undefined: infinities and NaN). *)
Definition float_floor (x : float) : Z :=
  match Prim2SF x with
  | S754_finite s m e =>
      let n := if s then Zneg m else Zpos m in
      match e with
      | Z0 => n
      | Zpos k => (n * Z.pow 2 (Zpos k))%Z
      | Zneg k => (n / Z.pow 2 (Zpos k))%Z
      end
  | _ => 0%Z
  end.

(** The conversion of a Python int to a float: exact up to [2^53],
    correctly rounded beyond. *)
Definition float_of_int (n : Z) : float :=
  match n with
  | Z0 => PrimFloat.zero
  | Zpos p => PyFloat.round_ratio false p 1
  | Zneg p => PyFloat.round_ratio true p 1
  end.

(** Binary64: the arithmetic the program runs. *)
#[export] Instance float_arith : Arith float := {|
  n_add := PrimFloat.add;
  n_sub := PrimFloat.sub;
  n_mul := PrimFloat.mul;
  n_div := PrimFloat.div;
  n_ltb := PrimFloat.ltb;
  n_leb := PrimFloat.leb;
  n_isnan := PrimFloat.is_nan;
  n_of_int := float_of_int;
  n_floor := float_floor;
  n_lit := PyFloat.of_Q
|}.

(** Exact rational arithmetic: no rounding, no overflow, no NaN. *)
#[export] Instance Q_arith : Arith Q := {|
  n_add := Qplus;
  n_sub := Qminus;
  n_mul := Qmult;
  n_div := Qdiv;
  n_ltb := fun a b => negb (Qle_bool b a);
  n_leb := Qle_bool;
  n_isnan := fun _ => false;
  n_of_int := inject_Z;
  n_floor := Qfloor;
  n_lit := fun q => q
|}.

Section Reductions.
Context {R : Type} `{Arith R}.
Local Open Scope num_scope.

(** The order numpy sorts by: the usual one, with NaN after every
    number. *)
Definition sort_lt (a b : R) : bool :=
  (a <? b) || (n_isnan b && negb (n_isnan a)).

Fixpoint insert_sorted (x : R) (l : list R) : list R :=
  match l with
  | [] => [x]
  | y :: l' => if sort_lt y x then y :: insert_sorted x l' else x :: y :: l'
  end.

(** [np.sort]; [np.partition] places the same values at the indices
    the reductions read. *)
Definition np_sort (l : list R) : list R := foldr insert_sorted [] l.

(** [np.minimum] and [np.maximum] as elementwise steps of a
    reduction: a NaN on either side is the result. *)
Definition np_minimum (a b : R) : R := if (a <=? b) || n_isnan a then a else b.
Definition np_maximum (a b : R) : R := if (b <=? a) || n_isnan a then a else b.

(** [np.min], [np.max]: [None] stands for the [ValueError] numpy
    raises on an empty array. *)
Definition np_min (data : list R) : option R :=
  match data with
  | [] => None
  | x :: l => Some (foldl np_minimum x l)
  end.
Definition np_max (data : list R) : option R :=
  match data with
  | [] => None
  | x :: l => Some (foldl np_maximum x l)
  end.

(** [np.add.reduce] from the first element. *)
Definition np_sum (l : list R) : R :=
  match l with
  | [] => n_of_int 0
  | x :: l' => foldl n_add x l'
  end.

(** [np.mean]: the sum divided by the count. *)
Definition np_mean (l : list R) : R := np_sum l / n_of_int (Z.of_nat (length l)).

(** [np.median]: the mean of the middle element, or of the two middle
    elements, of the sorted data; the NaN sorted last, if any, is the
    result. *)
Definition np_median (data : list R) : R :=
  let part := np_sort data in
  let sz := length part in
  let index := (sz / 2)%nat in
  let middle :=
    if Nat.eqb (sz mod 2) 1 then firstn 1 (skipn index part)
    else firstn 2 (skipn (index - 1) part) in
  let rout := np_mean middle in
  match last part with
  | Some top => if n_isnan top then top else rout
  | None => rout
  end.

(** numpy's [_lerp]. *)
Definition lerp (a b t : R) : R :=
  let diff_b_a := b - a in
  let lerp_interpolation := a + diff_b_a * t in
  if n_lit 0.5 <=? t then b - diff_b_a * (n_of_int 1 - t)
  else lerp_interpolation.

(** [arr[i]] with Python's negative indices. *)
Definition py_index (arr : list R) (i : Z) : option R :=
  if (i <? 0)%Z then arr !! Z.to_nat (Z.of_nat (length arr) + i)
  else arr !! Z.to_nat i.

(** [np.percentile(data, q)] with the default linear method:
    [None] for the [IndexError] on an empty array. *)
Definition np_percentile (data : list R) (q : Z) : option R :=
  let quantile := n_of_int q / n_of_int 100 in
  let arr := np_sort data in
  let values_count := Z.of_nat (length arr) in
  let virtual_index := n_of_int (values_count - 1) * quantile in
  let above := n_of_int (values_count - 1) <=? virtual_index in
  let below := virtual_index <? n_of_int 0 in
  let previous_index :=
    if below then 0%Z else if above then (-1)%Z else n_floor virtual_index in
  let next_index :=
    if below then 0%Z else if above then (-1)%Z else (n_floor virtual_index + 1)%Z in
  let gamma := virtual_index - n_of_int previous_index in
  match py_index arr previous_index, py_index arr next_index, last arr with
  | Some previous, Some next, Some top =>
      if n_isnan top then Some top else Some (lerp previous next gamma)
  | _, _, _ => None
  end.

End Reductions.

(** Modelled from the spec: the median of values given in ascending
    order is the middle value when their number is odd, and the mean of
    the two middle values when it is even; no values, no median. *)
Definition median_of_sorted {R : Type} `{Arith R} (s : list R) : option R :=
  let n := length s in
  if Nat.odd n then s !! (n / 2)%nat
  else x ← s !! (n / 2 - 1)%nat; y ← s !! (n / 2)%nat;
       Some ((x + y) / n_of_int 2)%num.

(** ** The linear interpolant, in exact arithmetic

    The value of a sorted sample at a fractional position: the entry at
    the floor of the position plus the fraction of the step to the next
    entry.  Positions past the end read the last entry. *)
Definition clamp_nth (s : list Q) (i : nat) : Q :=
  nth (Nat.min i (length s - 1)) s 0%Q.

Definition interp (s : list Q) (v : Q) : Q :=
  let i := Z.to_nat (Qfloor v) in
  (clamp_nth s i + (clamp_nth s (S i) - clamp_nth s i) * (v - inject_Z (Qfloor v)))%Q.

End Numpy.

(* ================================================================== *)
(** * boxplot.py *)

Module Boxplot.
Import Numpy.

(** The dictionary [compute_statistics] returns, by key. *)
Record statistics (R : Type) := {
  Minimum : R;
  First_Quartile : R;
  Median : R;
  Third_Quartile : R;
  Maximum : R
}.
Arguments Build_statistics {R}.
Arguments Minimum {R}.
Arguments First_Quartile {R}.
Arguments Median {R}.
Arguments Third_Quartile {R}.
Arguments Maximum {R}.

(** [compute_statistics(data)]; [None] when numpy raises, which is on
    empty data, at [np.min]. *)
Definition compute_statistics {R} `{Arith R} (data : list R) : option (statistics R) :=
  mn ← np_min data;
  q1 ← np_percentile data 25;
  let md := np_median data in
  q3 ← np_percentile data 75;
  mx ← np_max data;
  Some {| Minimum := mn; First_Quartile := q1; Median := md;
          Third_Quartile := q3; Maximum := mx |}.

(** The chain the ordering invariant asks for. *)
Definition ordered {R} `{Arith R} (s : statistics R) : bool :=
  n_leb (Minimum s) (First_Quartile s)
  && n_leb (First_Quartile s) (Median s)
  && n_leb (Median s) (Third_Quartile s)
  && n_leb (Third_Quartile s) (Maximum s).

End Boxplot.

(* ================================================================== *)
(** * pandas: cells, rows, DataFrames, and the store *)

Module Pandas.
Import PyStr PyFloat.

(** A cell holds text or a float; a missing value is the float NaN, as
    in pandas. *)
Inductive cell :=
| Str (s : string)
| Num (x : float).

Definition NaN : cell := Num PrimFloat.nan.

(** [pd.isna] on one cell. *)
Definition isna (c : cell) : bool :=
  match c with
  | Str _ => false
  | Num x => PrimFloat.is_nan x
  end.

(** A row carries its index label and its cells by column name; a
    column the row has no entry for reads as missing. *)
Record row := { label : nat; cells : gmap string cell }.

Definition cell_at (r : row) (c : string) : cell := default NaN (cells r !! c).

(** The dtype of a column: [object] for text and mixed content,
    [float64] for a column of floats. *)
Inductive dtype := object | float64.

Record DataFrame := {
  columns : list string;
  dtypes : gmap string dtype;
  rows : list row
}.

Definition dtype_of (d : DataFrame) (c : string) : dtype :=
  default object (dtypes d !! c).

(** A [float64] column holds floats only. *)
Definition well_typed (d : DataFrame) : Prop :=
  forall r c, r ∈ rows d -> dtype_of d c = float64 -> exists x, cell_at r c = Num x.

(** A Series: values with their index labels. *)
Abbreviation Series A := (list (nat * A)) (only parsing).

Definition index (d : DataFrame) : list nat := label <$> rows d.

(** The argument of an exception: a message or a list of labels. *)
Inductive pyval :=
| PStr (s : string)
| PList (l : list string).

(** The exceptions the pipeline can raise.  [NameError] is a reference
    to no object; no reference obtained from [new] raises it. *)
Inductive exn :=
| KeyError (arg : pyval)
| ValueError (arg : pyval)
| AttributeError (arg : pyval)
| NameError.

Abbreviation result A := (exn + A)%type (only parsing).

Fixpoint mapM_result {A B} (f : A -> result B) (l : list A) : result (list B) :=
  match l with
  | [] => inr []
  | x :: l' =>
      match f x with
      | inl e => inl e
      | inr y =>
          match mapM_result f l' with
          | inl e => inl e
          | inr ys => inr (y :: ys)
          end
      end
  end.

(** ** Operations that read a DataFrame and build a new object *)

Definition absent (d : DataFrame) (cs : list string) : list string :=
  filter (fun c => c ∉ columns d) cs.

(** [df.dropna(subset=subset)]: the rows with no missing value in the
    subset; [KeyError] with the labels that are no column. *)
Definition dropna (d : DataFrame) (subset : list string) : result DataFrame :=
  match absent d subset with
  | [] =>
      inr {| columns := columns d;
             dtypes := dtypes d;
             rows := filter (fun r => forallb (fun c => negb (isna (cell_at r c))) subset = true)
                       (rows d) |}
  | missing => inl (KeyError (PList missing))
  end.

(** [df[c]] for one label. *)
Definition getitem_column (d : DataFrame) (c : string) : result (Series cell) :=
  if decide (c ∈ columns d)
  then inr ((fun r => (label r, cell_at r c)) <$> rows d)
  else inl (KeyError (PStr c)).

Definition project (cs : list string) (r : row) : row :=
  {| label := label r;
     cells := list_to_map ((fun c => (c, cell_at r c)) <$> cs) |}.

(** [df[cs]] for a list of labels: a new DataFrame with these columns. *)
Definition getitem_columns (d : DataFrame) (cs : list string) : result DataFrame :=
  match absent d cs with
  | [] => inr {| columns := cs;
                 dtypes := list_to_map ((fun c => (c, dtype_of d c)) <$> cs);
                 rows := project cs <$> rows d |}
  | missing => inl (KeyError (PList missing))
  end.

(** [series.str] for a Series of the given dtype: the accessor is
    refused, with [AttributeError], on a [float64] Series and on an
    [object] Series whose values, missing ones apart, are all floats;
    an empty or all-missing [object] Series, text, and text mixed with
    floats are accepted. *)
Definition str_accessor (dt : dtype) (s : Series cell) : result (Series cell) :=
  let refused := inl (AttributeError (PStr "Can only use .str accessor with string values!")) in
  match dt with
  | float64 => refused
  | object =>
      match filter (fun x => isna x.2 = false) s with
      | [] => inr s
      | present =>
          if forallb (fun x => match x.2 with Num _ => true | Str _ => false end) present
          then refused
          else inr s
      end
  end.

(** [series.str.contains(pat, na=na)]: text is searched, anything else
    gives [na]. *)
Definition series_str_contains (pat : string) (na : bool) (s : Series cell) : Series bool :=
  (fun '(l, c) => (l, match c with Str t => str_contains pat t | Num _ => na end)) <$> s.

(** [df[mask]] for a boolean Series over the same index: the rows whose
    entry is [True]. *)
Definition getitem_mask (d : DataFrame) (mask : Series bool) : DataFrame :=
  {| columns := columns d;
     dtypes := dtypes d;
     rows := (zip (rows d) mask.*2) ≫= (fun '(r, b) => if b : bool then [r] else []) |}.

Definition column (d : DataFrame) (c : string) : Series cell :=
  (fun r => (label r, cell_at r c)) <$> rows d.

(** The DataFrame with the given index whose columns are the given
    Series, read by position, all of one dtype. *)
Definition from_columns (idx : list nat) (dt : dtype)
    (cols : list (string * Series cell)) : DataFrame :=
  {| columns := cols.*1;
     dtypes := list_to_map ((fun c => (c, dt)) <$> cols.*1);
     rows := imap (fun i l =>
               {| label := l;
                  cells := list_to_map
                    ((fun '(c, s) => (c, default NaN (snd <$> s !! i))) <$> cols) |}) idx |}.

(** [df.apply(f)]: [f] maps each column to a Series; here [f] returns
    text, so the result has dtype [object]. *)
Definition apply (f : Series cell -> Series cell) (d : DataFrame) : DataFrame :=
  from_columns (index d) object ((fun c => (c, f (column d c))) <$> columns d).

Section Conversions.
(** [str(x)] for a float [x].  Python prints the shortest digit
    string that reads back as [x]; nothing below depends on which
    digits are printed. *)
Variable float_repr : float -> string.

Definition astype_str (c : cell) : string :=
  match c with
  | Str s => s
  | Num x => float_repr x
  end.

(** [col.astype(str)] *)
Definition series_astype_str (s : Series cell) : Series cell :=
  (fun '(l, c) => (l, Str (astype_str c))) <$> s.

(** [col.str.replace(old, new)]: text is rewritten, anything else
    becomes missing.  (The accessor is applied to the result of
    [astype(str)], which is text throughout and always accepted.) *)
Definition series_str_replace (old new : ascii) (s : Series cell) : Series cell :=
  (fun '(l, c) => (l, match c with Str t => Str (str_replace old new t) | Num _ => NaN end)) <$> s.

(** [float(c)] for one cell: text is parsed, a float is kept. *)
Definition cell_astype_float (c : cell) : result cell :=
  match c with
  | Num x => inr (Num x)
  | Str s =>
      match python_float s with
      | Some x => inr (Num x)
      | None => inl (ValueError (PStr s))
      end
  end.

(** [series.astype(float)]: the first text that is no number raises
    [ValueError]. *)
Definition series_astype_float (s : Series cell) : result (Series cell) :=
  mapM_result (fun '(l, x) =>
                 match cell_astype_float x with
                 | inl e => inl e
                 | inr y => inr (l, y)
                 end) s.

(** [df.astype(float)], column by column. *)
Definition astype_float (d : DataFrame) : result DataFrame :=
  match mapM_result
          (fun c =>
             match series_astype_float (column d c) with
             | inl e => inl e
             | inr s => inr (c, s)
             end) (columns d) with
  | inl e => inl e
  | inr cols => inr (from_columns (index d) float64 cols)
  end.

(** What the three conversion steps do to one score cell. *)
Definition score_to_float (c : cell) : result cell :=
  cell_astype_float (Str (str_replace comma period (astype_str c))).
End Conversions.

(** The rows of [v] in the order of the labels [idx]; a label [v]
    lacks gives a row of missing values.  pandas refuses to reindex
    from duplicate labels. *)
Definition reindex (idx : list nat) (v : DataFrame) : result (list row) :=
  if decide (NoDup (index v))
  then inr ((fun l => default {| label := l; cells := ∅ |}
                        (snd <$> list_find (fun r => label r = l) (rows v))) <$> idx)
  else inl (ValueError (PStr "cannot reindex on an axis with duplicate labels")).

(** [df[cs] = v] for a DataFrame [v]: the columns of [v] are assigned
    in order to the labels [cs], rows matched by index label. *)
Definition setitem_columns (d : DataFrame) (cs : list string) (v : DataFrame) : result DataFrame :=
  if negb (Nat.eqb (length cs) (length (columns v)))
  then inl (ValueError (PStr "Columns must be same length as key"))
  else
    match (if decide (index v = index d) then inr (rows v) else reindex (index d) v) with
    | inl e => inl e
    | inr vrows =>
        inr {| columns := columns d ++ filter (fun c => c ∉ columns d) (remove_dups cs);
             dtypes := foldl (fun m '(k1, k2) => <[k1 := dtype_of v k2]> m)
                         (dtypes d) (zip cs (columns v));
               rows := zip_with (fun r rv =>
                         {| label := label r;
                            cells := foldl (fun m '(k1, k2) => <[k1 := cell_at rv k2]> m)
                                       (cells r) (zip cs (columns v)) |})
                       (rows d) vrows |}
    end.

(** ** The store: objects that variables are bound to *)

Abbreviation loc := positive (only parsing).
Abbreviation heap := (gmap positive DataFrame) (only parsing).

(** A computation reads and updates the store and returns or raises. *)
Definition Py (A : Type) : Type := heap -> result A * heap.

Definition ret {A} (x : A) : Py A := fun h => (inr x, h).
Definition raise {A} (e : exn) : Py A := fun h => (inl e, h).
Definition bind {A B} (m : Py A) (k : A -> Py B) : Py B :=
  fun h => match m h with
           | (inr x, h') => k x h'
           | (inl e, h') => (inl e, h')
           end.
Definition lift {A} (r : result A) : Py A := fun h => (r, h).

(** A new object. *)
Definition new (d : DataFrame) : Py loc :=
  fun h => let l := fresh (dom h) in (inr l, <[l := d]> h).
(** The object a reference points to. *)
Definition load (l : loc) : Py DataFrame :=
  fun h => match h !! l with
           | Some d => (inr d, h)
           | None => (inl NameError, h)
           end.
(** In-place update of an object. *)
Definition store (l : loc) (d : DataFrame) : Py unit :=
  fun h => match h !! l with
           | Some _ => (inr tt, <[l := d]> h)
           | None => (inl NameError, h)
           end.

Declare Scope py_scope.
Delimit Scope py_scope with py.
Notation "x <- m ;; k" := (bind m (fun x => k))
  (at level 100, m at next level, right associativity) : py_scope.
Notation "m ;;; k" := (bind m (fun _ => k))
  (at level 100, right associativity) : py_scope.

(** [series.dropna()]: the entries that are not missing. *)
Definition series_dropna (s : Series cell) : Series cell :=
  filter (fun p => isna p.2 = false) s.

(** [df.iloc[:, i]]: the column at position [i]; [None] stands for the
    [IndexError] on a position past the last column. *)
Definition iloc_column (d : DataFrame) (i : nat) : option (Series cell) :=
  c ← columns d !! i; Some (column d c).

(** The values of a Series of floats, as the array numpy reads; [None]
    when the Series holds text. *)
Definition float_values (s : Series cell) : option (list float) :=
  mapM (fun p => match p.2 with Num x => Some x | Str _ => None end) s.

(** [d'] has the rows of [d], in order and with the same labels, each
    cell of a column of [d] sent through [phi]. *)
Definition cellwise (phi : cell -> result cell) (d d' : DataFrame) : Prop :=
  columns d' = columns d
  /\ Forall2 (fun r r' =>
                label r' = label r
                /\ forall c, c ∈ columns d -> phi (cell_at r c) = inr (cell_at r' c))
       (rows d) (rows d').

End Pandas.

(* ================================================================== *)
(** * utils/utils.py *)

Module Utils.
Import PyStr Pandas.

(** [validate_dataframe(df, required_columns)]: returns [None], or
    raises [KeyError] with a message listing the missing columns. *)
Definition validate_dataframe (df : DataFrame) (required_columns : list string) : result unit :=
  let missing_columns := filter (fun col => col ∉ columns df) required_columns in
  match missing_columns with
  | [] => inr tt
  | _ => inl (KeyError (PStr ("Missing required columns: " +:+ join ", " missing_columns)))
  end.

(** ** Timestamps *)

(** A reading of the clock, [datetime.now()]: the fields [strftime]
    prints.  A [datetime] has its year in 1..9999, month in 1..12, day
    in 1..31, hour below 24, minute and second below 60. *)
Record datetime := {
  year : nat; month : nat; day : nat;
  hour : nat; minute : nat; second : nat
}.

Definition digit (n : nat) : ascii := Ascii.ascii_of_nat (48 + n mod 10).

(** The decimal digits of [n], zero-padded to [width] places. *)
Fixpoint zero_padded (width n : nat) : string :=
  match width with
  | O => EmptyString
  | S w => zero_padded w (n / 10) +:+ String (digit n) EmptyString
  end.

(** What one [strftime] directive prints: [%Y] the year with century,
    [%m], [%d], [%H], [%M], [%S] two digits each; any other character
    after the percent sign is left as written. *)
Definition directive (c : ascii) (t : datetime) : string :=
  if Ascii.eqb c (Ascii.ascii_of_nat 89) then zero_padded 4 (year t)
  else if Ascii.eqb c (Ascii.ascii_of_nat 109) then zero_padded 2 (month t)
  else if Ascii.eqb c (Ascii.ascii_of_nat 100) then zero_padded 2 (day t)
  else if Ascii.eqb c (Ascii.ascii_of_nat 72) then zero_padded 2 (hour t)
  else if Ascii.eqb c (Ascii.ascii_of_nat 77) then zero_padded 2 (minute t)
  else if Ascii.eqb c (Ascii.ascii_of_nat 83) then zero_padded 2 (second t)
  else String (Ascii.ascii_of_nat 37) (String c EmptyString).

(** [t.strftime(fmt)] *)
Fixpoint strftime (fmt : string) (t : datetime) : string :=
  match fmt with
  | EmptyString => EmptyString
  | String c rest =>
      if Ascii.eqb c (Ascii.ascii_of_nat 37) then
        match rest with
        | String k rest' => directive k t +:+ strftime rest' t
        | EmptyString => String c EmptyString
        end
      else String c (strftime rest t)
  end.

(** [get_timestamp()], given the reading of the clock. *)
Definition get_timestamp (now : datetime) : string :=
  strftime "%Y%m%d_%H%M%S" now.

(** The timestamp the [save_figure] functions of [prismadiagram.py] and
    [boxplot.py] put in their file names: to the minute. *)
Definition minute_timestamp (now : datetime) : string :=
  strftime "%Y%m%d_%H%M" now.

(** The invariant of a [datetime] with a four-digit year. *)
Definition valid_datetime (t : datetime) : Prop :=
  (10 ^ 3 <= year t < 10 ^ 4 /\ 1 <= month t <= 12 /\ 1 <= day t <= 31
   /\ hour t < 24 /\ minute t < 60 /\ second t < 60)%nat.

(** The order of two readings of the clock, to the second. *)
Definition chronological (a b : datetime) : comparison :=
  match (year a ?= year b)%nat with
  | Eq =>
      match (month a ?= month b)%nat with
      | Eq =>
          match (day a ?= day b)%nat with
          | Eq =>
              match (hour a ?= hour b)%nat with
              | Eq =>
                  match (minute a ?= minute b)%nat with
                  | Eq => (second a ?= second b)%nat
                  | c => c
                  end
              | c => c
              end
          | c => c
          end
      | c => c
      end
  | c => c
  end.

End Utils.

(* ================================================================== *)
(** * preprocessing/preprocessing.py *)

Module Preprocessing.
Import PyStr PyFloat Pandas.
Local Open Scope py_scope.

Section WithRepr.
Variable float_repr : float -> string.

(** [preprocess_performance_data(df, score_columns, evaluation_column,
    modality_column)].  The parameter [df] is a reference; each
    assignment [df = ...] binds the name to a new object, and
    [df[score_columns] = ...] updates the object the name is bound to
    at that point. *)
Definition preprocess_performance_data
    (df : loc) (score_columns : list string)
    (evaluation_column modality_column : string)
  : Py (DataFrame * Series cell) :=
  (* df = df.dropna(subset=score_columns + [evaluation_column, modality_column]) *)
  df <- (d <- load df ;;
         d' <- lift (dropna d (score_columns ++ [evaluation_column; modality_column])) ;;
         new d') ;;
  (* df = df[df[evaluation_column].str.contains("AUC", na=False)] *)
  df <- (d <- load df ;;
         ev <- lift (getitem_column d evaluation_column) ;;
         ev <- lift (str_accessor (dtype_of d evaluation_column) ev) ;;
         new (getitem_mask d (series_str_contains "AUC" false ev))) ;;
  (* df[score_columns] = df[score_columns].apply(...).astype(float) *)
  (d <- load df ;;
   sc <- lift (getitem_columns d score_columns) ;;
   v <- lift (astype_float
                (apply (fun col => series_str_replace comma period
                                     (series_astype_str float_repr col)) sc)) ;;
   d' <- lift (setitem_columns d score_columns v) ;;
   store df d') ;;;
  (* return df[score_columns], df[modality_column] *)
  d <- load df ;;
  scores <- lift (getitem_columns d score_columns) ;;
  modalities <- lift (getitem_column d modality_column) ;;
  ret (scores, modalities).

(** The same function in [scatterplot_perf_comparison.py], under the
    name [preprocess_data]: the two bodies are identical. *)
Definition preprocess_data := preprocess_performance_data.

End WithRepr.

(** The row filter the first two statements implement, as a predicate
    on one input row: no missing value in the designated columns, and
    an evaluation metric that is text containing AUC. *)
Definition no_missing (cs : list string) (r : row) : bool :=
  forallb (fun c => negb (isna (cell_at r c))) cs.

Definition metric_is_auc (evaluation_column : string) (r : row) : bool :=
  match cell_at r evaluation_column with
  | Str t => str_contains "AUC" t
  | Num _ => false
  end.

Definition survives (score_columns : list string)
    (evaluation_column modality_column : string) (r : row) : bool :=
  no_missing (score_columns ++ [evaluation_column; modality_column]) r
  && metric_is_auc evaluation_column r.

(** The rows with no missing value in the designated columns, and what
    the string accessor says of their evaluation metrics. *)
Definition complete_rows (score_columns : list string)
    (evaluation_column modality_column : string) (d : DataFrame) : list row :=
  filter (fun r => no_missing (score_columns ++ [evaluation_column; modality_column]) r = true)
    (rows d).

Definition metric_accessor (score_columns : list string)
    (evaluation_column modality_column : string) (d : DataFrame)
  : result (Series cell) :=
  str_accessor (dtype_of d evaluation_column)
    ((fun r => (label r, cell_at r evaluation_column))
       <$> complete_rows score_columns evaluation_column modality_column d).

(** The evaluation metric is a text column: dtype [object], every value
    that is not missing a string.  This is what reading a CSV column
    with some non-numeric entry gives. *)
Definition text_column (c : string) (d : DataFrame) : Prop :=
  dtype_of d c = object
  /\ forall r, r ∈ rows d -> isna (cell_at r c) = false -> exists t, cell_at r c = Str t.

(** The rows of the input that pass the filter, in input order. *)
Definition surviving_rows (score_columns : list string)
    (evaluation_column modality_column : string) (d : DataFrame) : list row :=
  filter (fun r => survives score_columns evaluation_column modality_column r = true)
    (rows d).

(** [preprocess_sample_size_data(df)]: the column [total_data] without
    its missing entries, converted to float; [ValueError] when the
    column is absent, and when an entry is text that is no number. *)
Definition preprocess_sample_size_data (df : DataFrame) : result (Series cell) :=
  if decide ("total_data" ∉ columns df)
  then inl (ValueError (PStr "Column 'total_data' not found in the CSV file."))
  else
    match getitem_column df "total_data" with
    | inl e => inl e
    | inr s => series_astype_float (series_dropna s)
    end.

(** The rows whose sample size is present, in input order. *)
Definition sized_rows (d : DataFrame) : list row :=
  filter (fun r => isna (cell_at r "total_data") = false) (rows d).

End Preprocessing.

(* ================================================================== *)
(** * visualization/visualization.py *)

Module Visualization.
Import PyStr PyFloat Numpy.

Section Generic.
Context {R : Type} `{Arith R}.
Local Open Scope num_scope.

(** What a drawing call adds to a matplotlib Axes. *)
Inductive artist :=
| FancyBboxPatch (xy : R * R) (width height : R)
| Text (x y : R) (s : string) (fontsize : Z).

Definition Axes : Type := list artist.

Definition point : Type := R * R.

(** [create_box(ax, text, x, y, width, height, fontsize)]: the Axes
    after the two drawing calls, and the returned tuple
    [(center, top_center, bottom_center, right_center, left_center)]. *)
Definition create_box (ax : Axes) (text : string) (x y width height : R) (fontsize : Z)
  : Axes * (point * point * point * point * point) :=
  let ax := ax ++ [FancyBboxPatch (x, y) width height] in
  let ax := ax ++ [Text (x + width / n_of_int 2) (y + height / n_of_int 2) text fontsize] in
  let center := (x + width / n_of_int 2, y + height / n_of_int 2) in
  let top_center := (x + width / n_of_int 2, y + height) in
  let bottom_center := (x + width / n_of_int 2, y) in
  let right_center := (x + width, y + height / n_of_int 2) in
  let left_center := (x, y + height / n_of_int 2) in
  (ax, (center, top_center, bottom_center, right_center, left_center)).

(** The defaults of [create_box]. *)
Definition default_width : R := n_of_int 4.
Definition default_height : R := n_lit 1.8.
Definition default_fontsize : Z := 10.

(** [multimodality_scores - unimodality_scores] for two Series over
    the same index, by position. *)
Definition deltas (unimodality_scores multimodality_scores : list R) : list R :=
  zip_with n_sub multimodality_scores unimodality_scores.

(** [(deltas < 0.01).sum()] and [(deltas > 0.10).sum()]. *)
Definition negative_delta_count (ds : list R) : nat :=
  length (filter (fun d => (d <? n_lit 0.01) = true) ds).
Definition large_improvement_count (ds : list R) : nat :=
  length (filter (fun d => (n_lit 0.10 <? d) = true) ds).

(** The numbers [create_performance_plot] computes before drawing. *)
Record plot_statistics := {
  median_difference : R;
  negative_delta : nat;
  large_improvement : nat;
  total_studies : nat
}.

Definition create_performance_plot (unimodality_scores multimodality_scores : list R)
  : plot_statistics :=
  let ds := deltas unimodality_scores multimodality_scores in
  {| median_difference := np_median ds;
     negative_delta := negative_delta_count ds;
     large_improvement := large_improvement_count ds;
     total_studies := length unimodality_scores |}.

End Generic.

Arguments artist : clear implicits.
Arguments Axes : clear implicits.
Arguments point : clear implicits.
Arguments plot_statistics : clear implicits.

(** Round a non-negative rational to the nearest integer, ties to even. *)
Definition round_half_even (q : Q) : Z :=
  let f := Qfloor q in
  match Qcompare (q - inject_Z f) (1 # 2) with
  | Lt => f
  | Gt => (f + 1)%Z
  | Eq => if Z.even f then f else (f + 1)%Z
  end.

Definition two_digits (n : Z) : string :=
  let s := NilZero.string_of_uint (N.to_uint (Z.to_N n)) in
  if (n <? 10)%Z then "0" +:+ s else s.

(** [f"{x:.2f}"]: the exact value of [x] rounded to two decimals. *)
Definition format_2f (x : float) : string :=
  match Prim2SF x with
  | S754_nan => "nan"
  | S754_infinity s => if s then "-inf" else "inf"
  | S754_zero s => if s then "-0.00" else "0.00"
  | S754_finite s _ _ =>
      match to_Q (PrimFloat.abs x) with
      | Some q =>
          let n := round_half_even (q * 100) in
          (if s then "-" else "") +:+ NilZero.string_of_uint (N.to_uint (Z.to_N (n / 100)))
            +:+ "." +:+ two_digits (n mod 100)
      | None => "nan"
      end
  end.

(** The legend entry of the median line. *)
Definition median_label (st : plot_statistics float) : string :=
  "Median Threshold (Δ=" +:+ format_2f (median_difference st) +:+ ")".

(** ** The legend of the performance plot *)

Section Legend.
(** [plt.cm.tab20(np.linspace(0, 1, n))]: an array of [n] colours. *)
Variable color : Type.
Variable tab20_linspace : nat -> list color.

(** [modalities.unique()]: the distinct values, in order of first
    appearance.  The modalities are text. *)
Definition unique (modalities : list string) : list string :=
  foldl (fun seen m => if decide (m ∈ seen) then seen else seen ++ [m]) [] modalities.

(** [dict(zip(unique_modalities, colors))]: a dict keeps its keys in
    insertion order. *)
Definition color_map (modalities : list string) : list (string * color) :=
  let unique_modalities := unique modalities in
  let colors := tab20_linspace (length unique_modalities) in
  zip unique_modalities colors.

(** [d[k]] and the lookup [Series.map(d)] makes: the value of the key. *)
Definition dict_get {V} (d : list (string * V)) (k : string) : option V :=
  (fun found => found.2.2) <$> list_find (fun kv => kv.1 = k) d.

(** [modalities.map(color_map)]: the colour of each point, [None]
    (NaN) for a modality that is no key. *)
Definition modality_colors (modalities : list string) : list (option color) :=
  (fun m => dict_get (color_map modalities) m) <$> modalities.

(** [modalities.value_counts()]: the number of occurrences of each
    value; the code looks counts up by value only. *)
Definition value_counts (modalities : list string) : gmap string nat :=
  foldl (fun counts m => <[m := S (default 0%nat (counts !! m))]> counts) ∅ modalities.

(** [str(n)] for a count. *)
Definition str_of_nat (n : nat) : string := NilZero.string_of_uint (Nat.to_uint n).

(** The legend handles of the modalities: for each entry of the colour
    map, in order, its colour and the label [f"{modality} ({count})"];
    [modality_counts[modality]] raises [KeyError] for a value that was
    not counted. *)
Definition modality_patches (modalities : list string)
  : Pandas.exn + list (color * string) :=
  let modality_counts := value_counts modalities in
  Pandas.mapM_result
    (fun '(modality, c) =>
       match modality_counts !! modality with
       | Some n => inr (c, modality +:+ " (" +:+ str_of_nat n +:+ ")")
       | None => inl (Pandas.KeyError (Pandas.PStr modality))
       end)
    (color_map modalities).

End Legend.

(** ** The PRISMA flowchart *)

Section Flowchart.
Context {R : Type} `{Arith R}.
Local Open Scope num_scope.

Definition newline : string := String (Ascii.ascii_of_nat 10) EmptyString.

(** An arrow drawn by [ax.annotate("", xy=head, xytext=tail, ...)]. *)
Record arrow := { xy : point R; xytext : point R }.

(** [positions[i]] for the tuple [create_box] returns. *)
Definition tuple_item (positions : point R * point R * point R * point R * point R)
    (i : nat) : point R :=
  let '(center, top_center, bottom_center, right_center, left_center) := positions in
  match i with
  | 0 => center
  | 1 => top_center
  | 2 => bottom_center
  | 3 => right_center
  | _ => left_center
  end%nat.

(** What [create_prisma_diagram] puts on the figure: the axis limits,
    the patches and texts in drawing order, and the arrows in drawing
    order. *)
Record flowchart := {
  xlim : R * R;
  ylim : R * R;
  artists : Axes R;
  arrows : list arrow
}.

Definition create_prisma_diagram : flowchart :=
  let ax : Axes R := [] in
  (* Identification *)
  let '(ax, identification) :=
    create_box ax
      ("Records identified" +:+ newline +:+ "through database search" +:+ newline
       +:+ "n = 352")
      (n_of_int 2) (n_of_int 12) default_width default_height default_fontsize in
  let '(ax, duplicates_removed) :=
    create_box ax "Duplicates excluded = 2"
      (n_of_int 8) (n_of_int 12) default_width default_height default_fontsize in
  (* Eligibility *)
  let '(ax, eligibility_title_abstract) :=
    create_box ax
      ("Records screened" +:+ newline +:+ "through title and abstract" +:+ newline
       +:+ "n = 350")
      (n_of_int 2) (n_lit 9.3) default_width default_height default_fontsize in
  let '(ax, excluded_title_abstract) :=
    create_box ax
      ("Articles excluded" +:+ newline +:+ "through title and abstract" +:+ newline
       +:+ "n = 216" +:+ newline +:+ newline +:+ "reasons :" +:+ newline
       +:+ "• no comparison of unimodality" +:+ newline
       +:+ "versus multimodality (n= 189)" +:+ newline
       +:+ "• wrong population (n=46)" +:+ newline
       +:+ "• not a clinical-making" +:+ newline +:+ "decision task (n=37)" +:+ newline
       +:+ "• wrong publication type (n=27)")
      (n_of_int 8) (n_lit 6.1) (n_of_int 6) (n_of_int 5) default_fontsize in
  let '(ax, eligibility_full_text) :=
    create_box ax
      ("Full-text articles" +:+ newline +:+ "assessed for eligibility" +:+ newline
       +:+ "(n = 134)")
      (n_of_int 2) (n_lit 4.2) default_width default_height default_fontsize in
  let '(ax, excluded_full_text) :=
    create_box ax
      ("Full text articles excluded" +:+ newline +:+ "n = 37" +:+ newline +:+ newline
       +:+ "reasons :" +:+ newline
       +:+ "• no comparison of unimodality" +:+ newline
       +:+ "versus multimodality (n = 28)" +:+ newline
       +:+ "• wrong population (n = 2)" +:+ newline
       +:+ "• not a clinical-making" +:+ newline +:+ "decision task (n = 2)" +:+ newline
       +:+ "• wrong publication type (n = 4)" +:+ newline +:+ "• duplicate (n = 1)")
      (n_of_int 8) (n_of_int 1) (n_of_int 6) (n_of_int 5) default_fontsize in
  (* Included *)
  let '(ax, included) :=
    create_box ax
      ("Studies included" +:+ newline +:+ "in review" +:+ newline +:+ "n = 97")
      (n_of_int 2) (n_of_int 1) default_width default_height default_fontsize in
  (* Vertical arrows, then horizontal arrows *)
  let arrows :=
    [ {| xy := tuple_item identification 2; xytext := tuple_item identification 2 |};
      {| xy := tuple_item eligibility_title_abstract 1;
         xytext := tuple_item identification 2 |};
      {| xy := tuple_item eligibility_full_text 1;
         xytext := tuple_item eligibility_title_abstract 2 |};
      {| xy := tuple_item included 1; xytext := tuple_item eligibility_full_text 2 |};
      {| xy := tuple_item duplicates_removed 4; xytext := tuple_item identification 3 |};
      {| xy := (n_of_int 8, n_of_int 10); xytext := (n_of_int 6, n_of_int 10) |};
      {| xy := (n_of_int 8, n_of_int 5); xytext := (n_of_int 6, n_of_int 5) |} ] in
  (* Phase labels *)
  let ax := ax ++ [Text (n_lit 0.5) (n_of_int 8) "Identification and screening" 12] in
  let ax := ax ++ [Text (n_lit 0.5) (n_lit 4.5) "Eligibility" 12] in
  let ax := ax ++ [Text (n_lit 0.5) (n_lit 1.5) "Included" 12] in
  {| xlim := (n_of_int 0, n_of_int 15);
     ylim := (n_of_int 0, n_of_int 16);
     artists := ax;
     arrows := arrows |}.

(** The rectangles among the artists: lower-left corner, width, height. *)
Definition boxes (ax : Axes R) : list (point R * R * R) :=
  ax ≫= (fun a => match a with
                  | FancyBboxPatch xy w h => [(xy, w, h)]
                  | Text _ _ _ _ => []
                  end).

Definition n_eqb (a b : R) : bool := (a <=? b) && (b <=? a).

(** The point lies on the boundary of the box. *)
Definition on_boundary (p : point R) (b : point R * R * R) : bool :=
  let '((x, y), w, h) := b in
  ((n_eqb p.1 x || n_eqb p.1 (x + w)) && (y <=? p.2) && (p.2 <=? y + h))
  || ((n_eqb p.2 y || n_eqb p.2 (y + h)) && (x <=? p.1) && (p.1 <=? x + w)).

(** The box lies within the axis limits. *)
Definition within_limits (f : flowchart) (b : point R * R * R) : bool :=
  let '((x, y), w, h) := b in
  ((xlim f).1 <=? x) && (x + w <=? (xlim f).2)
  && ((ylim f).1 <=? y) && (y + h <=? (ylim f).2).

(** Two boxes share no interior point. *)
Definition apart (a b : point R * R * R) : bool :=
  let '((x1, y1), w1, h1) := a in
  let '((x2, y2), w2, h2) := b in
  (x1 + w1 <=? x2) || (x2 + w2 <=? x1) || (y1 + h1 <=? y2) || (y2 + h2 <=? y1).

End Flowchart.

Arguments arrow : clear implicits.
Arguments flowchart : clear implicits.

End Visualization.

(* ================================================================== *)
(** * Concrete inputs used below *)

Module Examples.
Import PyStr PyFloat Numpy Pandas Utils.
Local Open Scope float_scope.

(** The paired scores and the differences of the specification's
    examples. *)
Definition baseline : list float := [0.6; 0.7; 0.8].
Definition comparison : list float := [0.65; 0.72; 0.95].
Definition baseline_exact : list Q := [0.6; 0.7; 0.8]%Q.
Definition comparison_exact : list Q := [0.65; 0.72; 0.95]%Q.

(** The same three pairs in another order, and four pairs. *)
Definition baseline_shuffled : list float := [0.7; 0.8; 0.6].
Definition comparison_shuffled : list float := [0.72; 0.95; 0.65].
Definition baseline_shuffled_exact : list Q := [0.7; 0.8; 0.6]%Q.
Definition comparison_shuffled_exact : list Q := [0.72; 0.95; 0.65]%Q.
Definition baseline_four : list float := [0.8; 0.6; 0.7; 0.5].
Definition comparison_four : list float := [0.95; 0.65; 0.72; 0.6].
Definition baseline_four_exact : list Q := [0.8; 0.6; 0.7; 0.5]%Q.
Definition comparison_four_exact : list Q := [0.95; 0.65; 0.72; 0.6]%Q.

Definition differences : list float := [0.05; 0.02; 0.15; -0.01; 0.12].
Definition differences_exact : list Q := [0.05; 0.02; 0.15; -0.01; 0.12]%Q.
Definition zeros : list float := [0; 0; 0; 0; 0].

(** Two equal sample sizes near the top of the binary64 range. *)
Definition huge_sizes : list float := [1.7e308; 1.7e308].

(** The column names the scripts pass. *)
Definition score_columns : list string :=
  ["unimodal_best_score"; "multimodal_best_score"].
Definition evaluation_column : string := "evaluation_metric".
Definition modality_column : string := "modalities".

Definition study (l : nat) (uni multi : cell) (metric modality : cell) : row :=
  {| label := l;
     cells := {[ "unimodal_best_score" := uni;
                 "multimodal_best_score" := multi;
                 "evaluation_metric" := metric;
                 "modalities" := modality;
                 "title" := Str "a study" ]} |}.

Definition table_columns : list string :=
  ["title"; "unimodal_best_score"; "multimodal_best_score";
   "evaluation_metric"; "modalities"].

(** Three studies with the metrics AUC-ROC, Accuracy, AUC; scores are
    written with either decimal mark. *)
Definition three_studies : DataFrame :=
  {| columns := table_columns;
     dtypes := {[ "multimodal_best_score" := float64 ]};
     rows := [ study 0 (Str "0,72") (Num 0.81) (Str "AUC-ROC") (Str "MRI+PET");
               study 1 (Str "0.60") (Num 0.65) (Str "Accuracy") (Str "CT");
               study 2 (Str "0.7") (Num 0.75) (Str "AUC") (Str "MRI") ] |}.

(** Studies none of which reports an AUC; one lacks a modality. *)
Definition no_auc_studies : DataFrame :=
  {| columns := table_columns;
     dtypes := ∅;
     rows := [ study 0 (Str "0.72") (Str "0.81") (Str "Accuracy") (Str "MRI");
               study 1 (Str "0.60") (Str "0.65") (Str "F1") NaN ] |}.

(** Studies whose evaluation metric was left empty throughout: the
    column is read as [float64], all missing. *)
Definition no_metric_studies : DataFrame :=
  {| columns := table_columns;
     dtypes := {[ "evaluation_metric" := float64 ]};
     rows := [ study 0 (Str "0.72") (Str "0.81") NaN (Str "MRI");
               study 1 (Str "0.60") (Str "0.65") NaN (Str "CT") ] |}.

(** A store holding one DataFrame, at reference 1. *)
Definition store_of (d : DataFrame) : gmap positive DataFrame := {[ 1%positive := d ]}.

(** The call the scripts make, on that store. *)
Abbreviation run d :=
  (Preprocessing.preprocess_performance_data exact_repr 1%positive
     score_columns evaluation_column modality_column (store_of d)).

(** The returned scores, row by row: label, unimodal, multimodal. *)
Definition score_table (d : DataFrame) : list (nat * cell * cell) :=
  (fun r => (label r, cell_at r "unimodal_best_score", cell_at r "multimodal_best_score"))
    <$> rows d.

(** What the preprocessor returns for the three studies. *)
Definition score_row (l : nat) (uni multi : float) : row :=
  {| label := l;
     cells := {[ "unimodal_best_score" := Num uni;
                 "multimodal_best_score" := Num multi ]} |}.
Definition three_studies_scores : DataFrame :=
  {| columns := score_columns;
     dtypes := {[ "unimodal_best_score" := float64;
                  "multimodal_best_score" := float64 ]};
     rows := [ score_row 0 0.72 0.81; score_row 2 0.7 0.75 ] |}.
Definition three_studies_modalities : list (nat * cell) :=
  [ (0%nat, Str "MRI+PET"); (2%nat, Str "MRI") ].

(** Studies one of which gives a score with a thousands separator. *)
Definition separator_studies : DataFrame :=
  {| columns := table_columns;
     dtypes := ∅;
     rows := [ study 0 (Str "0,72") (Str "0,81") (Str "AUC") (Str "MRI");
               study 1 (Str "1,234,5") (Str "0.9") (Str "AUC") (Str "CT") ] |}.

(** Studies one of which gives a score as the text [nan]. *)
Definition nan_text_studies : DataFrame :=
  {| columns := table_columns;
     dtypes := ∅;
     rows := [ study 0 (Str "nan") (Str "0,81") (Str "AUC") (Str "MRI");
               study 1 (Str "0.60") (Str "0.65") (Str "AUC") (Str "CT") ] |}.

(** A table of sample sizes, one study per given cell. *)
Definition sample_sizes (sizes : list cell) : DataFrame :=
  {| columns := ["title"; "total_data"];
     dtypes := ∅;
     rows := imap (fun i c => {| label := i;
                                 cells := {[ "title" := Str "a study";
                                             "total_data" := c ]} |}) sizes |}.

(** A reading of the clock, and the same minute thirty seconds on. *)
Definition noon : datetime :=
  {| year := 2024; month := 3; day := 7; hour := 12; minute := 5; second := 9 |}.
Definition noon_later : datetime :=
  {| year := 2024; month := 3; day := 7; hour := 12; minute := 5; second := 39 |}.

(** The modalities of five studies. *)
Definition five_modalities : list string := ["MRI"; "CT"; "MRI"; "MRI+PET"; "CT"].

End Examples.

(* ================================================================== *)
(** * Properties *)

Import PyStr PyFloat Numpy Boxplot Pandas Utils Preprocessing Visualization.

(** ** Strings *)

Lemma append_cons (c : ascii) (s t : string) : String c s +:+ t = String c (s +:+ t).
Proof. reflexivity. Qed.

Lemma append_nil_l (s : string) : "" +:+ s = s.
Proof. reflexivity. Qed.

Lemma append_nil_r (s : string) : s +:+ "" = s.
Proof. induction s as [|c s IH]; [done|by rewrite append_cons, IH]. Qed.

Lemma append_assoc (a b c : string) : (a +:+ b) +:+ c = a +:+ (b +:+ c).
Proof. induction a as [|x a IH]; [done|by rewrite !append_cons, IH]. Qed.

Lemma prefix_append (a b : string) : String.prefix a (a +:+ b) = true.
Proof.
  induction a as [|c a IH].
  - rewrite append_nil_l. by destruct b.
  - rewrite append_cons. simpl. rewrite IH. by destruct (Ascii.ascii_dec c c).
Qed.

Lemma str_contains_unfold (pat s : string) :
  str_contains pat s
  = String.prefix pat s
    || match s with
       | EmptyString => false
       | String _ s' => str_contains pat s'
       end.
Proof. by destruct s. Qed.

Lemma str_contains_prefix (pat rest : string) : str_contains pat (pat +:+ rest) = true.
Proof. by rewrite str_contains_unfold, prefix_append. Qed.

Lemma str_contains_append_r (pat a b : string) :
  str_contains pat b = true -> str_contains pat (a +:+ b) = true.
Proof.
  intros Hb. induction a as [|c a IH]; [done|].
  rewrite append_cons, str_contains_unfold, IH. apply orb_true_r.
Qed.

Lemma prefix_append_l (pat a b : string) :
  String.prefix pat a = true -> String.prefix pat (a +:+ b) = true.
Proof.
  revert a. induction pat as [|p pat IH]; intros a.
  - intros _. by destruct (a +:+ b).
  - destruct a as [|c a]; [done|]. rewrite append_cons. simpl.
    destruct (Ascii.ascii_dec p c); [apply IH|done].
Qed.

Lemma str_contains_append_l (pat a b : string) :
  str_contains pat a = true -> str_contains pat (a +:+ b) = true.
Proof.
  induction a as [|c a IH].
  - rewrite !str_contains_unfold, orb_false_r. intros Hp.
    by rewrite (prefix_append_l _ _ b Hp).
  - rewrite str_contains_unfold. intros [Hp|Hr]%orb_true_iff.
    + by rewrite str_contains_unfold, (prefix_append_l _ _ b Hp).
    + rewrite append_cons, str_contains_unfold, (IH Hr). apply orb_true_r.
Qed.

Lemma str_contains_join (sep x : string) (l : list string) :
  x ∈ l -> str_contains x (join sep l) = true.
Proof.
  induction l as [|y l IH]; [by intros ?%elem_of_nil|].
  intros [->|Hin]%elem_of_cons.
  - destruct l as [|z l].
    + pose proof (str_contains_prefix y "") as Hy.
      by rewrite append_nil_r in Hy.
    + change (join sep (y :: z :: l)) with (y +:+ sep +:+ join sep (z :: l)).
      apply str_contains_prefix.
  - destruct l as [|z l]; [by apply elem_of_nil in Hin|].
    change (join sep (y :: z :: l)) with (y +:+ sep +:+ join sep (z :: l)).
    do 2 apply str_contains_append_r. by apply IH.
Qed.

(** ** Column validation *)

(** C7. [validate_dataframe] raises exactly when some required column is
    absent; the [KeyError] message then lists every absent required
    column (each occurs in the message text), and no column that is
    present; a DataFrame with all required columns passes whatever other
    columns it has. *)
Theorem validate_dataframe_names_missing (df : DataFrame) (required_columns : list string) :
  exists missing : list string,
    (forall c, c ∈ missing <-> c ∈ required_columns /\ c ∉ columns df)
    /\ (missing = [] <-> forall c, c ∈ required_columns -> c ∈ columns df)
    /\ validate_dataframe df required_columns
        = match missing with
          | [] => inr tt
          | _ => inl (KeyError (PStr ("Missing required columns: " +:+ join ", " missing)))
          end
    /\ (forall c, c ∈ missing ->
          str_contains c ("Missing required columns: " +:+ join ", " missing) = true)
    /\ (forall extra rs,
          validate_dataframe
            {| columns := required_columns ++ extra; dtypes := dtypes df; rows := rs |}
            required_columns = inr tt).
Proof.
  exists (filter (fun col => col ∉ columns df) required_columns).
  split; [|split; [|split; [|split]]].
  - intros c. rewrite list_elem_of_filter. tauto.
  - split.
    + intros Hnil c Hc. destruct (decide (c ∈ columns df)) as [|Hn]; [done|].
      assert (c ∈ filter (fun col => col ∉ columns df) required_columns) as Hin
        by (apply list_elem_of_filter; done).
      rewrite Hnil in Hin. by apply elem_of_nil in Hin.
    + intros Hall. apply elem_of_nil_inv. intros c [Hn Hc]%list_elem_of_filter.
      by apply Hn, Hall.
  - unfold validate_dataframe.
    by destruct (filter _ required_columns).
  - intros c Hc. apply str_contains_append_r. by apply str_contains_join.
  - intros extra rs. unfold validate_dataframe; simpl.
    replace (filter _ required_columns) with (@nil string); [done|].
    symmetry. apply elem_of_nil_inv. intros c [Hn Hc]%list_elem_of_filter.
    apply Hn. apply elem_of_app. by left.
Qed.

(** ** Box layout *)

(** C8. [create_box] returns exactly five anchor points, in the order
    center, top, bottom, right, left: center [(x + w/2, y + h/2)], top
    edge [(x + w/2, y + h)], bottom edge [(x + w/2, y)], right edge
    [(x + w, y + h/2)], left edge [(x, y + h/2)].  The points depend on
    [x], [y], [w], [h] only: not on what the Axes already holds, nor on
    the text or the font size; the call itself only appends the patch
    and the centered text to the Axes.  In exact arithmetic the center
    is the midpoint of the left and right anchors and of the bottom and
    top anchors, which lie [w] and [h] apart. *)
Theorem create_box_anchor_points :
  (forall (R : Type) (A : Arith R) (ax : Axes R) (text : string)
          (x y w h : R) (fontsize : Z),
      snd (create_box ax text x y w h fontsize)
      = ((x + w / n_of_int 2, y + h / n_of_int 2),
         (x + w / n_of_int 2, y + h),
         (x + w / n_of_int 2, y),
         (x + w, y + h / n_of_int 2),
         (x, y + h / n_of_int 2))%num
      /\ fst (create_box ax text x y w h fontsize)
         = ax ++ [FancyBboxPatch (x, y) w h;
                  Text (x + w / n_of_int 2)%num (y + h / n_of_int 2)%num text fontsize]
      /\ forall (ax' : Axes R) (text' : string) (fontsize' : Z),
           snd (create_box ax' text' x y w h fontsize')
           = snd (create_box ax text x y w h fontsize))
  /\ (forall (ax : Axes Q) (text : string) (x y w h : Q) (fontsize : Z),
        match snd (create_box ax text x y w h fontsize) with
        | (center, top_center, bottom_center, right_center, left_center) =>
            (fst center == (fst left_center + fst right_center) / 2
             /\ snd center == (snd bottom_center + snd top_center) / 2
             /\ fst right_center - fst left_center == w
             /\ snd top_center - snd bottom_center == h
             /\ fst top_center == fst center /\ fst bottom_center == fst center
             /\ snd left_center == snd center /\ snd right_center == snd center)%Q
        end).
Proof.
  split.
  - intros R A ax text x y w h fontsize. unfold create_box; simpl.
    split; [reflexivity|]. split; [|reflexivity].
    by rewrite <- app_assoc.
  - intros ax text x y w h fontsize. unfold create_box; simpl.
    change (inject_Z 2) with 2%Q.
    repeat split; try reflexivity; field.
Qed.

(** ** Paired differences: median and threshold counts *)

(** C5, as the specification states it, fails: of the differences
    0.05, 0.02, 0.15, -0.01, 0.12 only -0.01 is below 0.01, so the count
    the code reports is 1, not 2. *)
Lemma threshold_counts_example_is_one_not_two :
  negative_delta_count Examples.differences = 1%nat
  /\ negative_delta_count Examples.differences <> 2%nat
  /\ negative_delta_count Examples.differences_exact = 1%nat.
Proof. split; [|split]; vm_compute; congruence. Qed.

(** C5, amended.  [create_performance_plot] reports the number of rows,
    the number of rows whose difference comparison minus baseline is
    below 0.01, and the number whose difference is above 0.10.  For the
    differences 0.05, 0.02, 0.15, -0.01, 0.12 the counts are 1 (only
    -0.01 is below 0.01) and 2 (0.15 and 0.12), out of 5; in exact
    arithmetic no difference is counted twice, so the two counts
    together never exceed the number of differences. *)
Theorem threshold_counts :
  (forall (R : Type) (A : Arith R) (a b : list R),
      negative_delta (create_performance_plot a b)
      = length (filter (fun d => n_ltb d (n_lit 0.01) = true) (zip_with n_sub b a))
      /\ large_improvement (create_performance_plot a b)
         = length (filter (fun d => n_ltb (n_lit 0.10) d = true) (zip_with n_sub b a))
      /\ total_studies (create_performance_plot a b) = length a)
  /\ (negative_delta_count Examples.differences = 1%nat
      /\ large_improvement_count Examples.differences = 2%nat
      /\ deltas Examples.zeros Examples.differences = Examples.differences
      /\ negative_delta (create_performance_plot Examples.zeros Examples.differences) = 1%nat
      /\ large_improvement (create_performance_plot Examples.zeros Examples.differences) = 2%nat
      /\ total_studies (create_performance_plot Examples.zeros Examples.differences) = 5%nat)
  /\ (forall ds : list Q,
        (negative_delta_count ds + large_improvement_count ds <= length ds)%nat).
Proof.
  split; [|split].
  - intros R A a b. repeat split.
  - repeat split; vm_compute; reflexivity.
  - intros ds. unfold negative_delta_count, large_improvement_count.
    induction ds as [|d ds IH]; [done|].
    rewrite !filter_cons. simpl length.
    assert (~ (n_ltb d (n_lit 0.01) = true /\ n_ltb (n_lit 0.10) d = true)) as Hex.
    { simpl. intros [H1 H2].
      apply negb_true_iff in H1, H2.
      apply not_true_iff_false in H1, H2.
      rewrite Qle_bool_iff in H1, H2.
      apply Qnot_le_lt in H1, H2.
      assert (0.10 < 0.01)%Q as Habs by (eapply Qlt_trans; eassumption).
      revert Habs. by vm_compute. }
    repeat case_decide; simpl in *; try lia. tauto.
Qed.

(** ** Reading decimal numerals *)

Lemma ascii_eqb_code (c d : ascii) (n : nat) :
  Ascii.nat_of_ascii d = n -> Ascii.nat_of_ascii c <> n -> Ascii.eqb c d = false.
Proof. intros <- Hne. apply Ascii.eqb_neq. congruence. Qed.

Lemma is_digit_range (c : ascii) :
  is_digit c = true <-> (48 <= Ascii.nat_of_ascii c <= 57)%nat.
Proof.
  unfold is_digit. rewrite andb_true_iff, !Nat.leb_le. tauto.
Qed.

Lemma digit_plain (c : ascii) : is_digit c = true -> plain c = true.
Proof.
  intros Hd%is_digit_range. unfold plain, is_space.
  rewrite (ascii_eqb_code c underscore 95), (ascii_eqb_code c comma 44) by (done || lia).
  destruct (Nat.eqb_spec (Ascii.nat_of_ascii c) 32); [lia|].
  destruct (Nat.leb_spec 9 (Ascii.nat_of_ascii c)); [|done].
  destruct (Nat.leb_spec (Ascii.nat_of_ascii c) 13); [lia|done].
Qed.

Lemma all_plain_app (a b : string) : all_plain (a +:+ b) = all_plain a && all_plain b.
Proof.
  induction a as [|c a IH]; [done|].
  rewrite append_cons. simpl. by rewrite IH, andb_assoc.
Qed.

Lemma all_digits_plain (s : string) : all_digits s = true -> all_plain s = true.
Proof.
  induction s as [|c s IH]; [done|]. simpl.
  intros [Hc Hs]%andb_true_iff. by rewrite (digit_plain c Hc), IH.
Qed.

Lemma numeral_period_plain (sg : sign) (ip fp : string) :
  all_digits ip = true -> all_digits fp = true ->
  all_plain (numeral period sg ip fp) = true.
Proof.
  intros Hi Hf. unfold numeral.
  rewrite !all_plain_app. simpl all_plain at 3.
  rewrite (all_digits_plain ip Hi), (all_digits_plain fp Hf).
  by destruct sg.
Qed.

Lemma rstrip_plain (s : string) : all_plain s = true -> rstrip s = s.
Proof.
  induction s as [|c s IH]; [done|]. simpl.
  intros [Hc Hs]%andb_true_iff. rewrite (IH Hs).
  unfold plain in Hc. destruct (is_space c); [done|]. by destruct s.
Qed.

Lemma strip_plain (s : string) : all_plain s = true -> strip s = s.
Proof.
  intros Hs. unfold strip.
  assert (lstrip s = s) as ->; [|by apply rstrip_plain].
  destruct s as [|c s]; [done|]. simpl in *.
  apply andb_true_iff in Hs as [Hc _]. unfold plain in Hc.
  by destruct (is_space c).
Qed.

Lemma strip_underscores_plain (s : string) (prev : option ascii) :
  all_plain s = true ->
  match prev with Some p => Ascii.eqb p underscore = false | None => True end ->
  strip_underscores prev s = Some s.
Proof.
  revert prev. induction s as [|c s IH]; intros prev Hs Hp.
  - simpl. destruct prev as [p|]; [by rewrite Hp|done].
  - simpl in *. apply andb_true_iff in Hs as [Hc Hs].
    assert (Ascii.eqb c underscore = false) as Hcu.
    { unfold plain in Hc. by destruct (Ascii.eqb c underscore), (is_space c). }
    rewrite Hcu.
    assert ((match prev with Some p => Ascii.eqb p underscore | None => false end) = false)
      as -> by (destruct prev as [p|]; done).
    simpl. by rewrite (IH (Some c) Hs Hcu).
Qed.

Lemma str_replace_app (old new : ascii) (a b : string) :
  str_replace old new (a +:+ b) = str_replace old new a +:+ str_replace old new b.
Proof.
  induction a as [|c a IH]; [done|].
  rewrite append_cons. simpl. by rewrite IH.
Qed.

Lemma str_replace_plain (s : string) : all_plain s = true -> str_replace comma period s = s.
Proof.
  induction s as [|c s IH]; [done|]. simpl.
  intros [Hc Hs]%andb_true_iff. rewrite (IH Hs).
  unfold plain in Hc. by destruct (Ascii.eqb c comma); [rewrite andb_false_r in Hc|].
Qed.

Lemma str_replace_idempotent (s : string) :
  str_replace comma period (str_replace comma period s) = str_replace comma period s.
Proof.
  induction s as [|c s IH]; [done|]. simpl. rewrite IH.
  by destruct (Ascii.eqb c comma) eqn:E; [|rewrite E].
Qed.

Lemma numeral_comma_to_period (sg : sign) (ip fp : string) :
  all_digits ip = true -> all_digits fp = true ->
  str_replace comma period (numeral comma sg ip fp) = numeral period sg ip fp.
Proof.
  intros Hi Hf. unfold numeral. rewrite !str_replace_app. simpl str_replace at 3.
  rewrite (str_replace_plain ip), (str_replace_plain fp) by by apply all_digits_plain.
  by destruct sg.
Qed.

Lemma span_digits_app (a b : string) :
  all_digits a = true ->
  match b with String c _ => is_digit c = false | EmptyString => True end ->
  span_digits (a +:+ b) = (a, b).
Proof.
  intros Ha Hb. induction a as [|c a IH].
  - rewrite append_nil_l. destruct b as [|c b]; [done|]. simpl. by rewrite Hb.
  - simpl in Ha. apply andb_true_iff in Ha as [Hc Ha].
    rewrite append_cons. simpl. by rewrite Hc, (IH Ha).
Qed.

Lemma take_sign_numeral (sg : sign) (rest : string) :
  match rest with
  | String c _ => Ascii.eqb c minus_sign = false /\ Ascii.eqb c plus_sign = false
  | EmptyString => True
  end ->
  take_sign (sign_text sg +:+ rest) = (is_minus sg, rest).
Proof.
  intros Hr. destruct sg; [|done|done].
  rewrite append_nil_l. destruct rest as [|c rest]; [done|].
  simpl. by destruct Hr as [-> ->].
Qed.

(** [float] reads a period-marked numeral as the nearest binary64 number
    to its decimal value. *)
Lemma python_float_numeral (sg : sign) (ip fp : string) :
  all_digits ip = true -> all_digits fp = true -> ip +:+ fp <> "" ->
  python_float (numeral period sg ip fp)
  = Some (of_decimal (is_minus sg) (N_of_digits (ip +:+ fp))
            (- Z.of_nat (String.length fp))).
Proof.
  intros Hi Hf Hne. unfold python_float.
  rewrite strip_plain, strip_underscores_plain
    by (try apply numeral_period_plain; done).
  unfold float_from_string_inner, strtod, numeral.
  rewrite take_sign_numeral.
  2:{ destruct ip as [|c ip]; [done|]. rewrite append_cons.
      simpl in Hi. apply andb_true_iff in Hi as [Hc%is_digit_range _].
      split; [apply (ascii_eqb_code _ _ 45)|apply (ascii_eqb_code _ _ 43)]; done || lia. }
  rewrite span_digits_app by done.
  change (Ascii.eqb period period) with true. cbv iota.
  rewrite <- (append_nil_r fp) at 1. rewrite span_digits_app by done.
  destruct (ip +:+ fp) as [|c ds] eqn:E; [done|].
  unfold take_exponent. rewrite Z.sub_0_l. reflexivity.
Qed.

(** C1. The comma-to-period conversion of a score cell is idempotent
    and total on decimal numerals: a numeral written with a comma and
    the same numeral written with a period are both converted, to the
    same float, which is what [float] reads from the period form (the
    binary64 number nearest to the decimal value); replacing commas
    twice is the same as replacing them once, on every string, and a
    cell whose commas are already replaced converts as the original cell
    does.  ["0,87"] and ["0.87"] both give [0.87]. *)
Theorem comma_decimal_normalization
    (float_repr : float -> string) (sg : sign) (ip fp : string) :
  all_digits ip = true -> all_digits fp = true -> ip +:+ fp <> "" ->
  (str_replace comma period (numeral comma sg ip fp) = numeral period sg ip fp
   /\ str_replace comma period (numeral period sg ip fp) = numeral period sg ip fp)
  /\ (exists x : float,
        python_float (numeral period sg ip fp) = Some x
        /\ x = of_decimal (is_minus sg) (N_of_digits (ip +:+ fp))
                 (- Z.of_nat (String.length fp))
        /\ score_to_float float_repr (Str (numeral comma sg ip fp)) = inr (Num x)
        /\ score_to_float float_repr (Str (numeral period sg ip fp)) = inr (Num x))
  /\ (forall s : string,
        str_replace comma period (str_replace comma period s)
        = str_replace comma period s)
  /\ (forall s : string,
        score_to_float float_repr (Str (str_replace comma period s))
        = score_to_float float_repr (Str s))
  /\ (score_to_float float_repr (Str "0,87") = inr (Num 0.87%float)
      /\ score_to_float float_repr (Str "0.87") = inr (Num 0.87%float)).
Proof.
  intros Hi Hf Hne.
  assert (str_replace comma period (numeral period sg ip fp) = numeral period sg ip fp)
    as Hperiod by (apply str_replace_plain, numeral_period_plain; done).
  split; [|split; [|split; [|split]]].
  - split; [by apply numeral_comma_to_period|done].
  - eexists. split; [by apply python_float_numeral|]. split; [done|].
    unfold score_to_float, cell_astype_float, astype_str.
    rewrite numeral_comma_to_period, Hperiod by done.
    by rewrite python_float_numeral.
  - apply str_replace_idempotent.
  - intros s. unfold score_to_float, astype_str.
    by rewrite str_replace_idempotent.
  - split; vm_compute; reflexivity.
Qed.

Lemma comma_decimal_normalization_witness :
  (str_replace comma period (numeral comma NoSign "0" "87") = numeral period NoSign "0" "87"
   /\ str_replace comma period (numeral period NoSign "0" "87") = numeral period NoSign "0" "87")
  /\ (exists x : float,
        python_float (numeral period NoSign "0" "87") = Some x
        /\ x = of_decimal (is_minus NoSign) (N_of_digits ("0" +:+ "87"))
                 (- Z.of_nat (String.length "87"))
        /\ score_to_float exact_repr (Str (numeral comma NoSign "0" "87")) = inr (Num x)
        /\ score_to_float exact_repr (Str (numeral period NoSign "0" "87")) = inr (Num x))
  /\ (forall s : string,
        str_replace comma period (str_replace comma period s)
        = str_replace comma period s)
  /\ (forall s : string,
        score_to_float exact_repr (Str (str_replace comma period s))
        = score_to_float exact_repr (Str s))
  /\ (score_to_float exact_repr (Str "0,87") = inr (Num 0.87%float)
      /\ score_to_float exact_repr (Str "0.87") = inr (Num 0.87%float)).
Proof.
  apply (comma_decimal_normalization exact_repr NoSign "0" "87");
    [reflexivity|reflexivity|discriminate].
Defined.

(** ** Sorting and interpolation in exact arithmetic *)

Section ExactOrder.
Local Open Scope Q_scope.

Lemma Q_sort_lt (a b : Q) : sort_lt a b = negb (Qle_bool b a).
Proof. unfold sort_lt; simpl. apply orb_false_r. Qed.

Lemma Q_sort_lt_true (a b : Q) : sort_lt a b = true -> a <= b.
Proof.
  rewrite Q_sort_lt. intros Hn%negb_true_iff.
  apply Qlt_le_weak, Qnot_le_lt. intros Hle%Qle_bool_iff. congruence.
Qed.

Lemma Q_sort_lt_false (a b : Q) : sort_lt a b = false -> b <= a.
Proof.
  rewrite Q_sort_lt. intros Hn%negb_false_iff. by apply Qle_bool_iff.
Qed.

Lemma insert_sorted_perm (x : Q) (l : list Q) : insert_sorted x l ≡ₚ x :: l.
Proof.
  induction l as [|y l IH]; [done|]. simpl.
  destruct (sort_lt y x); [|done].
  rewrite IH. apply Permutation_swap.
Qed.

Lemma np_sort_perm (l : list Q) : np_sort l ≡ₚ l.
Proof.
  induction l as [|x l IH]; [done|].
  unfold np_sort in *. simpl. by rewrite insert_sorted_perm, IH.
Qed.

Lemma insert_sorted_sorted (x : Q) (l : list Q) :
  StronglySorted Qle l -> StronglySorted Qle (insert_sorted x l).
Proof.
  induction l as [|y l IH]; intros Hs.
  - repeat constructor.
  - apply StronglySorted_cons in Hs as [Hy Hs]. simpl.
    destruct (sort_lt y x) eqn:E.
    + apply StronglySorted_cons. split; [|by apply IH].
      rewrite insert_sorted_perm. constructor; [by apply Q_sort_lt_true|done].
    + apply Q_sort_lt_false in E.
      apply StronglySorted_cons. split.
      * constructor; [done|]. eapply Forall_impl; [exact Hy|].
        intros z Hz. by apply Qle_trans with y.
      * by apply StronglySorted_cons.
Qed.

Lemma np_sort_sorted (l : list Q) : StronglySorted Qle (np_sort l).
Proof.
  induction l as [|x l IH]; [constructor|].
  by apply insert_sorted_sorted.
Qed.

Lemma sorted_lookup (s : list Q) (i j : nat) (a b : Q) :
  StronglySorted Qle s -> (i <= j)%nat ->
  s !! i = Some a -> s !! j = Some b -> a <= b.
Proof.
  intros Hs. revert i j. induction Hs as [|x s Hs IH Hx]; intros i j Hij Hi Hj.
  - by rewrite lookup_nil in Hi.
  - destruct i as [|i], j as [|j]; simpl in *; simplify_eq.
    + apply Qle_refl.
    + rewrite Forall_forall in Hx. apply Hx.
      by eapply list_elem_of_lookup_2.
    + lia.
    + apply (IH i j); [lia|done..].
Qed.

Lemma clamp_nth_lookup (s : list Q) (i : nat) :
  s <> [] -> s !! Nat.min i (length s - 1) = Some (clamp_nth s i).
Proof.
  intros Hne. unfold clamp_nth.
  destruct (nth_lookup_or_length s (Nat.min i (length s - 1)) 0) as [->|Hlen]; [done|].
  destruct s; [done|]. simpl in Hlen. lia.
Qed.

Lemma clamp_nth_in_range (s : list Q) (i : nat) :
  (i < length s)%nat -> s !! i = Some (clamp_nth s i).
Proof.
  intros Hi. rewrite <- (clamp_nth_lookup s i) by (intros ->; simpl in Hi; lia).
  f_equal. lia.
Qed.

Lemma clamp_nth_elem (s : list Q) (i : nat) : s <> [] -> clamp_nth s i ∈ s.
Proof. intros Hne. eapply list_elem_of_lookup_2, clamp_nth_lookup, Hne. Qed.

Lemma clamp_nth_mono (s : list Q) (i j : nat) :
  StronglySorted Qle s -> (i <= j)%nat -> clamp_nth s i <= clamp_nth s j.
Proof.
  intros Hs Hij. destruct (decide (s = [])) as [->|Hne].
  - unfold clamp_nth. simpl. destruct (Nat.min i 0), (Nat.min j 0); apply Qle_refl.
  - eapply (sorted_lookup s); [done| |by apply clamp_nth_lookup..]. lia.
Qed.

Lemma interp_between (s : list Q) (v : Q) :
  StronglySorted Qle s ->
  clamp_nth s (Z.to_nat (Qfloor v)) <= interp s v
  /\ interp s v <= clamp_nth s (S (Z.to_nat (Qfloor v))).
Proof.
  intros Hs. unfold interp.
  pose proof (clamp_nth_mono s (Z.to_nat (Qfloor v)) (S (Z.to_nat (Qfloor v))) Hs) as Hab.
  specialize (Hab ltac:(lia)).
  pose proof (Qfloor_le v) as Hlo. pose proof (Qlt_floor v) as Hhi.
  rewrite inject_Z_plus in Hhi. change (inject_Z 1) with 1 in Hhi.
  set (a := clamp_nth s (Z.to_nat (Qfloor v))) in *.
  set (b := clamp_nth s (S (Z.to_nat (Qfloor v)))) in *.
  set (g := v - inject_Z (Qfloor v)).
  assert (0 <= g) as Hg0 by (unfold g; lra).
  assert (g <= 1) as Hg1 by (unfold g; lra).
  assert (0 <= (b - a) * g) as H1 by (apply Qmult_le_0_compat; lra).
  assert (0 <= (b - a) * (1 - g)) as H2 by (apply Qmult_le_0_compat; lra).
  split; lra.
Qed.

Lemma interp_mono (s : list Q) (u v : Q) :
  StronglySorted Qle s -> 0 <= u -> u <= v -> interp s u <= interp s v.
Proof.
  intros Hs Hu Huv.
  assert (Qfloor u <= Qfloor v)%Z as Hfl by by apply Qfloor_resp_le.
  assert (0 <= Qfloor u)%Z as Hfu.
  { change 0%Z with (Qfloor 0). by apply Qfloor_resp_le. }
  destruct (decide (Qfloor u = Qfloor v)) as [Heq|Hne].
  - unfold interp. rewrite <- Heq.
    pose proof (clamp_nth_mono s (Z.to_nat (Qfloor u)) (S (Z.to_nat (Qfloor u))) Hs) as Hab.
    specialize (Hab ltac:(lia)).
    set (a := clamp_nth s (Z.to_nat (Qfloor u))) in *.
    set (b := clamp_nth s (S (Z.to_nat (Qfloor u)))) in *.
    assert (0 <= (b - a) * (v - u)) as H1 by (apply Qmult_le_0_compat; lra).
    lra.
  - destruct (interp_between s u Hs) as [_ Hu2].
    destruct (interp_between s v Hs) as [Hv1 _].
    eapply Qle_trans; [exact Hu2|]. eapply Qle_trans; [|exact Hv1].
    apply clamp_nth_mono; [done|]. lia.
Qed.

Lemma interp_integer (s : list Q) (k : Z) :
  interp s (inject_Z k) == clamp_nth s (Z.to_nat k).
Proof.
  unfold interp. rewrite Qfloor_Z. ring.
Qed.

End ExactOrder.

Section ExactStatistics.
Local Open Scope Q_scope.

Lemma Qfloor_unique (x : Q) (m : Z) :
  inject_Z m <= x -> x < inject_Z (m + 1) -> Qfloor x = m.
Proof.
  intros Hlo Hhi.
  pose proof (Qfloor_le x) as H1. pose proof (Qlt_floor x) as H2.
  assert (inject_Z m < inject_Z (Qfloor x + 1)) as H3 by lra.
  assert (inject_Z (Qfloor x) < inject_Z (m + 1)) as H4 by lra.
  rewrite <- Zlt_Qlt in H3, H4. lia.
Qed.

Lemma interp_proper (s : list Q) (u v : Q) : u == v -> interp s u == interp s v.
Proof.
  intros Huv. unfold interp. rewrite (Qfloor_comp _ _ Huv). by rewrite Huv.
Qed.

Lemma np_sort_length (l : list Q) : length (np_sort l) = length l.
Proof. by rewrite np_sort_perm. Qed.

Lemma take1_drop (s : list Q) (i : nat) (a : Q) :
  s !! i = Some a -> firstn 1 (skipn i s) = [a].
Proof. intros Hi. by rewrite (drop_S s a i Hi). Qed.

Lemma take2_drop (s : list Q) (i : nat) (a b : Q) :
  s !! i = Some a -> s !! S i = Some b -> firstn 2 (skipn i s) = [a; b].
Proof. intros Hi Hj. by rewrite (drop_S s a i Hi), (drop_S s b (S i) Hj). Qed.

Lemma np_median_exact (data : list Q) :
  data <> [] ->
  np_median data
  == interp (np_sort data) (inject_Z (Z.of_nat (length data) - 1) / 2).
Proof.
  intros Hne. unfold np_median.
  pose proof (np_sort_length data) as Hlen.
  pose proof (np_sort_sorted data) as Hs.
  set (s := np_sort data) in *.
  assert (length data <> 0%nat) as Hn by (by destruct data).
  assert (s <> []) as Hsne by (intros E; rewrite E in Hlen; simpl in Hlen; lia).
  destruct (last s) as [top|] eqn:Elast; [|by apply last_is_Some in Hsne as [? ?]; congruence].
  simpl n_isnan. cbv iota.
  rewrite Hlen. set (n := length data) in *.
  destruct (Nat.eqb_spec (n mod 2) 1) as [Hodd|Heven].
  - assert (n = (2 * (n / 2) + 1)%nat) as Hk.
    { pose proof (Nat.div_mod_eq n 2). lia. }
    set (k := (n / 2)%nat) in *.
    rewrite (take1_drop s k (clamp_nth s k)) by (apply clamp_nth_in_range; lia).
    unfold np_mean, np_sum. simpl.
    rewrite (interp_proper s _ (inject_Z (Z.of_nat k))).
    + rewrite interp_integer, Nat2Z.id. field.
    + rewrite Hk. replace (Z.of_nat (2 * k + 1) - 1)%Z with (2 * Z.of_nat k)%Z by lia.
      rewrite inject_Z_mult. field.
  - assert (n = (2 * (n / 2))%nat) as Hk.
    { pose proof (Nat.div_mod_eq n 2). pose proof (Nat.mod_upper_bound n 2). lia. }
    set (k := (n / 2)%nat) in *.
    assert (1 <= k)%nat as Hk1 by lia.
    rewrite (take2_drop s (k - 1) (clamp_nth s (k - 1)) (clamp_nth s k)).
    2:{ apply clamp_nth_in_range; lia. }
    2:{ replace (S (k - 1)) with k by lia. apply clamp_nth_in_range; lia. }
    unfold np_mean, np_sum. simpl.
    assert (inject_Z (Z.of_nat n - 1) / 2 == inject_Z (Z.of_nat (k - 1)) + (1 # 2)) as Hv.
    { replace (Z.of_nat n - 1)%Z with (2 * Z.of_nat (k - 1) + 1)%Z by lia.
      rewrite inject_Z_plus, inject_Z_mult. field. }
    assert (Qfloor (inject_Z (Z.of_nat n - 1) / 2) = Z.of_nat (k - 1)) as Hfl.
    { apply Qfloor_unique; rewrite Hv; [lra|].
      rewrite inject_Z_plus. change (inject_Z 1) with 1. lra. }
    unfold interp. rewrite Hfl, Nat2Z.id, Hv.
    replace (S (k - 1)) with k by lia.
    field.
Qed.

Lemma np_percentile_exact (data : list Q) (q : Z) :
  data <> [] -> (0 <= q < 100)%Z ->
  exists p : Q,
    np_percentile data q = Some p
    /\ p == interp (np_sort data)
              (inject_Z (Z.of_nat (length data) - 1) * (inject_Z q / 100)).
Proof.
  intros Hne Hq. unfold np_percentile.
  pose proof (np_sort_length data) as Hlen.
  set (s := np_sort data) in *.
  assert (length data <> 0%nat) as Hn by (by destruct data).
  assert (s <> []) as Hsne by (intros E; rewrite E in Hlen; simpl in Hlen; lia).
  destruct (last s) as [top|] eqn:Elast; [|by apply last_is_Some in Hsne as [? ?]; congruence].
  cbn [n_of_int n_div n_mul n_sub n_leb n_ltb n_floor n_isnan Q_arith].
  rewrite Hlen. set (n := length data) in *.
  change (inject_Z 100) with 100. change (inject_Z 0) with 0.
  set (v := inject_Z (Z.of_nat n - 1) * (inject_Z q / 100)).
  assert (0 <= inject_Z q /\ inject_Z q < 100) as [Hq0 Hq1].
  { split; [change 0 with (inject_Z 0); rewrite <- Zle_Qle; lia|].
    change 100 with (inject_Z 100). rewrite <- Zlt_Qlt. lia. }
  assert (0 <= inject_Z (Z.of_nat n - 1)) as Hn0.
  { change 0 with (inject_Z 0). rewrite <- Zle_Qle. lia. }
  assert (0 <= inject_Z q / 100 /\ inject_Z q / 100 < 1) as [Hr0 Hr1].
  { split.
    - apply Qle_shift_div_l; lra.
    - apply Qlt_shift_div_r; lra. }
  assert (0 <= v) as Hv0 by (apply Qmult_le_0_compat; done).
  assert (negb (Qle_bool 0 v) = false) as ->.
  { apply negb_false_iff, Qle_bool_iff, Hv0. }
  destruct (Qle_bool (inject_Z (Z.of_nat n - 1)) v) eqn:Eabove.
  - (* the position is the last index: one element *)
    apply Qle_bool_iff in Eabove.
    assert (n = 1%nat) as Hn1.
    { destruct (decide (n = 1%nat)) as [|Hn2]; [done|exfalso].
      assert (1 <= inject_Z (Z.of_nat n - 1)) as Hge.
      { change 1 with (inject_Z 1). rewrite <- Zle_Qle. lia. }
      assert (0 < inject_Z (Z.of_nat n - 1) * (1 - inject_Z q / 100)) as Hpos
        by (apply Qmult_lt_0_compat; lra).
      unfold v in Eabove. lra. }
    unfold py_index. simpl (_ <? 0)%Z. cbv iota.
    rewrite Hlen, Hn1. simpl Z.to_nat.
    assert (exists x, s = [x]) as [x Hsx].
    { destruct s as [|x [|y s']]; simpl in Hlen; [lia| |lia]. by exists x. }
    rewrite Hsx. simpl. eexists. split; [reflexivity|].
    unfold lerp, interp, clamp_nth.
    cbn [n_of_int n_div n_mul n_sub n_add n_leb n_ltb n_lit Q_arith].
    simpl length. rewrite !Nat.min_0_r. simpl nth.
    generalize (v - inject_Z (-1)) (v - inject_Z (Qfloor v)). intros g g'.
    destruct (Qle_bool _ _); ring.
  - (* the position lies between two entries *)
    assert (~ inject_Z (Z.of_nat n - 1) <= v) as Hbelow.
    { intros Hle%Qle_bool_iff. congruence. }
    apply Qnot_le_lt in Hbelow.
    pose proof (Qfloor_le v) as Hf1.
    assert (0 <= Qfloor v)%Z as Hf0.
    { change 0%Z with (Qfloor 0). by apply Qfloor_resp_le. }
    assert (Qfloor v < Z.of_nat n - 1)%Z as Hf2.
    { rewrite Zlt_Qlt. lra. }
    unfold py_index.
    destruct (Z.ltb_spec (Qfloor v) 0) as [|_]; [lia|].
    destruct (Z.ltb_spec (Qfloor v + 1) 0) as [|_]; [lia|].
    rewrite (clamp_nth_in_range s (Z.to_nat (Qfloor v))) by lia.
    rewrite (clamp_nth_in_range s (Z.to_nat (Qfloor v + 1))) by lia.
    eexists. split; [reflexivity|].
    unfold lerp, interp.
    cbn [n_of_int n_div n_mul n_sub n_add n_leb n_ltb n_lit Q_arith].
    replace (Z.to_nat (Qfloor v + 1)) with (S (Z.to_nat (Qfloor v))) by lia.
    change (inject_Z 1) with 1.
    generalize (v - inject_Z (Qfloor v)) (clamp_nth s (Z.to_nat (Qfloor v)))
      (clamp_nth s (S (Z.to_nat (Qfloor v)))). intros g a b.
    destruct (Qle_bool _ g); ring.
Qed.

Lemma np_min_le (x : Q) (l : list Q) :
  exists m, np_min (x :: l) = Some m /\ forall y, y ∈ x :: l -> m <= y.
Proof.
  unfold np_min. eexists. split; [reflexivity|].
  assert (forall a, foldl np_minimum a l <= a
                    /\ forall y, y ∈ l -> foldl np_minimum a l <= y) as Hfold.
  { induction l as [|z l IH]; intros a.
    - split; [apply Qle_refl|]. by intros y ?%elem_of_nil.
    - simpl. destruct (IH (np_minimum a z)) as [H1 H2].
      assert (np_minimum a z <= a /\ np_minimum a z <= z) as [Ha Hz].
      { unfold np_minimum. cbn [n_leb n_isnan Q_arith]. rewrite orb_false_r.
        destruct (Qle_bool a z) eqn:E.
        - apply Qle_bool_iff in E. split; [apply Qle_refl|done].
        - split; [|apply Qle_refl].
          apply Qlt_le_weak, Qnot_le_lt. intros Hle%Qle_bool_iff. congruence. }
      split; [by eapply Qle_trans|].
      intros y [->|Hy]%elem_of_cons; [by eapply Qle_trans|by apply H2]. }
  destruct (Hfold x) as [H1 H2].
  by intros y [->|Hy]%elem_of_cons; [|apply H2].
Qed.

Lemma np_max_ge (x : Q) (l : list Q) :
  exists m, np_max (x :: l) = Some m /\ forall y, y ∈ x :: l -> y <= m.
Proof.
  unfold np_max. eexists. split; [reflexivity|].
  assert (forall a, a <= foldl np_maximum a l
                    /\ forall y, y ∈ l -> y <= foldl np_maximum a l) as Hfold.
  { induction l as [|z l IH]; intros a.
    - split; [apply Qle_refl|]. by intros y ?%elem_of_nil.
    - simpl. destruct (IH (np_maximum a z)) as [H1 H2].
      assert (a <= np_maximum a z /\ z <= np_maximum a z) as [Ha Hz].
      { unfold np_maximum. cbn [n_leb n_isnan Q_arith]. rewrite orb_false_r.
        destruct (Qle_bool z a) eqn:E.
        - apply Qle_bool_iff in E. split; [apply Qle_refl|done].
        - split; [|apply Qle_refl].
          apply Qlt_le_weak, Qnot_le_lt. intros Hle%Qle_bool_iff. congruence. }
      split; [by eapply Qle_trans|].
      intros y [->|Hy]%elem_of_cons; [by eapply Qle_trans|by apply H2]. }
  destruct (Hfold x) as [H1 H2].
  by intros y [->|Hy]%elem_of_cons; [|apply H2].
Qed.

End ExactStatistics.

(** ** The order of binary64 numbers *)

Lemma NaN_free_SF (x : float) : PrimFloat.is_nan x = false -> Prim2SF x <> S754_nan.
Proof.
  intros Hx E. unfold PrimFloat.is_nan in Hx.
  by rewrite FloatAxioms.eqb_spec, E in Hx.
Qed.

Ltac float_order :=
  repeat match goal with
         | H : context [Z.compare ?a ?b] |- _ => destruct (Z.compare_spec a b)
         | |- context [Z.compare ?a ?b] => destruct (Z.compare_spec a b)
         | H : context [PosDef.Pos.compare_cont Eq ?a ?b] |- _ =>
             change (PosDef.Pos.compare_cont Eq a b) with (Pos.compare a b) in *;
             destruct (Pos.compare_spec a b)
         | |- context [PosDef.Pos.compare_cont Eq ?a ?b] =>
             change (PosDef.Pos.compare_cont Eq a b) with (Pos.compare a b) in *;
             destruct (Pos.compare_spec a b)
         end;
  simpl in *; try done; try lia.

Lemma ltb_leb (x y : float) : PrimFloat.ltb x y = true -> PrimFloat.leb x y = true.
Proof.
  rewrite FloatAxioms.ltb_spec, FloatAxioms.leb_spec. unfold SFltb, SFleb.
  by destruct (SFcompare (Prim2SF x) (Prim2SF y)) as [[| |]|].
Qed.

Lemma leb_total (x y : float) :
  PrimFloat.is_nan x = false -> PrimFloat.is_nan y = false ->
  PrimFloat.ltb y x = false -> PrimFloat.leb x y = true.
Proof.
  intros Hx%NaN_free_SF Hy%NaN_free_SF.
  rewrite FloatAxioms.ltb_spec, FloatAxioms.leb_spec. unfold SFltb, SFleb, SFcompare.
  destruct (Prim2SF x) as [s|s| |s m e], (Prim2SF y) as [s'|s'| |s' m' e'];
    try done; destruct s, s'; try done; float_order.
Qed.

Lemma leb_trans (x y z : float) :
  PrimFloat.leb x y = true -> PrimFloat.leb y z = true -> PrimFloat.leb x z = true.
Proof.
  rewrite !FloatAxioms.leb_spec. unfold SFleb, SFcompare.
  destruct (Prim2SF x) as [s|s| |s m e], (Prim2SF y) as [s'|s'| |s' m' e'],
           (Prim2SF z) as [s''|s''| |s'' m'' e''];
    try done; destruct s, s', s''; try done; intros H1 H2; float_order.
Qed.

Lemma leb_refl (x : float) : PrimFloat.is_nan x = false -> PrimFloat.leb x x = true.
Proof.
  intros Hx%NaN_free_SF.
  rewrite FloatAxioms.leb_spec. unfold SFleb, SFcompare.
  destruct (Prim2SF x) as [s|s| |s m e]; try done; destruct s; try done; float_order.
Qed.

(** Dividing a binary64 number by one returns it: the quotient of the
    mantissas is exact, so nothing is rounded. *)
Lemma div_eucl_exact (q d : Z) : (0 < d)%Z -> Z.div_eucl (q * d) d = (q, 0%Z).
Proof.
  intros Hd.
  pose proof (Z.div_mul q d ltac:(lia)) as Hq.
  pose proof (Z.mod_mul q d ltac:(lia)) as Hr.
  unfold Z.div in Hq. unfold Z.modulo in Hr.
  destruct (Z.div_eucl (q * d) d) as [q' r]. by subst.
Qed.

Lemma round_exact (s : bool) (m : positive) (e : Z) :
  fexp prec emax (Z.pos (digits2_pos m) + e) = e -> (e <= emax - prec)%Z ->
  binary_round_aux prec emax s (Z.pos m) e loc_Exact = S754_finite s m e.
Proof.
  intros Hc He. unfold binary_round_aux, shr_fexp.
  cbn [Zdigits2 shr_record_of_loc]. rewrite Hc, Z.sub_diag.
  cbn [shr shr_m loc_of_shr_record round_nearest_even Zdigits2 shr_record_of_loc].
  rewrite Hc, Z.sub_diag. cbn [shr shr_m].
  by apply Z.leb_le in He as ->.
Qed.

Lemma round_exact_double (s : bool) (m : positive) (e : Z) :
  Z.pos (digits2_pos m) = prec -> (3 - emax - prec < e)%Z -> (e <= emax - prec)%Z ->
  binary_round_aux prec emax s (Z.pos m~0) (e - 1) loc_Exact = S754_finite s m e.
Proof.
  intros Hd Hlo He. unfold binary_round_aux, shr_fexp.
  cbn [Zdigits2 shr_record_of_loc digits2_pos]. rewrite Pos2Z.inj_succ, Hd.
  assert (fexp prec emax (Z.succ prec + (e - 1)) - (e - 1) = 1)%Z as ->
    by (unfold fexp, emin, prec, emax in *; lia).
  cbn [shr SpecFloat.iter_pos shr_1 shr_m shr_r shr_s orb loc_of_shr_record
         round_nearest_even Zdigits2 shr_record_of_loc].
  rewrite Hd.
  assert (fexp prec emax (prec + (e - 1 + 1)) - (e - 1 + 1) = 0)%Z as ->
    by (unfold fexp, emin, prec, emax in *; lia).
  cbn [shr shr_m]. replace (e - 1 + 1)%Z with e by lia.
  by apply Z.leb_le in He as ->.
Qed.

Lemma SFdiv_one (x : spec_float) :
  SpecFloat.valid_binary prec emax x = true ->
  SFdiv prec emax x (S754_finite false 4503599627370496 (-52)) = x.
Proof.
  destruct x as [s|s| |s m e]; [by destruct s|by destruct s|done|].
  unfold SpecFloat.valid_binary, bounded, canonical_mantissa.
  intros [Hc%Z.eqb_eq He%Z.leb_le]%andb_true_iff.
  unfold SFdiv, SFdiv_core_binary.
  assert (xorb s false = s) as -> by by destruct s.
  change (Zdigits2 4503599627370496) with 53%Z.
  cbn [Zdigits2].
  set (d := Z.pos (digits2_pos m)) in *.
  destruct (Z.eq_dec d prec) as [Hd|Hd];
    [destruct (Z.eq_dec e (3 - emax - prec)%Z) as [Hm|Hm]|].
  3: assert (e = 3 - emax - prec)%Z as Hm
       by (pose proof (Pos2Z.is_pos (digits2_pos m)); fold d in H;
           unfold fexp, emin, prec, emax in *; lia).
  1, 3: assert (fexp prec emax (d + e - (53 + -52)) `min` (e - -52) = e)%Z as ->
          by (unfold fexp, emin, prec, emax in *; lia);
        replace (e - -52 - e)%Z with 52%Z by lia; cbv iota;
        rewrite Z.shiftl_mul_pow2 by done;
        change (2 ^ 52)%Z with 4503599627370496%Z;
        rewrite div_eucl_exact by done;
        change (new_location 4503599627370496 0) with loc_Exact;
        by apply round_exact.
  assert (fexp prec emax (d + e - (53 + -52)) `min` (e - -52) = e - 1)%Z as ->
    by (unfold fexp, emin, prec, emax in *; lia).
  replace (e - -52 - (e - 1))%Z with 53%Z by lia. cbv iota.
  rewrite Z.shiftl_mul_pow2 by done.
  replace (Z.pos m * 2 ^ 53)%Z with (Z.pos m~0 * 4503599627370496)%Z by lia.
  rewrite div_eucl_exact by done.
  change (new_location 4503599627370496 0) with loc_Exact.
  apply round_exact_double; [done| |done].
  unfold fexp, emin, prec, emax in *; lia.
Qed.

Lemma div_one (x : float) : PrimFloat.div x 1 = x.
Proof.
  rewrite <- (FloatAxioms.SF2Prim_Prim2SF (PrimFloat.div x 1)), FloatAxioms.div_spec.
  change (Prim2SF 1) with (S754_finite false 4503599627370496 (-52)).
  unfold SF64div. rewrite SFdiv_one by apply FloatAxioms.Prim2SF_valid.
  apply FloatAxioms.SF2Prim_Prim2SF.
Qed.

(** ** The median as the middle of the sorted data *)

Section SortedMiddle.
Context {R : Type} `{Arith R}.
Local Open Scope num_scope.

Lemma insert_sorted_permutation (x : R) (l : list R) : insert_sorted x l ≡ₚ x :: l.
Proof.
  induction l as [|y l IH]; [done|]. simpl.
  destruct (sort_lt y x); [|done].
  rewrite IH. apply Permutation_swap.
Qed.

Lemma np_sort_permutation (l : list R) : np_sort l ≡ₚ l.
Proof.
  induction l as [|x l IH]; [done|].
  unfold np_sort in *. simpl. by rewrite insert_sorted_permutation, IH.
Qed.

Lemma middle_one (s : list R) (i : nat) (a : R) :
  s !! i = Some a -> firstn 1 (skipn i s) = [a].
Proof. intros Hi. by rewrite (drop_S s a i Hi). Qed.

Lemma middle_two (s : list R) (i : nat) (a b : R) :
  s !! i = Some a -> s !! S i = Some b -> firstn 2 (skipn i s) = [a; b].
Proof. intros Hi Hj. by rewrite (drop_S s a i Hi), (drop_S s b (S i) Hj). Qed.

(** Where the mean of a single value is that value and no NaN was
    sorted last, [np.median] returns the middle of the sorted data. *)
Lemma np_median_of_sorted (data : list R) :
  (forall x : R, x / n_of_int 1 = x) ->
  data <> [] ->
  (forall top, last (np_sort data) = Some top -> n_isnan top = false) ->
  median_of_sorted (np_sort data) = Some (np_median data).
Proof.
  intros Hone Hne Htop. unfold np_median, median_of_sorted. cbv zeta.
  assert (length (np_sort data) = length data) as Hlen by by rewrite np_sort_permutation.
  assert (length data <> 0%nat) as Hn by (by destruct data).
  revert Htop Hlen. generalize (np_sort data) (length data) Hn.
  clear data Hne Hn. intros s n Hn Htop Hlen.
  destruct (last s) as [top|] eqn:Elast.
  2:{ apply last_None in Elast. rewrite Elast in Hlen. simpl in Hlen. lia. }
  rewrite (Htop top eq_refl), Hlen.
  destruct (Nat.eqb_spec (n mod 2) 1) as [Hodd|Heven].
  - assert (n = (2 * (n / 2) + 1)%nat) as Hk.
    { pose proof (Nat.div_mod_eq n 2). lia. }
    assert (Nat.odd n = true) as -> by (apply Nat.odd_spec; by exists (n / 2)%nat).
    destruct (lookup_lt_is_Some_2 s (n / 2)) as [x Hx]; [lia|].
    rewrite (middle_one s (n / 2) x Hx), Hx.
    unfold np_mean, np_sum. simpl. by rewrite Hone.
  - assert (n = (2 * (n / 2))%nat) as Hk.
    { pose proof (Nat.div_mod_eq n 2). pose proof (Nat.mod_upper_bound n 2). lia. }
    assert (Nat.odd n = false) as ->.
    { apply not_true_is_false. intros [m Hm]%Nat.odd_spec. lia. }
    destruct (lookup_lt_is_Some_2 s (n / 2 - 1)) as [x Hx]; [lia|].
    destruct (lookup_lt_is_Some_2 s (n / 2)) as [y Hy]; [lia|].
    rewrite (middle_two s (n / 2 - 1) x y Hx), Hx
      by (by replace (S (n / 2 - 1)) with (n / 2)%nat by lia).
    cbn [mbind option_bind]. rewrite Hy. reflexivity.
Qed.

End SortedMiddle.

Lemma Qdiv_one (x : Q) : (x / inject_Z 1)%Q = x.
Proof.
  destruct x as [n d]. unfold Qdiv, Qmult, Qinv. simpl.
  by rewrite Z.mul_1_r, Pos.mul_1_r.
Qed.

(** The median of rationals is the middle of the data in ascending order. *)
Lemma np_median_exact_middle (data : list Q) :
  data <> [] ->
  exists s : list Q,
    s ≡ₚ data /\ StronglySorted Qle s /\ median_of_sorted s = Some (np_median data).
Proof.
  intros Hne. exists (np_sort data).
  split; [apply np_sort_permutation|]. split; [apply np_sort_sorted|].
  apply np_median_of_sorted; [apply Qdiv_one|done|done].
Qed.

(** ** The order of binary64 numbers that are not NaN *)

Lemma float_sort_lt (a b : float) :
  PrimFloat.is_nan b = false -> sort_lt a b = PrimFloat.ltb a b.
Proof. intros Hb. unfold sort_lt. simpl. rewrite Hb. apply orb_false_r. Qed.

Lemma insert_sorted_ascending (x : float) (l : list float) :
  PrimFloat.is_nan x = false -> Forall (fun y => PrimFloat.is_nan y = false) l ->
  StronglySorted (fun a b => PrimFloat.leb a b = true) l ->
  StronglySorted (fun a b => PrimFloat.leb a b = true) (insert_sorted x l).
Proof.
  intros Hx. induction l as [|y l IH]; intros Hl Hs.
  - repeat constructor.
  - apply Forall_cons in Hl as [Hy Hl].
    apply StronglySorted_cons in Hs as [Hyl Hs]. simpl.
    rewrite (float_sort_lt y x Hx).
    destruct (PrimFloat.ltb y x) eqn:E.
    + apply StronglySorted_cons. split; [|by apply IH].
      rewrite insert_sorted_permutation. constructor; [by apply ltb_leb|done].
    + apply (leb_total x y Hx Hy) in E.
      apply StronglySorted_cons. split.
      * constructor; [done|]. eapply Forall_impl; [exact Hyl|].
        intros z Hz. by apply leb_trans with y.
      * by apply StronglySorted_cons.
Qed.

Lemma np_sort_ascending (l : list float) :
  Forall (fun y => PrimFloat.is_nan y = false) l ->
  StronglySorted (fun a b => PrimFloat.leb a b = true) (np_sort l).
Proof.
  induction l as [|x l IH]; intros Hl; [constructor|].
  apply Forall_cons in Hl as [Hx Hl].
  apply insert_sorted_ascending; [done| |by apply IH].
  change (Forall (fun y => PrimFloat.is_nan y = false) (np_sort l)).
  by rewrite np_sort_permutation.
Qed.

(** The median of binary64 numbers, none of them NaN, is the middle of
    the data in ascending order. *)
Lemma np_median_binary64_middle (data : list float) :
  data <> [] -> Forall (fun y => PrimFloat.is_nan y = false) data ->
  exists s : list float,
    s ≡ₚ data /\ StronglySorted (fun a b => PrimFloat.leb a b = true) s
    /\ median_of_sorted s = Some (np_median data).
Proof.
  intros Hne Hl. exists (np_sort data).
  split; [apply np_sort_permutation|]. split; [by apply np_sort_ascending|].
  apply np_median_of_sorted; [apply div_one|done|].
  intros top Htop%last_Some_elem_of. rewrite np_sort_permutation in Htop.
  rewrite Forall_forall in Hl. by apply Hl.
Qed.

(** ** The median of the paired differences *)

(** C4. The median difference [create_performance_plot] computes is the
    median of the elementwise differences comparison minus baseline:
    the middle value of the differences put in ascending order, or the
    mean of the two middle values when their number is even.  This holds
    in binary64 for differences none of which is NaN, and in exact
    arithmetic.  On A = [0.6, 0.7, 0.8] and B = [0.65, 0.72, 0.95] the
    differences are 0.05, 0.02, 0.15 and their median is 0.05: exactly
    so in exact arithmetic, and in binary64 up to the rounding of the
    subtractions (0.050000000000000044), which the legend prints as
    0.05.  The same pairs in another order give the same median, and
    four pairs with differences 0.15, 0.05, 0.02, 0.1 give 0.075. *)
Theorem median_difference_is_median_of_differences :
  (forall (R : Type) (A : Arith R) (a b : list R),
      median_difference (create_performance_plot a b)
      = np_median (zip_with n_sub b a))
  /\ (forall a b : list float,
        zip_with PrimFloat.sub b a <> [] ->
        Forall (fun d => PrimFloat.is_nan d = false) (zip_with PrimFloat.sub b a) ->
        exists s : list float,
          s ≡ₚ zip_with PrimFloat.sub b a
          /\ StronglySorted (fun x y => PrimFloat.leb x y = true) s
          /\ median_of_sorted s = Some (median_difference (create_performance_plot a b)))
  /\ (forall a b : list Q,
        zip_with Qminus b a <> [] ->
        exists s : list Q,
          s ≡ₚ zip_with Qminus b a
          /\ StronglySorted Qle s
          /\ median_of_sorted s = Some (median_difference (create_performance_plot a b)))
  /\ (deltas Examples.baseline_exact Examples.comparison_exact
      = [0.65 - 0.6; 0.72 - 0.7; 0.95 - 0.8]%Q
      /\ Forall2 Qeq (deltas Examples.baseline_exact Examples.comparison_exact)
                     [0.05; 0.02; 0.15]%Q
      /\ median_of_sorted [0.02; 0.05; 0.15]%Q = Some 0.05%Q
      /\ (median_difference
            (create_performance_plot Examples.baseline_exact Examples.comparison_exact)
          == 0.05)%Q)
  /\ (median_difference (create_performance_plot Examples.baseline Examples.comparison)
      = 0.050000000000000044%float
      /\ PrimFloat.ltb
           (PrimFloat.abs
              (median_difference (create_performance_plot Examples.baseline Examples.comparison)
               - 0.05)%float) 1e-16%float = true
      /\ median_label (create_performance_plot Examples.baseline Examples.comparison)
         = "Median Threshold (Δ=0.05)")
  /\ (Forall2 Qeq (deltas Examples.baseline_shuffled_exact Examples.comparison_shuffled_exact)
                  [0.02; 0.15; 0.05]%Q
      /\ (median_difference
            (create_performance_plot Examples.baseline_shuffled_exact
                                     Examples.comparison_shuffled_exact)
          == 0.05)%Q
      /\ deltas Examples.baseline_shuffled Examples.comparison_shuffled
         = [0.020000000000000018; 0.14999999999999991; 0.050000000000000044]%float
      /\ median_difference
           (create_performance_plot Examples.baseline_shuffled Examples.comparison_shuffled)
         = 0.050000000000000044%float)
  /\ (Forall2 Qeq (deltas Examples.baseline_four_exact Examples.comparison_four_exact)
                  [0.15; 0.05; 0.02; 0.1]%Q
      /\ (median_difference
            (create_performance_plot Examples.baseline_four_exact
                                     Examples.comparison_four_exact)
          == 0.075)%Q
      /\ deltas Examples.baseline_four Examples.comparison_four
         = [0.14999999999999991; 0.050000000000000044; 0.020000000000000018;
            0.099999999999999978]%float
      /\ median_difference
           (create_performance_plot Examples.baseline_four Examples.comparison_four)
         = 0.075000000000000011%float).
Proof.
  split; [|split; [|split; [|split; [|split; [|split]]]]].
  - intros R A a b. reflexivity.
  - intros a b Hne Hnan. by apply np_median_binary64_middle.
  - intros a b Hne. by apply np_median_exact_middle.
  - split; [reflexivity|]. split; [repeat constructor|].
    split; [reflexivity|]. vm_compute. reflexivity.
  - repeat split; vm_compute; reflexivity.
  - split; [repeat constructor|]. repeat split; vm_compute; reflexivity.
  - split; [repeat constructor|]. repeat split; vm_compute; reflexivity.
Qed.

(** ** Five-number summary *)



(** ** DataFrame operations, cell by cell *)

Lemma lookup_tabulate (f : string -> cell) (cs : list string) (c : string) :
  (list_to_map ((fun c => (c, f c)) <$> cs) : gmap string cell) !! c
  = if decide (c ∈ cs) then Some (f c) else None.
Proof.
  induction cs as [|c0 cs IH].
  - rewrite fmap_nil, list_to_map_nil, lookup_empty.
    case_decide as Hin; [by inversion Hin|done].
  - rewrite fmap_cons, list_to_map_cons.
    destruct (decide (c0 = c)) as [->|Hne].
    + rewrite lookup_insert_eq. by rewrite decide_True by apply list_elem_of_here.
    + rewrite lookup_insert_ne, IH by done. clear IH.
      destruct (decide (c ∈ cs)) as [Hin|Hnin].
      * by rewrite decide_True by by apply list_elem_of_further.
      * rewrite decide_False; [done|].
        intros [?|?]%elem_of_cons; congruence.
Qed.

Lemma cell_at_project (cs : list string) (r : row) (c : string) :
  c ∈ cs -> cell_at (project cs r) c = cell_at r c.
Proof.
  intros Hc. unfold cell_at at 1, project. simpl.
  by rewrite lookup_tabulate, decide_True.
Qed.

Lemma from_columns_tabulate (idx : list nat) (dt : dtype) (cs : list string)
    (g : string -> Series cell) :
  from_columns idx dt ((fun c => (c, g c)) <$> cs)
  = {| columns := cs;
       dtypes := list_to_map ((fun c => (c, dt)) <$> cs);
       rows := imap (fun i l =>
                 {| label := l;
                    cells := list_to_map
                      ((fun c => (c, default NaN (snd <$> g c !! i))) <$> cs) |}) idx |}.
Proof.
  assert (((fun c => (c, g c)) <$> cs).*1 = cs) as Hfst.
  { rewrite <- list_fmap_compose. apply list_fmap_id. }
  unfold from_columns. rewrite Hfst. f_equal.
  apply imap_ext. intros i l _. f_equal. f_equal.
  by rewrite <- list_fmap_compose.
Qed.

Lemma from_columns_cellwise (phi : cell -> result cell) (d : DataFrame) (dt : dtype)
    (g : string -> Series cell) :
  (forall c i r, c ∈ columns d -> rows d !! i = Some r ->
     phi (cell_at r c) = inr (default NaN (snd <$> g c !! i))) ->
  cellwise phi d (from_columns (index d) dt ((fun c => (c, g c)) <$> columns d)).
Proof.
  intros Hg. rewrite from_columns_tabulate. split; [done|]. simpl.
  apply Forall2_same_length_lookup. split.
  - unfold index. by rewrite length_imap, length_fmap.
  - intros i r r' Hr Hr'.
    rewrite list_lookup_imap in Hr'. unfold index in Hr'.
    rewrite list_lookup_fmap, Hr in Hr'. simpl in Hr'. injection Hr' as <-.
    split; [done|]. intros c Hc. unfold cell_at at 2. simpl.
    rewrite lookup_tabulate, decide_True by done. simpl. by apply Hg.
Qed.

Lemma apply_cellwise (phi : cell -> cell) (f : Series cell -> Series cell) (d : DataFrame) :
  (forall s, f s = (fun '(l, x) => (l, phi x)) <$> s) ->
  cellwise (fun x => inr (phi x)) d (apply f d).
Proof.
  intros Hf. unfold apply.
  apply (from_columns_cellwise _ d object (fun c => f (column d c))).
  intros c i r Hc Hr. rewrite Hf. unfold column.
  by rewrite !list_lookup_fmap, Hr.
Qed.

Lemma mapM_result_inr {A B} (f : A -> result B) (l : list A) (ys : list B) :
  mapM_result f l = inr ys -> Forall2 (fun x y => f x = inr y) l ys.
Proof.
  revert ys. induction l as [|x l IH]; intros ys; simpl.
  - intros [= <-]. constructor.
  - destruct (f x) as [e|y] eqn:Ex; [done|].
    destruct (mapM_result f l) as [e|ys'] eqn:El; [done|].
    intros [= <-]. constructor; [done|by apply IH].
Qed.

Lemma mapM_result_inl {A B} (f : A -> result B) (l : list A) (e : exn) :
  mapM_result f l = inl e -> exists x, x ∈ l /\ f x = inl e.
Proof.
  induction l as [|x l IH]; simpl; [done|].
  destruct (f x) as [e'|y] eqn:Ex.
  - intros [= <-]. exists x. split; [apply list_elem_of_here|done].
  - destruct (mapM_result f l) as [e'|ys'] eqn:El; [|done].
    intros [= <-]. destruct (IH eq_refl) as (x' & Hin & Hx').
    exists x'. split; [by apply list_elem_of_further|done].
Qed.

Lemma series_astype_float_lookup (d : DataFrame) (c : string) (s : Series cell)
    (i : nat) (r : row) :
  series_astype_float (column d c) = inr s -> rows d !! i = Some r ->
  cell_astype_float (cell_at r c) = inr (default NaN (snd <$> s !! i)).
Proof.
  intros Hs%mapM_result_inr Hr.
  assert (column d c !! i = Some (label r, cell_at r c)) as Hc.
  { unfold column. by rewrite list_lookup_fmap, Hr. }
  destruct (Forall2_lookup_l _ _ _ _ _ Hs Hc) as ([l y] & Hy & Hconv).
  rewrite Hy. simpl.
  destruct (cell_astype_float (cell_at r c)) as [e|y']; [done|]. congruence.
Qed.

Lemma astype_float_cellwise (d d' : DataFrame) :
  astype_float d = inr d' -> cellwise cell_astype_float d d'.
Proof.
  unfold astype_float.
  destruct (mapM_result _ (columns d)) as [e|cols] eqn:Ecols; [done|].
  intros [= <-].
  apply mapM_result_inr in Ecols.
  set (g := fun c => match series_astype_float (column d c) with
                     | inr s => s
                     | inl _ => []
                     end).
  assert (cols = (fun c => (c, g c)) <$> columns d) as ->.
  { induction Ecols as [|c y cs ys Hy _ IH]; [done|].
    simpl. f_equal; [|done]. unfold g.
    destruct (series_astype_float (column d c)); congruence. }
  apply from_columns_cellwise. intros c i r Hc Hr.
  rewrite Forall2_fmap_r in Ecols.
  assert (exists s, series_astype_float (column d c) = inr s) as [s Hs].
  { apply list_elem_of_lookup in Hc as [j Hj].
    destruct (Forall2_lookup_l _ _ _ _ _ Ecols Hj) as (c' & Hj' & Hconv).
    destruct (series_astype_float (column d c)); [done|by eexists]. }
  unfold g. rewrite Hs. by eapply series_astype_float_lookup.
Qed.

Lemma astype_float_fails (d : DataFrame) (e : exn) :
  astype_float d = inl e ->
  exists r c, r ∈ rows d /\ c ∈ columns d /\ cell_astype_float (cell_at r c) = inl e.
Proof.
  unfold astype_float.
  destruct (mapM_result _ (columns d)) as [e'|cols] eqn:Ecols; [|done].
  intros [= <-].
  apply mapM_result_inl in Ecols as (c & Hc & Hcol).
  destruct (series_astype_float (column d c)) as [e''|s] eqn:Es; [|done].
  injection Hcol as <-.
  apply mapM_result_inl in Es as ([l x] & Hin & Hx).
  unfold column in Hin. apply list_elem_of_fmap in Hin as (r & [= -> ->] & Hr).
  exists r, c. split; [done|]. split; [done|].
  by destruct (cell_astype_float (cell_at r c)); simplify_eq.
Qed.

Lemma foldl_insert_lookup (f : string -> cell) (m0 : gmap string cell)
    (cs : list string) (c : string) :
  foldl (fun m '(k1, k2) => <[k1 := f k2]> m) m0 (zip cs cs) !! c
  = if decide (c ∈ cs) then Some (f c) else m0 !! c.
Proof.
  revert m0. induction cs as [|c0 cs IH]; intros m0.
  - cbn [zip zip_with foldl]. by rewrite decide_False by apply not_elem_of_nil.
  - cbn [zip zip_with foldl]. rewrite IH. clear IH.
    destruct (decide (c ∈ cs)) as [Hin|Hnin].
    + by rewrite decide_True by by apply list_elem_of_further.
    + destruct (decide (c0 = c)) as [->|Hne].
      * rewrite lookup_insert_eq. by rewrite decide_True by apply list_elem_of_here.
      * rewrite lookup_insert_ne by done. rewrite decide_False; [done|].
        intros [?|?]%elem_of_cons; congruence.
Qed.

Lemma setitem_columns_same_index (d v : DataFrame) (cs : list string) :
  index v = index d -> columns v = cs -> (forall c, c ∈ cs -> c ∈ columns d) ->
  exists d3,
    setitem_columns d cs v = inr d3
    /\ columns d3 = columns d
    /\ Forall2 (fun '(r, rv) r3 =>
                  label r3 = label r
                  /\ (forall c, c ∈ cs -> cell_at r3 c = cell_at rv c)
                  /\ (forall c, c ∉ cs -> cell_at r3 c = cell_at r c))
         (zip (rows d) (rows v)) (rows d3).
Proof.
  intros Hidx Hcols Hsub. unfold setitem_columns.
  rewrite Hcols, Nat.eqb_refl. simpl negb. cbv iota.
  rewrite decide_True by done.
  eexists. split; [reflexivity|]. simpl. split.
  - replace (filter _ (remove_dups cs)) with (@nil string); [apply app_nil_r|].
    symmetry. apply elem_of_nil_inv. intros c [Hn Hc]%list_elem_of_filter.
    apply Hn, Hsub. by apply elem_of_remove_dups.
  - apply Forall2_same_length_lookup. split.
    + by rewrite !length_zip_with.
    + intros i [r rv] r3 Hz H3.
      apply lookup_zip_with_Some in H3 as (r' & rv' & -> & Hr & Hrv).
      apply lookup_zip_with_Some in Hz as (r'' & rv'' & [= -> ->] & Hr'' & Hrv'').
      simplify_eq. split; [done|].
      split; intros c Hc; unfold cell_at at 1; simpl;
        rewrite foldl_insert_lookup.
      * by rewrite decide_True.
      * by rewrite decide_False.
Qed.

Lemma mask_filter (f : row -> bool) (rs : list row) :
  (zip rs (f <$> rs)) ≫= (fun '(r, b) => if b : bool then [r] else [])
  = filter (fun r => f r = true) rs.
Proof.
  induction rs as [|r rs IH]; [done|].
  rewrite fmap_cons. simpl zip. rewrite bind_cons, IH, filter_cons.
  destruct (f r) eqn:E.
  - by rewrite decide_True.
  - by rewrite decide_False by congruence.
Qed.

Lemma getitem_mask_contains (d : DataFrame) (ev : string) :
  rows (getitem_mask d (series_str_contains "AUC" false
                          ((fun r => (label r, cell_at r ev)) <$> rows d)))
  = filter (fun r => metric_is_auc ev r = true) (rows d).
Proof.
  unfold getitem_mask, series_str_contains. simpl.
  rewrite <- !list_fmap_compose. by rewrite <- mask_filter.
Qed.

Lemma getitem_column_in (d : DataFrame) (c : string) :
  c ∈ columns d ->
  getitem_column d c = inr ((fun r => (label r, cell_at r c)) <$> rows d).
Proof. intros Hc. unfold getitem_column. by rewrite decide_True. Qed.

Lemma absent_nil (d : DataFrame) (cs : list string) :
  (forall c, c ∈ cs -> c ∈ columns d) -> absent d cs = [].
Proof.
  intros Hsub. apply elem_of_nil_inv. intros c [Hn Hc]%list_elem_of_filter.
  by apply Hn, Hsub.
Qed.

Lemma survivors_filter (sc : list string) (ev mo : string) (rs : list row) :
  filter (fun r => metric_is_auc ev r = true)
    (filter (fun r => forallb (fun c => negb (isna (cell_at r c))) (sc ++ [ev; mo]) = true) rs)
  = filter (fun r => survives sc ev mo r = true) rs.
Proof.
  rewrite list_filter_filter. apply list_filter_iff.
  intros r. unfold survives, no_missing. rewrite andb_true_iff. tauto.
Qed.

Lemma fresh_None (h : gmap positive DataFrame) : h !! fresh (dom h) = None.
Proof. apply not_elem_of_dom, is_fresh. Qed.

(** ** The performance preprocessor *)

Import Examples.

Section PreprocessOutcome.
Variable float_repr : float -> string.

Lemma score_conversion_series (s : list (nat * cell)) :
  series_str_replace comma period (series_astype_str float_repr s)
  = (fun '(l, x) => (l, Str (str_replace comma period (astype_str float_repr x)))) <$> s.
Proof.
  unfold series_str_replace, series_astype_str.
  rewrite <- list_fmap_compose. apply list_fmap_ext. by intros i [l x] _.
Qed.

Lemma preprocess_outcome (h : gmap positive DataFrame) (df : positive) (d : DataFrame)
    (sc : list string) (ev mo : string) :
  h !! df = Some d -> (forall c, c ∈ sc ++ [ev; mo] -> c ∈ columns d) ->
  match metric_accessor sc ev mo d with
  | inl e => (preprocess_performance_data float_repr df sc ev mo h).1 = inl e
  | inr _ =>
      match (preprocess_performance_data float_repr df sc ev mo h).1 with
      | inr (scores, modalities) =>
          columns scores = sc
          /\ Forall2 (fun r o =>
                        label o = label r
                        /\ forall c, c ∈ sc ->
                             score_to_float float_repr (cell_at r c) = inr (cell_at o c))
               (surviving_rows sc ev mo d) (rows scores)
          /\ Forall2 (fun r m =>
                        m.1 = label r
                        /\ (mo ∉ sc -> m.2 = cell_at r mo)
                        /\ (mo ∈ sc -> score_to_float float_repr (cell_at r mo) = inr m.2))
               (surviving_rows sc ev mo d) modalities
      | inl e =>
          exists r c, r ∈ surviving_rows sc ev mo d /\ c ∈ sc
                      /\ score_to_float float_repr (cell_at r c) = inl e
      end
  end.
Proof.
  intros Hdf Hcols.
  assert (forall c, c ∈ sc -> c ∈ columns d) as Hsc.
  { intros c Hc. apply Hcols, elem_of_app. by left. }
  assert (ev ∈ columns d) as Hev.
  { apply Hcols, elem_of_app. right. apply list_elem_of_here. }
  assert (mo ∈ columns d) as Hmo.
  { apply Hcols, elem_of_app. right. apply list_elem_of_further, list_elem_of_here. }
  unfold preprocess_performance_data.
  cbv [bind load lift new store ret].
  rewrite Hdf. unfold dropna. rewrite (absent_nil d _ Hcols).
  rewrite lookup_insert_eq.
  set (d1 := {| columns := columns d; dtypes := dtypes d; rows := filter _ (rows d) |}).
  set (h1 := <[fresh (dom h) := d1]> h).
  rewrite (getitem_column_in d1 ev) by done.
  change (str_accessor (dtype_of d1 ev) ((fun r => (label r, cell_at r ev)) <$> rows d1))
    with (metric_accessor sc ev mo d).
  destruct (metric_accessor sc ev mo d) as [e|evs] eqn:Eacc; [done|].
  assert (evs = (fun r => (label r, cell_at r ev)) <$> rows d1) as ->.
  { unfold metric_accessor, str_accessor in Eacc. cbv zeta in Eacc.
    destruct (dtype_of d ev); [|done].
    destruct (filter (fun x : nat * cell => isna x.2 = false) _);
      [by injection Eacc as <-|].
    destruct (forallb _ _); [done|by injection Eacc as <-]. }
  rewrite lookup_insert_eq.
  set (d2 := getitem_mask d1 _).
  set (l2 := fresh (dom h1)).
  set (h2 := <[l2 := d2]> h1).
  assert (rows d2 = surviving_rows sc ev mo d) as Hrows2.
  { unfold d2. rewrite getitem_mask_contains. apply survivors_filter. }
  assert (columns d2 = columns d) as Hcols2 by done.
  clearbody d2 l2 h1.
  unfold getitem_columns at 1. rewrite absent_nil by (by rewrite Hcols2).
  set (scf := {| columns := sc; dtypes := _; rows := project sc <$> rows d2 |}).
  set (A := apply _ scf).
  assert (cellwise (fun x => inr (Str (str_replace comma period (astype_str float_repr x))))
            scf A) as HA.
  { apply apply_cellwise. intros s. apply score_conversion_series. }
  clearbody A.
  assert (Forall2 (fun r2 a =>
            label a = label r2
            /\ forall c, c ∈ sc ->
                 cell_at a c
                 = Str (str_replace comma period (astype_str float_repr (cell_at r2 c))))
            (rows d2) (rows A)) as H2A.
  { destruct HA as [_ HA]. simpl in HA. apply Forall2_fmap_l in HA.
    eapply Forall2_impl; [exact HA|]. intros r2 a [Hl Hc]. simpl in *.
    split; [done|]. intros c Hcin. specialize (Hc c Hcin).
    rewrite cell_at_project in Hc by done. by injection Hc. }
  assert (columns A = sc) as HcA by apply HA.
  destruct (astype_float A) as [e|v] eqn:Ev.
  - simpl. apply astype_float_fails in Ev as (a & c & Ha & Hc & Hfail).
    rewrite HcA in Hc.
    apply list_elem_of_lookup in Ha as [i Hi].
    destruct (Forall2_lookup_r _ _ _ _ _ H2A Hi) as (r2 & Hr2 & _ & Hcell).
    exists r2, c. split; [rewrite <- Hrows2; by eapply list_elem_of_lookup_2|].
    split; [done|]. unfold score_to_float. by rewrite <- (Hcell c Hc).
  - apply astype_float_cellwise in Ev as [HcV HV]. rewrite HcA in HcV.
    assert (Forall2 (fun r2 rv =>
              label rv = label r2
              /\ forall c, c ∈ sc ->
                   score_to_float float_repr (cell_at r2 c) = inr (cell_at rv c))
              (rows d2) (rows v)) as H2V.
    { eapply Forall2_trans; [|exact H2A|exact HV].
      intros r2 a rv [Hl1 Hc1] [Hl2 Hc2]. split; [congruence|].
      intros c Hc. unfold score_to_float. rewrite <- (Hc1 c Hc).
      apply Hc2. by rewrite HcA. }
    assert (index v = index d2) as Hidx.
    { unfold index. apply list_eq_Forall2, Forall2_fmap, Forall2_flip.
      eapply Forall2_impl; [exact H2V|]. by intros ?? [? _]. }
    destruct (setitem_columns_same_index d2 v sc Hidx HcV) as (d3 & -> & Hc3 & H3).
    { intros c Hc. rewrite Hcols2. by apply Hsc. }
    unfold h2 at 1. rewrite !lookup_insert_eq.
    unfold getitem_columns. rewrite absent_nil.
    2:{ intros c Hc. rewrite Hc3, Hcols2. by apply Hsc. }
    unfold getitem_column. rewrite decide_True by (by rewrite Hc3, Hcols2).
    simpl. split; [done|].
    assert (Forall2 (fun r2 r3 =>
              label r3 = label r2
              /\ (forall c, c ∈ sc ->
                    score_to_float float_repr (cell_at r2 c) = inr (cell_at r3 c))
              /\ (forall c, c ∉ sc -> cell_at r3 c = cell_at r2 c))
              (rows d2) (rows d3)) as H23.
    { apply Forall2_same_length_lookup. split.
      - rewrite <- (Forall2_length _ _ _ H3), length_zip_with.
        rewrite <- (Forall2_length _ _ _ H2V). lia.
      - intros i r2 r3 Hr2 Hr3.
        destruct (Forall2_lookup_l _ _ _ _ _ H2V Hr2) as (rv & Hrv & Hl & Hcv).
        assert (zip (rows d2) (rows v) !! i = Some (r2, rv)) as Hz.
        { apply lookup_zip_with_Some. eauto. }
        pose proof (Forall2_lookup_lr _ _ _ _ _ _ H3 Hz Hr3) as (Hl3 & Hin & Hout).
        split; [done|]. split; [|done].
        intros c Hc. rewrite (Hin c Hc). by apply Hcv. }
    rewrite <- Hrows2. split.
    + apply Forall2_fmap_r. eapply Forall2_impl; [exact H23|].
      intros r2 r3 (Hl & Hin & Hout). simpl. split; [done|].
      intros c Hc. rewrite cell_at_project by done. by apply Hin.
    + apply Forall2_fmap_r. eapply Forall2_impl; [exact H23|].
      intros r2 r3 (Hl & Hin & Hout). simpl.
      split; [done|]. split; [by apply Hout|by apply Hin].
Qed.

End PreprocessOutcome.

Lemma fresh_insert_None (h : gmap positive DataFrame) (d : DataFrame) :
  h !! fresh (dom (<[fresh (dom h) := d]> h)) = None.
Proof.
  eapply lookup_weaken_None; [apply fresh_None|].
  apply insert_subseteq, fresh_None.
Qed.

(** The store after the call extends the store before it: every object
    that existed keeps its value; the call only adds objects, and
    assigns into one it created itself. *)
Lemma preprocess_store_extends (float_repr : float -> string)
    (h : gmap positive DataFrame) (df : positive)
    (sc : list string) (ev mo : string) :
  h ⊆ (preprocess_performance_data float_repr df sc ev mo h).2.
Proof.
  assert (forall d1 : DataFrame, h ⊆ <[fresh (dom h) := d1]> h) as H1.
  { intros d1. apply insert_subseteq, fresh_None. }
  assert (forall d1 d2 : DataFrame,
            h ⊆ <[fresh (dom (<[fresh (dom h) := d1]> h)) := d2]>
                  (<[fresh (dom h) := d1]> h)) as H2.
  { intros d1 d2. apply insert_subseteq_r; [apply fresh_insert_None|apply H1]. }
  assert (forall d1 d2 d3 : DataFrame,
            h ⊆ <[fresh (dom (<[fresh (dom h) := d1]> h)) := d3]>
                  (<[fresh (dom (<[fresh (dom h) := d1]> h)) := d2]>
                     (<[fresh (dom h) := d1]> h))) as H3.
  { intros d1 d2 d3. apply insert_subseteq_r; [apply fresh_insert_None|apply H2]. }
  unfold preprocess_performance_data.
  cbv [bind load lift new store ret].
  destruct (h !! df) as [d|]; [|done].
  destruct (dropna d _) as [e|d1]; [done|].
  rewrite lookup_insert_eq.
  destruct (getitem_column d1 ev) as [e|evs]; [apply H1|].
  destruct (str_accessor _ evs) as [e|evs']; [apply H1|].
  rewrite lookup_insert_eq.
  destruct (getitem_columns _ sc) as [e|scf]; [apply H2|].
  destruct (astype_float _) as [e|v]; [apply H2|].
  destruct (setitem_columns _ sc v) as [e|d3]; [apply H2|].
  rewrite !lookup_insert_eq.
  destruct (getitem_columns d3 sc) as [e|scores]; [apply H3|].
  destruct (getitem_column d3 mo) as [e|mods]; apply H3.
Qed.

Lemma absent_nil_iff (d : DataFrame) (cs : list string) :
  absent d cs = [] <-> forall c, c ∈ cs -> c ∈ columns d.
Proof.
  split; [|apply absent_nil].
  intros Hnil c Hc. destruct (decide (c ∈ columns d)) as [|Hn]; [done|].
  assert (c ∈ absent d cs) as Hin by (apply list_elem_of_filter; done).
  rewrite Hnil in Hin. by inversion Hin.
Qed.

Lemma surviving_rows_spec (sc : list string) (ev mo : string) (d : DataFrame) (r : row) :
  r ∈ surviving_rows sc ev mo d
  <-> r ∈ rows d
      /\ (forall c, c ∈ sc ++ [ev; mo] -> isna (cell_at r c) = false)
      /\ exists t, cell_at r ev = Str t /\ str_contains "AUC" t = true.
Proof.
  unfold surviving_rows, survives, no_missing, metric_is_auc.
  rewrite list_elem_of_filter, andb_true_iff, forallb_forall.
  split.
  - intros [[Hna Hauc] Hr]. split; [done|]. split.
    + intros c Hc. apply negb_true_iff, Hna. by apply list_elem_of_In.
    + destruct (cell_at r ev) as [t|x]; [by exists t|done].
  - intros (Hr & Hna & t & Ht & Hauc). split; [|done]. split.
    + intros c Hc. apply negb_true_iff, Hna. by apply list_elem_of_In.
    + by rewrite Ht.
Qed.

Lemma metric_accessor_text (sc : list string) (ev mo : string) (d : DataFrame) :
  text_column ev d ->
  metric_accessor sc ev mo d
  = inr ((fun r => (label r, cell_at r ev)) <$> complete_rows sc ev mo d).
Proof.
  intros [Hdt Htext]. unfold metric_accessor, str_accessor. rewrite Hdt.
  destruct (filter (fun x : nat * cell => isna x.2 = false) _) as [|p l] eqn:E; [done|].
  assert (p ∈ filter (fun x : nat * cell => isna x.2 = false)
                ((fun r => (label r, cell_at r ev)) <$> complete_rows sc ev mo d)) as Hp.
  { rewrite E. apply list_elem_of_here. }
  apply list_elem_of_filter in Hp as [Hna Hp].
  apply list_elem_of_fmap in Hp as (r & -> & Hr).
  apply list_elem_of_filter in Hr as [_ Hr].
  destruct (Htext r Hr Hna) as [t Ht].
  cbn [forallb]. simpl. by rewrite Ht.
Qed.

Lemma metric_accessor_refused (sc : list string) (ev mo : string) (d : DataFrame) (e : exn) :
  metric_accessor sc ev mo d = inl e ->
  e = AttributeError (PStr "Can only use .str accessor with string values!")
  /\ (well_typed d -> surviving_rows sc ev mo d = []).
Proof.
  unfold metric_accessor, str_accessor. cbv zeta.
  destruct (dtype_of d ev) eqn:Hdt.
  - destruct (filter (fun x : nat * cell => isna x.2 = false) _) as [|p l] eqn:E; [done|].
    destruct (forallb _ (p :: l)) eqn:Hall; [|done].
    intros [= <-]. split; [done|]. intros _.
    apply elem_of_nil_inv. intros r [Hsurv Hr]%list_elem_of_filter.
    unfold survives in Hsurv. apply andb_true_iff in Hsurv as [Hna Hauc].
    assert ((label r, cell_at r ev) ∈ p :: l) as Hin.
    { rewrite <- E. apply list_elem_of_filter. split.
      - unfold no_missing in Hna. rewrite forallb_forall in Hna.
        apply negb_true_iff, Hna, list_elem_of_In.
        apply elem_of_app. right. apply list_elem_of_here.
      - apply list_elem_of_fmap. exists r. split; [done|].
        apply list_elem_of_filter. by split. }
    rewrite forallb_forall in Hall.
    apply list_elem_of_In, Hall in Hin. simpl in Hin.
    unfold metric_is_auc in Hauc. by destruct (cell_at r ev).
  - intros [= <-]. split; [done|]. intros Hwt.
    apply elem_of_nil_inv. intros r [Hsurv Hr]%list_elem_of_filter.
    unfold survives in Hsurv. apply andb_true_iff in Hsurv as [_ Hauc].
    destruct (Hwt r ev Hr Hdt) as [x Hx].
    unfold metric_is_auc in Hauc. by rewrite Hx in Hauc.
Qed.

Lemma metric_accessor_float64 (sc : list string) (ev mo : string) (d : DataFrame) :
  dtype_of d ev = float64 ->
  metric_accessor sc ev mo d
  = inl (AttributeError (PStr "Can only use .str accessor with string values!")).
Proof. intros Hdt. unfold metric_accessor, str_accessor. by rewrite Hdt. Qed.

Lemma three_studies_well_typed : well_typed three_studies.
Proof.
  intros r c Hr Hdt. unfold dtype_of, three_studies in Hdt. simpl in Hdt.
  destruct (decide (c = "multimodal_best_score")) as [->|Hne].
  - simpl in Hr. repeat (apply elem_of_cons in Hr as [->|Hr]); [..|by inversion Hr];
      eexists; vm_compute; reflexivity.
  - by rewrite lookup_singleton_ne in Hdt.
Qed.

Lemma no_auc_studies_text : text_column evaluation_column no_auc_studies.
Proof.
  split; [reflexivity|]. intros r Hr _. simpl in Hr.
  repeat (apply elem_of_cons in Hr as [->|Hr]); [..|by inversion Hr];
    eexists; vm_compute; reflexivity.
Qed.

(** C2. The rows the performance preprocessor returns are exactly the
    input rows that have no missing value in the four designated columns
    and whose evaluation metric is text containing "AUC"
    (case-sensitive), in input order.  When it raises instead, nothing
    is returned: either a retained score is not a number
    ([ValueError]), or the evaluation-metric column holds no text at
    all, so that no row qualifies, and the string accessor refuses it
    ([AttributeError]).  For the metrics AUC-ROC, Accuracy, AUC with the
    other columns populated, the first and third rows (labels 0 and 2)
    are returned and the second is dropped. *)
Theorem auc_rows_retained :
  (forall (float_repr : float -> string) (h : gmap positive DataFrame) (df : positive)
          (d : DataFrame) (sc : list string) (ev mo : string),
      h !! df = Some d ->
      (forall c, c ∈ sc ++ [ev; mo] -> c ∈ columns d) ->
      well_typed d ->
      (forall r, r ∈ surviving_rows sc ev mo d
                 <-> r ∈ rows d
                     /\ (forall c, c ∈ sc ++ [ev; mo] -> isna (cell_at r c) = false)
                     /\ exists t, cell_at r ev = Str t /\ str_contains "AUC" t = true)
      /\ match (preprocess_performance_data float_repr df sc ev mo h).1 with
         | inr (scores, modalities) =>
             label <$> rows scores = label <$> surviving_rows sc ev mo d
             /\ modalities.*1 = label <$> surviving_rows sc ev mo d
         | inl e =>
             (exists r c, r ∈ surviving_rows sc ev mo d /\ c ∈ sc
                          /\ score_to_float float_repr (cell_at r c) = inl e)
             \/ (e = AttributeError (PStr "Can only use .str accessor with string values!")
                 /\ surviving_rows sc ev mo d = [])
         end)
  /\ (label <$> surviving_rows score_columns evaluation_column modality_column three_studies
      = [0; 2]%nat
      /\ match (run three_studies).1 with
         | inr (scores, modalities) =>
             label <$> rows scores = [0; 2]%nat
             /\ modalities = [(0%nat, Str "MRI+PET"); (2%nat, Str "MRI")]
         | inl _ => False
         end).
Proof.
  split.
  - intros float_repr h df d sc ev mo Hdf Hcols Hwt.
    split; [apply surviving_rows_spec|].
    pose proof (preprocess_outcome float_repr h df d sc ev mo Hdf Hcols) as Hout.
    destruct (metric_accessor sc ev mo d) as [e|evs] eqn:Eacc.
    + rewrite Hout. right.
      destruct (metric_accessor_refused sc ev mo d e Eacc) as [-> Hnone]. auto.
    + destruct (preprocess_performance_data float_repr df sc ev mo h).1
        as [e|[scores modalities]]; [by left|].
      destruct Hout as (_ & Hs & Hm). split.
      * symmetry. apply list_eq_Forall2, Forall2_fmap.
        eapply Forall2_impl; [exact Hs|]. by intros r o [-> _].
      * symmetry. apply list_eq_Forall2, Forall2_fmap.
        eapply Forall2_impl; [exact Hm|]. by intros r m [-> _].
  - split; [vm_compute; reflexivity|]. vm_compute. split; reflexivity.
Qed.

Lemma auc_rows_retained_witness :
  match (run three_studies).1 with
  | inr (scores, modalities) =>
      label <$> rows scores
      = label <$> surviving_rows score_columns evaluation_column modality_column three_studies
      /\ modalities.*1
         = label <$> surviving_rows score_columns evaluation_column modality_column three_studies
  | inl e =>
      (exists r c,
          r ∈ surviving_rows score_columns evaluation_column modality_column three_studies
          /\ c ∈ score_columns
          /\ score_to_float exact_repr (cell_at r c) = inl e)
      \/ (e = AttributeError (PStr "Can only use .str accessor with string values!")
          /\ surviving_rows score_columns evaluation_column modality_column three_studies = [])
  end.
Proof.
  assert (store_of three_studies !! 1%positive = Some three_studies) as Hdf
    by reflexivity.
  assert (forall c, c ∈ score_columns ++ [evaluation_column; modality_column] ->
                    c ∈ columns three_studies) as Hcols
    by (apply absent_nil_iff; reflexivity).
  pose proof (proj1 auc_rows_retained exact_repr (store_of three_studies) 1%positive
                three_studies score_columns evaluation_column modality_column
                Hdf Hcols three_studies_well_typed) as [_ H].
  exact H.
Defined.

(** C3. Row alignment.  Whenever the performance preprocessor returns,
    the score DataFrame (whose columns are the score series) and the
    modality Series have the same length and the same index labels,
    position by position, and position [i] of each comes from the [i]-th
    surviving input row: it carries that row's label, the scores are
    that row's score cells converted to float, and the modality is that
    row's modality cell.  Otherwise the call raises (a surviving score
    that is no number, or an evaluation-metric column the string
    accessor refuses) and returns nothing. *)
Theorem row_alignment :
  (forall (float_repr : float -> string) (h : gmap positive DataFrame) (df : positive)
          (d : DataFrame) (sc : list string) (ev mo : string),
      h !! df = Some d ->
      (forall c, c ∈ sc ++ [ev; mo] -> c ∈ columns d) ->
      match (preprocess_performance_data float_repr df sc ev mo h).1 with
      | inr (scores, modalities) =>
          columns scores = sc
          /\ length (rows scores) = length modalities
          /\ length modalities = length (surviving_rows sc ev mo d)
          /\ (forall c, (column scores c).*1 = modalities.*1)
          /\ (forall i r, surviving_rows sc ev mo d !! i = Some r ->
                exists o m,
                  rows scores !! i = Some o /\ modalities !! i = Some m
                  /\ label o = label r /\ m.1 = label r
                  /\ (forall c, c ∈ sc ->
                        score_to_float float_repr (cell_at r c) = inr (cell_at o c))
                  /\ (mo ∉ sc -> m.2 = cell_at r mo))
      | inl e =>
          (exists r c, r ∈ surviving_rows sc ev mo d /\ c ∈ sc
                       /\ score_to_float float_repr (cell_at r c) = inl e)
          \/ metric_accessor sc ev mo d = inl e
      end)
  /\ (label <$> surviving_rows score_columns evaluation_column modality_column three_studies
      = [0; 2]%nat
      /\ match (run three_studies).1 with
         | inr (scores, modalities) =>
             score_table scores
             = [(0%nat, Num 0.72%float, Num 0.81%float);
                (2%nat, Num 0.7%float, Num 0.75%float)]
             /\ modalities = [(0%nat, Str "MRI+PET"); (2%nat, Str "MRI")]
         | inl _ => False
         end).
Proof.
  split.
  - intros float_repr h df d sc ev mo Hdf Hcols.
    pose proof (preprocess_outcome float_repr h df d sc ev mo Hdf Hcols) as Hout.
    destruct (metric_accessor sc ev mo d) as [e|evs] eqn:Eacc.
    { rewrite Hout. by right. }
    destruct (preprocess_performance_data float_repr df sc ev mo h).1
      as [e|[scores modalities]]; [by left|].
    destruct Hout as (Hc & Hs & Hm).
    pose proof (Forall2_length _ _ _ Hs) as Hls.
    pose proof (Forall2_length _ _ _ Hm) as Hlm.
    split; [done|]. split; [congruence|]. split; [done|]. split.
    + intros c. unfold column. rewrite <- list_fmap_compose.
      transitivity (label <$> surviving_rows sc ev mo d).
      * symmetry. apply list_eq_Forall2, Forall2_fmap.
        eapply Forall2_impl; [exact Hs|]. intros r o [Hl _]. simpl. by rewrite Hl.
      * apply list_eq_Forall2, Forall2_fmap.
        eapply Forall2_impl; [exact Hm|]. by intros r m [-> _].
    + intros i r Hr.
      destruct (Forall2_lookup_l _ _ _ _ _ Hs Hr) as (o & Ho & Hlo & Hco).
      destruct (Forall2_lookup_l _ _ _ _ _ Hm Hr) as (m & Hmi & Hlm' & Hmo & _).
      by exists o, m.
  - split; [vm_compute; reflexivity|]. vm_compute. split; reflexivity.
Qed.

Lemma row_alignment_witness :
  match (run three_studies).1 with
  | inr (scores, modalities) =>
      columns scores = score_columns
      /\ length (rows scores) = length modalities
      /\ length modalities
         = length (surviving_rows score_columns evaluation_column modality_column three_studies)
      /\ (forall c, (column scores c).*1 = modalities.*1)
      /\ (forall i r,
            surviving_rows score_columns evaluation_column modality_column three_studies !! i
            = Some r ->
            exists o m,
              rows scores !! i = Some o /\ modalities !! i = Some m
              /\ label o = label r /\ m.1 = label r
              /\ (forall c, c ∈ score_columns ->
                    score_to_float exact_repr (cell_at r c) = inr (cell_at o c))
              /\ (modality_column ∉ score_columns -> m.2 = cell_at r modality_column))
  | inl e =>
      (exists r c,
          r ∈ surviving_rows score_columns evaluation_column modality_column three_studies
          /\ c ∈ score_columns
          /\ score_to_float exact_repr (cell_at r c) = inl e)
      \/ metric_accessor score_columns evaluation_column modality_column three_studies = inl e
  end.
Proof.
  assert (store_of three_studies !! 1%positive = Some three_studies) as Hdf
    by reflexivity.
  assert (forall c, c ∈ score_columns ++ [evaluation_column; modality_column] ->
                    c ∈ columns three_studies) as Hcols
    by (apply absent_nil_iff; reflexivity).
  exact (proj1 row_alignment exact_repr (store_of three_studies) 1%positive
           three_studies score_columns evaluation_column modality_column Hdf Hcols).
Defined.

Lemma no_metric_studies_well_typed : well_typed no_metric_studies.
Proof.
  intros r c Hr Hdt. unfold dtype_of, no_metric_studies in Hdt. simpl in Hdt.
  destruct (decide (c = "evaluation_metric")) as [->|Hne].
  - simpl in Hr. repeat (apply elem_of_cons in Hr as [->|Hr]); [..|by inversion Hr];
      eexists; vm_compute; reflexivity.
  - by rewrite lookup_singleton_ne in Hdt.
Qed.




(** C10. The performance preprocessor does not mutate its input: after
    the call, whether it returned or raised, every DataFrame that
    existed before the call, the caller's among them, is in the store
    with the rows, columns and cells it had.  The drop and the filter
    build new objects, and the converted scores are assigned into the
    object the filter built: on the three example studies the caller's
    DataFrame at reference 1 still holds the text "0,72", while the
    object at reference 3 holds the float 0.72. *)
Theorem input_not_mutated :
  (forall (float_repr : float -> string) (h : gmap positive DataFrame) (df : positive)
          (sc : list string) (ev mo : string),
      h ⊆ (preprocess_performance_data float_repr df sc ev mo h).2
      /\ (preprocess_performance_data float_repr df sc ev mo h).2 !! df = h !! df)
  /\ ((run three_studies).2 !! 1%positive = Some three_studies
      /\ score_table three_studies
         = [(0%nat, Str "0,72", Num 0.81%float); (1%nat, Str "0.60", Num 0.65%float);
            (2%nat, Str "0.7", Num 0.75%float)]
      /\ (score_table <$> (run three_studies).2 !! 3%positive)
         = Some [(0%nat, Num 0.72%float, Num 0.81%float);
                 (2%nat, Num 0.7%float, Num 0.75%float)]).
Proof.
  split.
  - intros float_repr h df sc ev mo.
    pose proof (preprocess_store_extends float_repr h df sc ev mo) as Hext.
    split; [done|].
    destruct (h !! df) as [d|] eqn:Hdf.
    + by eapply lookup_weaken.
    + unfold preprocess_performance_data.
      cbv [bind load lift new store ret]. by rewrite Hdf.
  - split; [|split]; vm_compute; reflexivity.
Qed.

(** ** Text that is no number *)

Lemma strip_commas (s : string) :
  all_plain (str_replace comma period s) = true -> strip s = s.
Proof.
  intros Hs. unfold strip.
  assert (forall t, all_plain (str_replace comma period t) = true -> rstrip t = t) as Hr.
  { induction t as [|c t IH]; [done|]. simpl.
    intros [Hc Ht]%andb_true_iff. rewrite (IH Ht).
    assert (is_space c = false) as ->; [|by destruct t].
    destruct (Ascii.eqb c comma) eqn:Ec.
    - apply Ascii.eqb_eq in Ec as ->. reflexivity.
    - unfold plain in Hc. by destruct (is_space c). }
  assert (lstrip s = s) as ->; [|by apply Hr].
  destruct s as [|c s]; [done|]. simpl in *.
  apply andb_true_iff in Hs as [Hc _].
  destruct (Ascii.eqb c comma) eqn:Ec.
  - apply Ascii.eqb_eq in Ec as ->. reflexivity.
  - unfold plain in Hc. by destruct (is_space c).
Qed.

Lemma strip_underscores_commas (s : string) (prev : option ascii) :
  all_plain (str_replace comma period s) = true ->
  match prev with Some p => Ascii.eqb p underscore = false | None => True end ->
  strip_underscores prev s = Some s.
Proof.
  revert prev. induction s as [|c s IH]; intros prev Hs Hp.
  - simpl. destruct prev as [p|]; [by rewrite Hp|done].
  - simpl in *. apply andb_true_iff in Hs as [Hc Hs].
    assert (Ascii.eqb c underscore = false) as Hcu.
    { destruct (Ascii.eqb c comma) eqn:Ec.
      - apply Ascii.eqb_eq in Ec as ->. reflexivity.
      - unfold plain in Hc. by destruct (Ascii.eqb c underscore), (is_space c). }
    rewrite Hcu.
    assert ((match prev with Some p => Ascii.eqb p underscore | None => false end) = false)
      as -> by (destruct prev as [p|]; done).
    simpl. by rewrite (IH (Some c) Hs Hcu).
Qed.

Lemma digit_not_sign (c : ascii) (rest : string) :
  is_digit c = true \/ c = comma \/ c = period ->
  Ascii.eqb c minus_sign = false /\ Ascii.eqb c plus_sign = false.
Proof.
  intros [Hc%is_digit_range|[->| ->]]; [|done|done].
  split; [apply (ascii_eqb_code _ _ 45)|apply (ascii_eqb_code _ _ 43)]; done || lia.
Qed.

(** [float] refuses a numeral written with a comma. *)
Lemma python_float_comma (sg : sign) (ip fp : string) :
  all_digits ip = true -> all_digits fp = true ->
  python_float (numeral comma sg ip fp) = None.
Proof.
  intros Hi Hf. unfold python_float.
  assert (all_plain (str_replace comma period (numeral comma sg ip fp)) = true) as Hp.
  { rewrite numeral_comma_to_period by done. by apply numeral_period_plain. }
  rewrite strip_commas by exact Hp.
  rewrite (strip_underscores_commas _ None Hp I).
  unfold float_from_string_inner, strtod, parse_inf_or_nan, numeral.
  rewrite take_sign_numeral.
  2:{ destruct ip as [|c ip].
      - rewrite append_nil_l. apply (digit_not_sign comma ""). auto.
      - rewrite append_cons. simpl in Hi. apply andb_true_iff in Hi as [Hc _].
        apply (digit_not_sign c ""). by left. }
  rewrite span_digits_app by done.
  change (Ascii.eqb comma period) with false. cbv iota.
  rewrite append_nil_r.
  destruct ip as [|c ds]; [|reflexivity].
  rewrite append_nil_l. reflexivity.
Qed.

(** [float] refuses a numeral with two decimal marks. *)
Lemma python_float_two_marks (sg : sign) (ip fp gp : string) :
  all_digits ip = true -> all_digits fp = true -> all_digits gp = true ->
  python_float (numeral period sg ip (fp +:+ String period gp)) = None.
Proof.
  intros Hi Hf Hg. unfold python_float.
  assert (all_plain (numeral period sg ip (fp +:+ String period gp)) = true) as Hp.
  { unfold numeral. rewrite !all_plain_app. simpl. rewrite all_plain_app. simpl.
    rewrite (all_digits_plain ip Hi), (all_digits_plain fp Hf), (all_digits_plain gp Hg).
    by destruct sg. }
  rewrite strip_plain, strip_underscores_plain by done.
  unfold float_from_string_inner, strtod, parse_inf_or_nan, numeral.
  rewrite take_sign_numeral.
  2:{ destruct ip as [|c ip].
      - rewrite append_nil_l. apply (digit_not_sign period ""). auto.
      - rewrite append_cons. simpl in Hi. apply andb_true_iff in Hi as [Hc _].
        apply (digit_not_sign c ""). by left. }
  rewrite span_digits_app by done.
  change (Ascii.eqb period period) with true. cbv iota.
  rewrite span_digits_app by done.
  destruct (ip +:+ fp) as [|c ds] eqn:E; [|reflexivity].
  destruct ip as [|c ip]; [|done]. rewrite append_nil_l. reflexivity.
Qed.

(** ** Further properties of the performance preprocessor *)

Lemma filter_all {A} (P : A -> Prop) `{forall x, Decision (P x)} (l : list A) :
  (forall x, x ∈ l -> P x) -> filter P l = l.
Proof.
  induction l as [|x l IH]; intros Hall; [done|].
  rewrite filter_cons_True by apply Hall, list_elem_of_here.
  f_equal. apply IH. intros y Hy. by apply Hall, list_elem_of_further.
Qed.

Lemma forallb_false_elem {A} (f : A -> bool) (l : list A) :
  forallb f l = false -> exists x, x ∈ l /\ f x = false.
Proof.
  induction l as [|x l IH]; simpl; [done|].
  destruct (f x) eqn:Ex; simpl.
  - intros (y & Hy & Hf)%IH. exists y. split; [by apply list_elem_of_further|done].
  - intros _. exists x. split; [apply list_elem_of_here|done].
Qed.

Lemma score_to_float_value (float_repr : float -> string) (c y : cell) :
  score_to_float float_repr c = inr y -> exists x, y = Num x.
Proof.
  unfold score_to_float, cell_astype_float.
  destruct (python_float _) as [x|]; [|done]. intros [= <-]. by exists x.
Qed.

Lemma score_to_float_error (float_repr : float -> string) (c : cell) (e : exn) :
  score_to_float float_repr c = inl e ->
  e = ValueError (PStr (str_replace comma period (astype_str float_repr c)))
  /\ python_float (str_replace comma period (astype_str float_repr c)) = None.
Proof.
  unfold score_to_float, cell_astype_float.
  destruct (python_float _) as [x|]; [done|]. by intros [= <-].
Qed.

(** The string accessor accepts the evaluation column exactly when the
    column has dtype object and, among the rows with no missing value
    in the designated columns, there is none or one whose metric is
    text. *)
Lemma metric_accessor_accepts (sc : list string) (ev mo : string) (d : DataFrame) :
  (exists evs, metric_accessor sc ev mo d = inr evs)
  <-> dtype_of d ev = object
      /\ (complete_rows sc ev mo d = []
          \/ exists r t, r ∈ complete_rows sc ev mo d /\ cell_at r ev = Str t).
Proof.
  unfold metric_accessor, str_accessor. cbv zeta.
  destruct (dtype_of d ev); [|split; [by intros [? ?]|by intros [? _]]].
  set (s := (fun r => (label r, cell_at r ev)) <$> complete_rows sc ev mo d).
  assert (filter (fun x : nat * cell => isna x.2 = false) s = s) as Hall.
  { apply filter_all. intros p (r & -> & Hr)%list_elem_of_fmap. simpl.
    apply list_elem_of_filter in Hr as [Hna _].
    unfold no_missing in Hna. rewrite forallb_forall in Hna.
    apply negb_true_iff, Hna, list_elem_of_In.
    apply elem_of_app. right. apply list_elem_of_here. }
  rewrite Hall.
  destruct s as [|p l] eqn:Es.
  - split; [|by eexists]. intros _. split; [done|]. left.
    subst s. by apply fmap_nil_inv in Es.
  - destruct (forallb _ (p :: l)) eqn:Hf.
    + split; [by intros [? ?]|]. intros [_ [Hnil|(r & t & Hr & Ht)]].
      * subst s. by rewrite Hnil in Es.
      * rewrite forallb_forall in Hf.
        assert ((label r, cell_at r ev) ∈ p :: l) as Hin.
        { rewrite <- Es. subst s. apply list_elem_of_fmap. by exists r. }
        apply list_elem_of_In, Hf in Hin. simpl in Hin. by rewrite Ht in Hin.
    + split; [|by eexists]. intros _. split; [done|]. right.
      apply forallb_false_elem in Hf as (q & Hq & Hfq).
      rewrite <- Es in Hq. subst s.
      apply list_elem_of_fmap in Hq as (r & -> & Hr). simpl in Hfq.
      destruct (cell_at r ev) as [t|x] eqn:Ht; [|done]. by exists r, t.
Qed.

(** X1. When a designated column is absent, the performance
    preprocessor raises the [KeyError] of [dropna], whose argument lists
    the absent designated columns, all of them and in the order score
    columns, evaluation column, modality column; no object is created
    and the store is left as it was. *)
Theorem preprocess_missing_column_raises
    (float_repr : float -> string) (h : gmap positive DataFrame) (df : positive)
    (d : DataFrame) (sc : list string) (ev mo : string) :
  h !! df = Some d ->
  absent d (sc ++ [ev; mo]) <> [] ->
  preprocess_performance_data float_repr df sc ev mo h
  = (inl (KeyError (PList (absent d (sc ++ [ev; mo])))), h)
  /\ forall c, c ∈ absent d (sc ++ [ev; mo]) <-> c ∈ sc ++ [ev; mo] /\ c ∉ columns d.
Proof.
  intros Hdf Habs. split.
  - unfold preprocess_performance_data. cbv [bind load lift new store ret].
    rewrite Hdf. unfold dropna.
    by destruct (absent d (sc ++ [ev; mo])).
  - intros c. unfold absent. rewrite list_elem_of_filter. tauto.
Qed.

Lemma preprocess_missing_column_raises_witness :
  preprocess_performance_data exact_repr 1%positive score_columns "metric" modality_column
    (store_of three_studies)
  = (inl (KeyError (PList (absent three_studies
                             (score_columns ++ ["metric"; modality_column])))),
     store_of three_studies)
  /\ forall c, c ∈ absent three_studies (score_columns ++ ["metric"; modality_column])
               <-> c ∈ score_columns ++ ["metric"; modality_column]
                   /\ c ∉ columns three_studies.
Proof.
  assert (store_of three_studies !! 1%positive = Some three_studies) as Hdf
    by reflexivity.
  assert (absent three_studies (score_columns ++ ["metric"; modality_column]) <> [])
    as Habs by (vm_compute; discriminate).
  exact (preprocess_missing_column_raises exact_repr (store_of three_studies) 1%positive
           three_studies score_columns "metric" modality_column Hdf Habs).
Defined.

(** X2. With the designated columns present, the performance
    preprocessor returns if and only if the string accessor accepts the
    evaluation column (dtype object; among the rows with no missing
    designated value there is none, or one whose metric is text) and
    every score of every surviving row is, once its commas are replaced,
    a number [float] reads.  Scores of rows that are dropped or filtered
    out are never converted and cannot make the call fail. *)
Theorem preprocess_returns_iff
    (float_repr : float -> string) (h : gmap positive DataFrame) (df : positive)
    (d : DataFrame) (sc : list string) (ev mo : string) :
  h !! df = Some d ->
  (forall c, c ∈ sc ++ [ev; mo] -> c ∈ columns d) ->
  (exists out, (preprocess_performance_data float_repr df sc ev mo h).1 = inr out)
  <-> (dtype_of d ev = object
       /\ (complete_rows sc ev mo d = []
           \/ exists r t, r ∈ complete_rows sc ev mo d /\ cell_at r ev = Str t))
      /\ forall r c, r ∈ surviving_rows sc ev mo d -> c ∈ sc ->
           exists x, python_float (str_replace comma period
                                     (astype_str float_repr (cell_at r c))) = Some x.
Proof.
  intros Hdf Hcols.
  pose proof (preprocess_outcome float_repr h df d sc ev mo Hdf Hcols) as Hout.
  rewrite <- metric_accessor_accepts.
  destruct (metric_accessor sc ev mo d) as [e|evs] eqn:Eacc.
  { rewrite Hout. split; [by intros [? ?]|by intros [[? ?] _]]. }
  destruct (preprocess_performance_data float_repr df sc ev mo h).1
    as [e|[scores modalities]].
  - split; [by intros [? ?]|]. intros [_ Hall].
    destruct Hout as (r & c & Hr & Hc & He).
    destruct (Hall r c Hr Hc) as [x Hx].
    apply score_to_float_error in He as [_ He]. congruence.
  - split; [|by eexists]. intros _. split; [by eexists|].
    intros r c Hr Hc. destruct Hout as (_ & Hs & _).
    apply list_elem_of_lookup in Hr as [i Hi].
    destruct (Forall2_lookup_l _ _ _ _ _ Hs Hi) as (o & _ & _ & Hconv).
    specialize (Hconv c Hc). unfold score_to_float, cell_astype_float in Hconv.
    destruct (python_float _) as [x|]; [by exists x|done].
Qed.

Lemma preprocess_returns_iff_witness :
  (exists out, (run three_studies).1 = inr out)
  <-> (dtype_of three_studies evaluation_column = object
       /\ (complete_rows score_columns evaluation_column modality_column three_studies = []
           \/ exists r t,
                r ∈ complete_rows score_columns evaluation_column modality_column
                      three_studies
                /\ cell_at r evaluation_column = Str t))
      /\ forall r c,
           r ∈ surviving_rows score_columns evaluation_column modality_column three_studies ->
           c ∈ score_columns ->
           exists x, python_float (str_replace comma period
                                     (astype_str exact_repr (cell_at r c))) = Some x.
Proof.
  assert (store_of three_studies !! 1%positive = Some three_studies) as Hdf
    by reflexivity.
  assert (forall c, c ∈ score_columns ++ [evaluation_column; modality_column] ->
                    c ∈ columns three_studies) as Hcols
    by (apply absent_nil_iff; reflexivity).
  exact (preprocess_returns_iff exact_repr (store_of three_studies) 1%positive
           three_studies score_columns evaluation_column modality_column Hdf Hcols).
Defined.

Lemma validate_dataframe_passes (d : DataFrame) (cs : list string) :
  validate_dataframe d cs = inr tt -> forall c, c ∈ cs -> c ∈ columns d.
Proof.
  unfold validate_dataframe. cbv zeta.
  destruct (filter _ cs) as [|x l] eqn:E; [|done].
  intros _. apply absent_nil_iff. exact E.
Qed.

(** X3. Validation composes with preprocessing as [main] of
    [scatterplot_perf_comparison.py] runs them: once
    [validate_dataframe] has accepted the four designated columns,
    [preprocess_data] never raises [KeyError].  If it raises at all, it
    is the [AttributeError] of the string accessor, or the [ValueError]
    of a surviving row's score that no number can be read from, whose
    argument is the score text after the commas are replaced. *)
Theorem validated_preprocess_errors
    (float_repr : float -> string) (h : gmap positive DataFrame) (df : positive)
    (d : DataFrame) (sc : list string) (ev mo : string) (e : exn) :
  h !! df = Some d ->
  validate_dataframe d (sc ++ [ev; mo]) = inr tt ->
  (preprocess_data float_repr df sc ev mo h).1 = inl e ->
  e = AttributeError (PStr "Can only use .str accessor with string values!")
  \/ exists r c,
       r ∈ surviving_rows sc ev mo d /\ c ∈ sc
       /\ python_float (str_replace comma period (astype_str float_repr (cell_at r c)))
          = None
       /\ e = ValueError (PStr (str_replace comma period
                                  (astype_str float_repr (cell_at r c)))).
Proof.
  intros Hdf Hval. unfold preprocess_data.
  pose proof (validate_dataframe_passes d _ Hval) as Hcols.
  pose proof (preprocess_outcome float_repr h df d sc ev mo Hdf Hcols) as Hout.
  destruct (metric_accessor sc ev mo d) as [e'|evs] eqn:Eacc.
  - rewrite Hout. intros [= <-]. left.
    by destruct (metric_accessor_refused sc ev mo d e' Eacc) as [-> _].
  - destruct (preprocess_performance_data float_repr df sc ev mo h).1
      as [e'|[scores modalities]]; [|done].
    intros [= <-]. right. destruct Hout as (r & c & Hr & Hc & He).
    apply score_to_float_error in He as [-> Hnone]. by exists r, c.
Qed.

Lemma validated_preprocess_errors_witness :
  ValueError (PStr "1.234.5")
  = AttributeError (PStr "Can only use .str accessor with string values!")
  \/ exists r c,
       r ∈ surviving_rows score_columns evaluation_column modality_column separator_studies
       /\ c ∈ score_columns
       /\ python_float (str_replace comma period (astype_str exact_repr (cell_at r c)))
          = None
       /\ ValueError (PStr "1.234.5")
          = ValueError (PStr (str_replace comma period
                                (astype_str exact_repr (cell_at r c)))).
Proof.
  assert (store_of separator_studies !! 1%positive = Some separator_studies) as Hdf
    by reflexivity.
  assert (validate_dataframe separator_studies
            (score_columns ++ [evaluation_column; modality_column]) = inr tt) as Hval
    by (vm_compute; reflexivity).
  assert ((preprocess_data exact_repr 1%positive score_columns evaluation_column
             modality_column (store_of separator_studies)).1
          = inl (ValueError (PStr "1.234.5"))) as Hraise
    by (vm_compute; reflexivity).
  exact (validated_preprocess_errors exact_repr (store_of separator_studies) 1%positive
           separator_studies score_columns evaluation_column modality_column _
           Hdf Hval Hraise).
Defined.

Lemma float_values_Some (s : list (nat * cell)) (xs : list float) :
  float_values s = Some xs <-> Forall2 (fun p x => p.2 = Num x) s xs.
Proof.
  unfold float_values. rewrite mapM_Some. split.
  - intros Hf. eapply Forall2_impl; [exact Hf|]. intros [l v] x. simpl.
    destruct v; [done|congruence].
  - intros Hf. eapply Forall2_impl; [exact Hf|]. intros [l v] x. simpl.
    by intros ->.
Qed.

Lemma float_values_total (s : list (nat * cell)) :
  Forall (fun p => exists x, p.2 = Num x) s -> exists xs, float_values s = Some xs.
Proof.
  induction 1 as [|p s' [x Hx] Hs' [xs Hxs]].
  - exists []. by apply float_values_Some.
  - exists (x :: xs). apply float_values_Some.
    constructor; [done|by apply float_values_Some].
Qed.

(** X4. What the performance preprocessor returns holds no text and
    no gap in the modalities: every returned score is a float, and every
    returned modality is present (not missing) and is the surviving
    row's own modality cell, provided the modality column is not also a
    score column. *)
Theorem returned_scores_are_floats
    (float_repr : float -> string) (h : gmap positive DataFrame) (df : positive)
    (d : DataFrame) (sc : list string) (ev mo : string)
    (scores : DataFrame) (modalities : list (nat * cell)) :
  h !! df = Some d ->
  (forall c, c ∈ sc ++ [ev; mo] -> c ∈ columns d) ->
  (preprocess_performance_data float_repr df sc ev mo h).1 = inr (scores, modalities) ->
  (forall o c, o ∈ rows scores -> c ∈ sc -> exists x, cell_at o c = Num x)
  /\ (forall c, c ∈ sc -> exists xs, float_values (column scores c) = Some xs)
  /\ (mo ∉ sc ->
      forall m, m ∈ modalities ->
        isna m.2 = false
        /\ exists r, r ∈ surviving_rows sc ev mo d /\ m = (label r, cell_at r mo)).
Proof.
  intros Hdf Hcols Hret.
  pose proof (preprocess_outcome float_repr h df d sc ev mo Hdf Hcols) as Hout.
  destruct (metric_accessor sc ev mo d) as [e|evs]; [congruence|].
  rewrite Hret in Hout. destruct Hout as (_ & Hs & Hm).
  assert (forall o c, o ∈ rows scores -> c ∈ sc -> exists x, cell_at o c = Num x) as Hnum.
  { intros o c [i Hi]%list_elem_of_lookup Hc.
    destruct (Forall2_lookup_r _ _ _ _ _ Hs Hi) as (r & _ & _ & Hconv).
    exact (score_to_float_value _ _ _ (Hconv c Hc)). }
  split; [done|]. split.
  - intros c Hc. apply float_values_total. unfold column.
    apply Forall_fmap, Forall_forall. intros o Ho. simpl. by apply Hnum.
  - intros Hmo m [i Hi]%list_elem_of_lookup.
    destruct (Forall2_lookup_r _ _ _ _ _ Hm Hi) as (r & Hr & Hl & Hv & _).
    specialize (Hv Hmo).
    assert (r ∈ surviving_rows sc ev mo d) as Hin by by eapply list_elem_of_lookup_2.
    split.
    + rewrite Hv. apply surviving_rows_spec in Hin as (_ & Hna & _).
      apply Hna, elem_of_app. right. apply list_elem_of_further, list_elem_of_here.
    + exists r. split; [done|]. destruct m as [l v]. simpl in *. congruence.
Qed.

Lemma returned_scores_are_floats_witness :
  (forall o c, o ∈ rows three_studies_scores -> c ∈ score_columns ->
               exists x, cell_at o c = Num x)
  /\ (forall c, c ∈ score_columns ->
                exists xs, float_values (column three_studies_scores c) = Some xs)
  /\ (modality_column ∉ score_columns ->
      forall m, m ∈ three_studies_modalities ->
        isna m.2 = false
        /\ exists r,
             r ∈ surviving_rows score_columns evaluation_column modality_column
                   three_studies
             /\ m = (label r, cell_at r modality_column)).
Proof.
  assert (store_of three_studies !! 1%positive = Some three_studies) as Hdf
    by reflexivity.
  assert (forall c, c ∈ score_columns ++ [evaluation_column; modality_column] ->
                    c ∈ columns three_studies) as Hcols
    by (apply absent_nil_iff; reflexivity).
  assert ((run three_studies).1 = inr (three_studies_scores, three_studies_modalities))
    as Hret by (vm_compute; reflexivity).
  exact (returned_scores_are_floats exact_repr (store_of three_studies) 1%positive
           three_studies score_columns evaluation_column modality_column
           three_studies_scores three_studies_modalities Hdf Hcols Hret).
Defined.

(** X5. The missing values are dropped before the scores are
    converted, so a score given as text that [float] reads as NaN (the
    text [nan], in any letter case) is not dropped: its row survives,
    and the returned score is a missing value. *)
Theorem nan_text_is_returned_missing
    (float_repr : float -> string) (h : gmap positive DataFrame) (df : positive)
    (d : DataFrame) (sc : list string) (ev mo : string)
    (scores : DataFrame) (modalities : list (nat * cell))
    (i : nat) (r : row) (c t : string) (x : float) :
  h !! df = Some d ->
  (forall c, c ∈ sc ++ [ev; mo] -> c ∈ columns d) ->
  (preprocess_performance_data float_repr df sc ev mo h).1 = inr (scores, modalities) ->
  surviving_rows sc ev mo d !! i = Some r ->
  c ∈ sc ->
  cell_at r c = Str t ->
  python_float (str_replace comma period t) = Some x ->
  PrimFloat.is_nan x = true ->
  isna (cell_at r c) = false
  /\ exists o, rows scores !! i = Some o
               /\ label o = label r
               /\ cell_at o c = Num x
               /\ isna (cell_at o c) = true.
Proof.
  intros Hdf Hcols Hret Hr Hc Ht Hx Hnan.
  pose proof (preprocess_outcome float_repr h df d sc ev mo Hdf Hcols) as Hout.
  destruct (metric_accessor sc ev mo d) as [e|evs]; [congruence|].
  rewrite Hret in Hout. destruct Hout as (_ & Hs & _).
  split; [by rewrite Ht|].
  destruct (Forall2_lookup_l _ _ _ _ _ Hs Hr) as (o & Ho & Hl & Hconv).
  exists o. split; [done|]. split; [done|].
  specialize (Hconv c Hc). rewrite Ht in Hconv.
  unfold score_to_float, cell_astype_float in Hconv. simpl in Hconv.
  rewrite Hx in Hconv. injection Hconv as <-. by split.
Qed.

Lemma nan_text_is_returned_missing_witness :
  isna (cell_at (study 0 (Str "nan") (Str "0,81") (Str "AUC") (Str "MRI"))
                "unimodal_best_score") = false
  /\ exists o, rows {| columns := score_columns;
                       dtypes := {[ "unimodal_best_score" := float64;
                                    "multimodal_best_score" := float64 ]};
                       rows := [ score_row 0 PrimFloat.nan 0.81;
                                 score_row 1 0.6 0.65 ] |} !! 0%nat = Some o
               /\ label o
                  = label (study 0 (Str "nan") (Str "0,81") (Str "AUC") (Str "MRI"))
               /\ cell_at o "unimodal_best_score" = Num PrimFloat.nan
               /\ isna (cell_at o "unimodal_best_score") = true.
Proof.
  assert (store_of nan_text_studies !! 1%positive = Some nan_text_studies) as Hdf
    by reflexivity.
  assert (forall c, c ∈ score_columns ++ [evaluation_column; modality_column] ->
                    c ∈ columns nan_text_studies) as Hcols
    by (apply absent_nil_iff; reflexivity).
  assert ((run nan_text_studies).1
          = inr ({| columns := score_columns;
                    dtypes := {[ "unimodal_best_score" := float64;
                                 "multimodal_best_score" := float64 ]};
                    rows := [ score_row 0 PrimFloat.nan 0.81;
                              score_row 1 0.6 0.65 ] |},
                 [ (0%nat, Str "MRI"); (1%nat, Str "CT") ])) as Hret
    by (vm_compute; reflexivity).
  assert (surviving_rows score_columns evaluation_column modality_column nan_text_studies
            !! 0%nat
          = Some (study 0 (Str "nan") (Str "0,81") (Str "AUC") (Str "MRI"))) as Hr
    by (vm_compute; reflexivity).
  assert ("unimodal_best_score" ∈ score_columns) as Hc by apply list_elem_of_here.
  assert (cell_at (study 0 (Str "nan") (Str "0,81") (Str "AUC") (Str "MRI"))
            "unimodal_best_score" = Str "nan") as Ht by (vm_compute; reflexivity).
  assert (python_float (str_replace comma period "nan") = Some PrimFloat.nan) as Hx
    by (vm_compute; reflexivity).
  assert (PrimFloat.is_nan PrimFloat.nan = true) as Hnan by (vm_compute; reflexivity).
  exact (nan_text_is_returned_missing exact_repr (store_of nan_text_studies) 1%positive
           nan_text_studies score_columns evaluation_column modality_column
           _ _ 0%nat _ "unimodal_best_score" "nan" PrimFloat.nan
           Hdf Hcols Hret Hr Hc Ht Hx Hnan).
Defined.

(** X6. A score with two decimal marks, such as a number written with
    a thousands separator, is no number: after both commas are replaced
    [float] refuses the text, the conversion raises [ValueError] with
    the text in its replaced form, and a surviving row holding such a
    score makes the whole call raise. *)
Theorem thousands_separator_is_rejected
    (float_repr : float -> string) (sg : sign) (ip fp gp : string) :
  all_digits ip = true -> all_digits fp = true -> all_digits gp = true ->
  score_to_float float_repr (Str (numeral comma sg ip (fp +:+ String comma gp)))
  = inl (ValueError (PStr (numeral period sg ip (fp +:+ String period gp))))
  /\ forall (h : gmap positive DataFrame) (df : positive) (d : DataFrame)
            (sc : list string) (ev mo : string) (r : row) (c : string),
       h !! df = Some d ->
       (forall c, c ∈ sc ++ [ev; mo] -> c ∈ columns d) ->
       r ∈ surviving_rows sc ev mo d -> c ∈ sc ->
       cell_at r c = Str (numeral comma sg ip (fp +:+ String comma gp)) ->
       exists e, (preprocess_performance_data float_repr df sc ev mo h).1 = inl e.
Proof.
  intros Hi Hf Hg.
  assert (score_to_float float_repr (Str (numeral comma sg ip (fp +:+ String comma gp)))
          = inl (ValueError (PStr (numeral period sg ip (fp +:+ String period gp)))))
    as Hcell.
  { unfold score_to_float, cell_astype_float. simpl astype_str.
    assert (str_replace comma period (numeral comma sg ip (fp +:+ String comma gp))
            = numeral period sg ip (fp +:+ String period gp)) as ->.
    { unfold numeral. rewrite !str_replace_app. simpl. rewrite str_replace_app. simpl.
      rewrite (str_replace_plain ip (all_digits_plain ip Hi)),
        (str_replace_plain fp (all_digits_plain fp Hf)),
        (str_replace_plain gp (all_digits_plain gp Hg)).
      by destruct sg. }
    by rewrite python_float_two_marks. }
  split; [done|].
  intros h df d sc ev mo r c Hdf Hcols Hr Hc Ht.
  pose proof (preprocess_outcome float_repr h df d sc ev mo Hdf Hcols) as Hout.
  destruct (metric_accessor sc ev mo d) as [e|evs]; [by exists e|].
  destruct (preprocess_performance_data float_repr df sc ev mo h).1
    as [e|[scores modalities]]; [by exists e|].
  destruct Hout as (_ & Hs & _).
  apply list_elem_of_lookup in Hr as [i Hi'].
  destruct (Forall2_lookup_l _ _ _ _ _ Hs Hi') as (o & _ & _ & Hconv).
  specialize (Hconv c Hc). rewrite Ht, Hcell in Hconv. done.
Qed.

Lemma thousands_separator_is_rejected_witness :
  score_to_float exact_repr (Str (numeral comma NoSign "1" ("234" +:+ String comma "5")))
  = inl (ValueError (PStr (numeral period NoSign "1" ("234" +:+ String period "5"))))
  /\ forall (h : gmap positive DataFrame) (df : positive) (d : DataFrame)
            (sc : list string) (ev mo : string) (r : row) (c : string),
       h !! df = Some d ->
       (forall c, c ∈ sc ++ [ev; mo] -> c ∈ columns d) ->
       r ∈ surviving_rows sc ev mo d -> c ∈ sc ->
       cell_at r c = Str (numeral comma NoSign "1" ("234" +:+ String comma "5")) ->
       exists e, (preprocess_performance_data exact_repr df sc ev mo h).1 = inl e.
Proof.
  exact (thousands_separator_is_rejected exact_repr NoSign "1" "234" "5"
           eq_refl eq_refl eq_refl).
Defined.

(** ** From the table to the plot *)

(** X7. [main] passes the two columns of the returned scores, by
    position, to [create_performance_plot].  The number of studies the
    plot reports is then the number of input rows that survive the
    filter, which is also the number of modalities, and the [i]-th
    difference is the multimodal score minus the unimodal score of the
    [i]-th surviving row, each converted from its cell. *)
Theorem plot_statistics_from_rows
    (float_repr : float -> string) (h : gmap positive DataFrame) (df : positive)
    (d : DataFrame) (uni multi ev mo : string)
    (scores : DataFrame) (modalities : list (nat * cell)) :
  h !! df = Some d ->
  (forall c, c ∈ [uni; multi] ++ [ev; mo] -> c ∈ columns d) ->
  (preprocess_performance_data float_repr df [uni; multi] ev mo h).1
  = inr (scores, modalities) ->
  exists us ms : list float,
    iloc_column scores 0 ≫= float_values = Some us
    /\ iloc_column scores 1 ≫= float_values = Some ms
    /\ total_studies (create_performance_plot us ms)
       = length (surviving_rows [uni; multi] ev mo d)
    /\ length modalities = total_studies (create_performance_plot us ms)
    /\ Forall2 (fun r delta =>
                  exists x y,
                    score_to_float float_repr (cell_at r uni) = inr (Num x)
                    /\ score_to_float float_repr (cell_at r multi) = inr (Num y)
                    /\ delta = PrimFloat.sub y x)
         (surviving_rows [uni; multi] ev mo d) (deltas us ms).
Proof.
  intros Hdf Hcols Hret.
  pose proof (preprocess_outcome float_repr h df d [uni; multi] ev mo Hdf Hcols) as Hout.
  destruct (metric_accessor [uni; multi] ev mo d) as [e|evs]; [congruence|].
  rewrite Hret in Hout. destruct Hout as (Hc & Hs & Hm).
  assert (forall c, c ∈ [uni; multi] ->
            exists xs, float_values (column scores c) = Some xs
                       /\ Forall2 (fun r x =>
                                     score_to_float float_repr (cell_at r c) = inr (Num x))
                            (surviving_rows [uni; multi] ev mo d) xs) as Hcol.
  { intros c Hin.
    destruct (float_values_total (column scores c)) as [xs Hxs].
    { unfold column. apply Forall_fmap, Forall_forall. intros o [i Hi]%list_elem_of_lookup.
      destruct (Forall2_lookup_r _ _ _ _ _ Hs Hi) as (r & _ & _ & Hconv). simpl.
      exact (score_to_float_value _ _ _ (Hconv c Hin)). }
    exists xs. split; [done|].
    apply float_values_Some in Hxs. unfold column in Hxs.
    apply Forall2_fmap_l in Hxs.
    apply Forall2_same_length_lookup. split.
    - rewrite (Forall2_length _ _ _ Hs). by eapply Forall2_length.
    - intros i r x Hr Hx.
      destruct (Forall2_lookup_l _ _ _ _ _ Hs Hr) as (o & Ho & _ & Hconv).
      pose proof (Forall2_lookup_lr _ _ _ _ _ _ Hxs Ho Hx) as Hox. simpl in Hox.
      rewrite <- Hox. by apply Hconv. }
  destruct (Hcol uni) as (us & Hus & Fus); [apply list_elem_of_here|].
  destruct (Hcol multi) as (ms & Hms & Fms);
    [apply list_elem_of_further, list_elem_of_here|].
  exists us, ms.
  assert (length us = length (surviving_rows [uni; multi] ev mo d)) as Lus
    by (symmetry; by eapply Forall2_length).
  assert (length ms = length (surviving_rows [uni; multi] ev mo d)) as Lms
    by (symmetry; by eapply Forall2_length).
  unfold iloc_column. rewrite Hc. simpl.
  split; [done|]. split; [done|]. split; [done|].
  split; [by rewrite Lus, (Forall2_length _ _ _ Hm)|].
  unfold deltas. apply Forall2_same_length_lookup. split.
  - rewrite length_zip_with. lia.
  - intros i r delta Hr Hd.
    apply lookup_zip_with_Some in Hd as (y & x & -> & Hy & Hx).
    exists x, y.
    split; [exact (Forall2_lookup_lr _ _ _ _ _ _ Fus Hr Hx)|].
    split; [exact (Forall2_lookup_lr _ _ _ _ _ _ Fms Hr Hy)|done].
Qed.

Lemma plot_statistics_from_rows_witness :
  exists us ms : list float,
    iloc_column three_studies_scores 0 ≫= float_values = Some us
    /\ iloc_column three_studies_scores 1 ≫= float_values = Some ms
    /\ total_studies (create_performance_plot us ms)
       = length (surviving_rows ["unimodal_best_score"; "multimodal_best_score"]
                   evaluation_column modality_column three_studies)
    /\ length three_studies_modalities = total_studies (create_performance_plot us ms)
    /\ Forall2 (fun r delta =>
                  exists x y,
                    score_to_float exact_repr (cell_at r "unimodal_best_score")
                    = inr (Num x)
                    /\ score_to_float exact_repr (cell_at r "multimodal_best_score")
                       = inr (Num y)
                    /\ delta = PrimFloat.sub y x)
         (surviving_rows ["unimodal_best_score"; "multimodal_best_score"]
            evaluation_column modality_column three_studies)
         (deltas us ms).
Proof.
  assert (store_of three_studies !! 1%positive = Some three_studies) as Hdf
    by reflexivity.
  assert (forall c, c ∈ ["unimodal_best_score"; "multimodal_best_score"]
                        ++ [evaluation_column; modality_column] ->
                    c ∈ columns three_studies) as Hcols
    by (apply absent_nil_iff; reflexivity).
  assert ((preprocess_performance_data exact_repr 1%positive
             ["unimodal_best_score"; "multimodal_best_score"]
             evaluation_column modality_column (store_of three_studies)).1
          = inr (three_studies_scores, three_studies_modalities))
    as Hret by (vm_compute; reflexivity).
  exact (plot_statistics_from_rows exact_repr (store_of three_studies) 1%positive
           three_studies "unimodal_best_score" "multimodal_best_score"
           evaluation_column modality_column
           three_studies_scores three_studies_modalities Hdf Hcols Hret).
Defined.

(** ** The sample-size preprocessor *)

Lemma series_dropna_column (d : DataFrame) (c : string) :
  series_dropna ((fun r => (label r, cell_at r c)) <$> rows d)
  = (fun r => (label r, cell_at r c))
      <$> filter (fun r => isna (cell_at r c) = false) (rows d).
Proof.
  unfold series_dropna. induction (rows d) as [|r rs IH]; [done|].
  rewrite fmap_cons, !filter_cons. simpl.
  destruct (decide (isna (cell_at r c) = false)); [rewrite fmap_cons|]; by rewrite IH.
Qed.

Lemma sample_size_present (d : DataFrame) :
  "total_data" ∈ columns d ->
  preprocess_sample_size_data d
  = series_astype_float ((fun r => (label r, cell_at r "total_data")) <$> sized_rows d).
Proof.
  intros Hc. unfold preprocess_sample_size_data.
  rewrite decide_False by (intros Hn; by apply Hn).
  rewrite getitem_column_in by done. by rewrite series_dropna_column.
Qed.


Lemma sample_size_conversion (d : DataFrame) :
  "total_data" ∈ columns d ->
  (forall s, preprocess_sample_size_data d = inr s ->
     Forall2 (fun r p =>
                p.1 = label r
                /\ exists x, p.2 = Num x
                             /\ cell_astype_float (cell_at r "total_data") = inr (Num x))
       (sized_rows d) s)
  /\ (forall e, preprocess_sample_size_data d = inl e ->
        exists r t, r ∈ sized_rows d /\ cell_at r "total_data" = Str t
                    /\ python_float t = None /\ e = ValueError (PStr t)).
Proof.
  intros Hc. rewrite (sample_size_present d Hc). unfold series_astype_float. split.
  - intros s Hs%mapM_result_inr. apply Forall2_fmap_l in Hs.
    eapply Forall2_impl; [exact Hs|]. intros r [l y]. simpl.
    destruct (cell_astype_float (cell_at r "total_data")) as [e|y'] eqn:Ey; [done|].
    intros [= <- <-]. split; [done|].
    unfold cell_astype_float in Ey.
    destruct (cell_at r "total_data") as [t|x].
    + destruct (python_float t) as [x|]; [|done]. injection Ey as <-. by exists x.
    + injection Ey as <-. by exists x.
  - intros e (p & Hp & He)%mapM_result_inl.
    apply list_elem_of_fmap in Hp as (r & -> & Hr). simpl in He.
    destruct (cell_astype_float (cell_at r "total_data")) as [e'|y'] eqn:Ey; [|done].
    injection He as <-. unfold cell_astype_float in Ey.
    destruct (cell_at r "total_data") as [t|x] eqn:Et; [|done].
    destruct (python_float t) as [x|] eqn:Ex; [done|].
    injection Ey as <-. by exists r, t.
Qed.


(** X8. [preprocess_sample_size_data] raises [ValueError] with its own
    message when the column [total_data] is absent.  Otherwise
    it returns one entry for each row whose sample size is present, in
    input order and under the row's label, holding the float the cell
    converts to; it raises, with [ValueError], exactly when some present
    sample size is text that [float] does not read, and the error names
    such a text. *)
Theorem sample_size_outcome (d : DataFrame) :
  ("total_data" ∉ columns d ->
   preprocess_sample_size_data d
   = inl (ValueError (PStr "Column 'total_data' not found in the CSV file.")))
  /\ ("total_data" ∈ columns d ->
      (forall s, preprocess_sample_size_data d = inr s ->
         Forall2 (fun r p =>
                    p.1 = label r
                    /\ exists x, p.2 = Num x
                                 /\ cell_astype_float (cell_at r "total_data") = inr (Num x))
           (sized_rows d) s)
      /\ (forall e, preprocess_sample_size_data d = inl e ->
            exists r t, r ∈ sized_rows d /\ cell_at r "total_data" = Str t
                        /\ python_float t = None /\ e = ValueError (PStr t))
      /\ ((exists s, preprocess_sample_size_data d = inr s)
          <-> forall r t, r ∈ sized_rows d -> cell_at r "total_data" = Str t ->
                exists x, python_float t = Some x)).
Proof.
  pose proof (sample_size_conversion d) as Hboth.
  split; [|intros Hc; destruct (Hboth Hc) as [Hret Hraise]; split; [done|split; [done|]]].
  - intros Hn. unfold preprocess_sample_size_data. by rewrite decide_True.
  - split.
    + intros [s Hs] r t Hr Ht.
      apply list_elem_of_lookup in Hr as [i Hi].
      destruct (Forall2_lookup_l _ _ _ _ _ (Hret s Hs) Hi) as (p & _ & _ & x & _ & Hx).
      rewrite Ht in Hx. unfold cell_astype_float in Hx.
      destruct (python_float t) as [x'|]; [by exists x'|done].
    + intros Hall.
      destruct (preprocess_sample_size_data d) as [e|s] eqn:E; [|by exists s].
      destruct (Hraise e eq_refl) as (r & t & Hr & Ht & Hnone & _).
      destruct (Hall r t Hr Ht) as [x Hx]. congruence.
Qed.

(** X9. The sample-size preprocessor does not replace commas: one
    present sample size written with a decimal comma makes the call
    raise [ValueError], although the performance preprocessor converts
    the same text. *)
Theorem sample_size_rejects_comma
    (float_repr : float -> string) (d : DataFrame) (r : row)
    (sg : sign) (ip fp : string) :
  "total_data" ∈ columns d ->
  r ∈ rows d ->
  all_digits ip = true -> all_digits fp = true -> ip +:+ fp <> "" ->
  cell_at r "total_data" = Str (numeral comma sg ip fp) ->
  (exists t, preprocess_sample_size_data d = inl (ValueError (PStr t)))
  /\ exists x, score_to_float float_repr (cell_at r "total_data") = inr (Num x).
Proof.
  intros Hc Hr Hi Hf Hne Ht. split.
  - destruct (sample_size_conversion d Hc) as [Hret Hraise].
    destruct (preprocess_sample_size_data d) as [e|s] eqn:E.
    + destruct (Hraise e eq_refl) as (_ & t & _ & _ & _ & ->). by exists t.
    + assert (r ∈ sized_rows d) as Hin.
      { apply list_elem_of_filter. split; [by rewrite Ht|done]. }
      apply list_elem_of_lookup in Hin as [i Hi'].
      destruct (Forall2_lookup_l _ _ _ _ _ (Hret s eq_refl) Hi')
        as (p & _ & _ & x & _ & Hx).
      rewrite Ht in Hx. unfold cell_astype_float in Hx.
      by rewrite python_float_comma in Hx.
  - rewrite Ht. unfold score_to_float, cell_astype_float. simpl astype_str.
    rewrite numeral_comma_to_period, python_float_numeral by done. by eexists.
Qed.

Lemma sample_size_rejects_comma_witness :
  (exists t, preprocess_sample_size_data (sample_sizes [Num 120; Str "1,5"])
             = inl (ValueError (PStr t)))
  /\ exists x,
       score_to_float exact_repr
         (cell_at {| label := 1;
                     cells := {[ "title" := Str "a study"; "total_data" := Str "1,5" ]} |}
            "total_data")
       = inr (Num x).
Proof.
  assert ("total_data" ∈ columns (sample_sizes [Num 120; Str "1,5"])) as Hc
    by (vm_compute; apply list_elem_of_further, list_elem_of_here).
  assert ({| label := 1;
             cells := {[ "title" := Str "a study"; "total_data" := Str "1,5" ]} |}
          ∈ rows (sample_sizes [Num 120; Str "1,5"])) as Hr
    by (apply list_elem_of_further, list_elem_of_here).
  assert (cell_at {| label := 1;
                     cells := {[ "title" := Str "a study"; "total_data" := Str "1,5" ]} |}
            "total_data" = Str (numeral comma NoSign "1" "5")) as Ht
    by (vm_compute; reflexivity).
  assert ("1" +:+ "5" <> "") as Hne by discriminate.
  exact (sample_size_rejects_comma exact_repr (sample_sizes [Num 120; Str "1,5"]) _
           NoSign "1" "5" Hc Hr eq_refl eq_refl Hne Ht).
Defined.

(** ** Binary64 comparisons *)

Lemma is_nan_SF (x : float) : PrimFloat.is_nan x = true -> Prim2SF x = S754_nan.
Proof.
  unfold PrimFloat.is_nan. rewrite FloatAxioms.eqb_spec. unfold SFeqb.
  destruct (Prim2SF x) as [s|s| |s m e]; simpl; [done|by destruct s|done|].
  rewrite Z.compare_refl.
  assert (PosDef.Pos.compare_cont Eq m m = Eq) as Hm by apply Pos.compare_refl.
  destruct s; by rewrite Hm.
Qed.

Lemma ltb_nan_l (x y : float) : PrimFloat.is_nan x = true -> PrimFloat.ltb x y = false.
Proof. intros Hx%is_nan_SF. by rewrite FloatAxioms.ltb_spec, Hx. Qed.

Lemma ltb_nan_r (x y : float) : PrimFloat.is_nan y = true -> PrimFloat.ltb x y = false.
Proof.
  intros Hy%is_nan_SF. rewrite FloatAxioms.ltb_spec, Hy. unfold SFltb.
  by destruct (Prim2SF x).
Qed.

(** No binary64 number is below 0.01 and above 0.10. *)
Lemma thresholds_exclusive (d : float) :
  n_ltb d (n_lit 0.01) = true -> n_ltb (n_lit 0.10) d = false.
Proof.
  cbn [n_ltb n_lit float_arith]. rewrite !FloatAxioms.ltb_spec.
  change (Prim2SF (of_Q 0.01)) with (S754_finite false 5764607523034235 (-59)).
  change (Prim2SF (of_Q 0.10)) with (S754_finite false 7205759403792794 (-56)).
  unfold SFltb, SFcompare.
  destruct (Prim2SF d) as [s|s| |s m e]; try done; destruct s; try done.
  destruct (Z.compare_spec e (-59)), (Z.compare_spec (-56) e); try lia; done.
Qed.

Lemma filter_disjoint_length {A} (P Q : A -> Prop)
    `{forall x, Decision (P x)} `{forall x, Decision (Q x)} (l : list A) :
  (forall x, P x -> Q x -> False) ->
  (length (filter P l) + length (filter Q l) <= length l)%nat.
Proof.
  intros Hd. induction l as [|x l IH]; [done|].
  rewrite !filter_cons.
  destruct (decide (P x)), (decide (Q x)); simpl; try lia.
  exfalso. eauto.
Qed.

Lemma SF_nan_is_nan (x : float) : Prim2SF x = S754_nan -> PrimFloat.is_nan x = true.
Proof.
  intros Hx. unfold PrimFloat.is_nan. by rewrite FloatAxioms.eqb_spec, Hx.
Qed.

Lemma sub_nan (y x : float) :
  PrimFloat.is_nan x = true \/ PrimFloat.is_nan y = true ->
  PrimFloat.is_nan (PrimFloat.sub y x) = true.
Proof.
  intros Hnan. apply SF_nan_is_nan. rewrite FloatAxioms.sub_spec.
  unfold SF64sub, SFsub.
  destruct Hnan as [Hx%is_nan_SF|Hy%is_nan_SF].
  - rewrite Hx. by destruct (Prim2SF y).
  - by rewrite Hy.
Qed.

(** ** Sorting binary64 numbers with NaN *)

Lemma insert_sorted_elem (x y : float) (l : list float) :
  y ∈ insert_sorted x l <-> y = x \/ y ∈ l.
Proof.
  induction l as [|z l IH]; simpl.
  - rewrite list_elem_of_singleton, elem_of_nil. tauto.
  - destruct (sort_lt z x); rewrite !elem_of_cons; [rewrite IH|]; tauto.
Qed.

Lemma np_sort_elem (y : float) (l : list float) : y ∈ np_sort l <-> y ∈ l.
Proof.
  induction l as [|x l IH]; [done|].
  unfold np_sort in *. simpl. rewrite insert_sorted_elem, IH, elem_of_cons. tauto.
Qed.

(** In sorted data every NaN is followed by NaN only. *)
Lemma insert_sorted_nan_last (x : float) (l : list float) :
  StronglySorted (fun a b => PrimFloat.is_nan a = true -> PrimFloat.is_nan b = true) l ->
  StronglySorted (fun a b => PrimFloat.is_nan a = true -> PrimFloat.is_nan b = true)
    (insert_sorted x l).
Proof.
  induction l as [|y l IH]; intros Hs.
  - repeat constructor.
  - apply StronglySorted_cons in Hs as [Hy Hs]. simpl.
    destruct (sort_lt y x) eqn:E.
    + apply StronglySorted_cons. split; [|by apply IH].
      apply Forall_forall. intros z [->|Hz]%insert_sorted_elem.
      * intros Hnan. unfold sort_lt in E. cbn [n_ltb n_isnan float_arith] in E.
        by rewrite ltb_nan_l, Hnan, andb_false_r in E.
      * rewrite Forall_forall in Hy. by apply Hy.
    + apply StronglySorted_cons. split; [|by apply StronglySorted_cons].
      assert (PrimFloat.is_nan x = true -> PrimFloat.is_nan y = true) as Hxy.
      { intros Hnan. unfold sort_lt in E. cbn [n_ltb n_isnan float_arith] in E.
        rewrite Hnan in E. apply orb_false_iff in E as [_ E].
        by destruct (PrimFloat.is_nan y). }
      constructor; [done|].
      rewrite Forall_forall in Hy. apply Forall_forall. intros z Hz Hnan.
      by apply Hy, Hxy.
Qed.

Lemma np_sort_nan_last (l : list float) :
  StronglySorted (fun a b => PrimFloat.is_nan a = true -> PrimFloat.is_nan b = true)
    (np_sort l).
Proof.
  induction l as [|x l IH]; [constructor|].
  unfold np_sort in *. simpl. by apply insert_sorted_nan_last.
Qed.

Lemma nan_last (l : list float) (x : float) :
  StronglySorted (fun a b => PrimFloat.is_nan a = true -> PrimFloat.is_nan b = true) l ->
  x ∈ l -> PrimFloat.is_nan x = true ->
  exists top, last l = Some top /\ PrimFloat.is_nan top = true.
Proof.
  revert x. induction l as [|y l IH]; intros x Hs Hx Hnan; [by apply elem_of_nil in Hx|].
  apply StronglySorted_cons in Hs as [Hy Hs].
  destruct l as [|z l].
  - apply list_elem_of_singleton in Hx as ->. by exists y.
  - change (last (y :: z :: l)) with (last (z :: l)).
    apply elem_of_cons in Hx as [->|Hx]; [|by apply (IH x)].
    rewrite Forall_forall in Hy.
    apply (IH z Hs (list_elem_of_here _ _)), Hy; [apply list_elem_of_here|done].
Qed.

(** [np.median] of data with a NaN is NaN. *)
Lemma np_median_nan (data : list float) (x : float) :
  x ∈ data -> PrimFloat.is_nan x = true -> PrimFloat.is_nan (np_median data) = true.
Proof.
  intros Hx Hnan. unfold np_median. cbv zeta.
  destruct (nan_last (np_sort data) x (np_sort_nan_last data)) as (top & -> & Htop);
    [by apply np_sort_elem|done|].
  cbn [n_isnan float_arith]. by rewrite Htop.
Qed.

(** X10. In binary64 no difference is counted twice: a difference
    below 0.01 is not above 0.10, so the two counts the plot reports
    never add up to more than the number of studies. *)
Theorem threshold_counts_exclusive (a b : list float) :
  (negative_delta (create_performance_plot a b)
   + large_improvement (create_performance_plot a b)
   <= total_studies (create_performance_plot a b))%nat
  /\ forall d : float,
       PrimFloat.ltb d (of_Q 0.01) = true -> PrimFloat.ltb (of_Q 0.10) d = true -> False.
Proof.
  assert (forall d : float,
            PrimFloat.ltb d (of_Q 0.01) = true -> PrimFloat.ltb (of_Q 0.10) d = true ->
            False) as Hex.
  { intros d H1 H2. pose proof (thresholds_exclusive d H1) as H3.
    cbn [n_ltb n_lit float_arith] in H3. congruence. }
  split; [|done].
  unfold create_performance_plot, negative_delta_count, large_improvement_count. simpl.
  etransitivity; [apply filter_disjoint_length; exact Hex|].
  unfold deltas. rewrite length_zip_with. lia.
Qed.

(** X11. A missing score spoils the median, not the counts: when the
    unimodal or the multimodal score of some study is NaN, its
    difference is NaN, [np.median] of the differences is NaN, the legend
    reads [Median Threshold (Δ=nan)], and the study is counted in
    neither group. *)
Theorem nan_score_gives_nan_median (us ms : list float) (i : nat) (x y : float) :
  us !! i = Some x -> ms !! i = Some y ->
  PrimFloat.is_nan x = true \/ PrimFloat.is_nan y = true ->
  deltas us ms !! i = Some (PrimFloat.sub y x)
  /\ PrimFloat.is_nan (PrimFloat.sub y x) = true
  /\ PrimFloat.is_nan (median_difference (create_performance_plot us ms)) = true
  /\ median_label (create_performance_plot us ms) = "Median Threshold (Δ=nan)"
  /\ PrimFloat.ltb (PrimFloat.sub y x) (of_Q 0.01) = false
  /\ PrimFloat.ltb (of_Q 0.10) (PrimFloat.sub y x) = false.
Proof.
  intros Hx Hy Hnan.
  assert (deltas us ms !! i = Some (PrimFloat.sub y x)) as Hd.
  { unfold deltas. apply lookup_zip_with_Some. by exists y, x. }
  pose proof (sub_nan y x Hnan) as Hsub.
  assert (PrimFloat.is_nan (median_difference (create_performance_plot us ms)) = true)
    as Hmed.
  { simpl. eapply np_median_nan; [|exact Hsub]. by eapply list_elem_of_lookup_2. }
  split; [done|]. split; [done|]. split; [done|]. split.
  - unfold median_label, format_2f. by rewrite (is_nan_SF _ Hmed).
  - split; [by apply ltb_nan_l|by apply ltb_nan_r].
Qed.

Lemma nan_score_gives_nan_median_witness :
  deltas [PrimFloat.nan; 0.6%float] [0.81%float; 0.65%float] !! 0%nat
  = Some (PrimFloat.sub 0.81 PrimFloat.nan)
  /\ PrimFloat.is_nan (PrimFloat.sub 0.81 PrimFloat.nan) = true
  /\ PrimFloat.is_nan
       (median_difference
          (create_performance_plot [PrimFloat.nan; 0.6%float] [0.81%float; 0.65%float]))
     = true
  /\ median_label
       (create_performance_plot [PrimFloat.nan; 0.6%float] [0.81%float; 0.65%float])
     = "Median Threshold (Δ=nan)"
  /\ PrimFloat.ltb (PrimFloat.sub 0.81 PrimFloat.nan) (of_Q 0.01) = false
  /\ PrimFloat.ltb (of_Q 0.10) (PrimFloat.sub 0.81 PrimFloat.nan) = false.
Proof.
  exact (nan_score_gives_nan_median [PrimFloat.nan; 0.6%float] [0.81%float; 0.65%float]
           0%nat PrimFloat.nan 0.81%float eq_refl eq_refl (or_introl eq_refl)).
Defined.

(** ** The legend *)

Lemma unique_acc (acc l : list string) :
  foldl (fun seen m => if decide (m ∈ seen) then seen else seen ++ [m]) acc l
  = acc ++ filter (fun y => y ∉ acc) (unique l).
Proof.
  unfold unique. revert acc. induction l as [|x l IH]; intros acc.
  - simpl. by rewrite app_nil_r.
  - cbn [foldl]. rewrite (decide_False (P := x ∈ [])) by apply not_elem_of_nil.
    rewrite (IH ([] ++ [x])), (IH (if decide (x ∈ acc) then acc else acc ++ [x])).
    simpl. rewrite filter_cons.
    destruct (decide (x ∈ acc)) as [Hin|Hn].
    + rewrite decide_False by (intros Hx; by apply Hx).
      f_equal. rewrite list_filter_filter. apply list_filter_iff.
      intros y. rewrite list_elem_of_singleton. split; [|tauto].
      intros Hy. split; [done|]. by intros ->.
    + rewrite decide_True by done.
      rewrite <- app_assoc. simpl. do 2 f_equal.
      rewrite list_filter_filter. apply list_filter_iff.
      intros y. rewrite elem_of_app, !list_elem_of_singleton. tauto.
Qed.

Lemma unique_cons (x : string) (l : list string) :
  unique (x :: l) = x :: filter (fun y => y <> x) (unique l).
Proof.
  unfold unique at 1. cbn [foldl].
  rewrite (decide_False (P := x ∈ [])) by apply not_elem_of_nil.
  rewrite unique_acc. simpl. f_equal. apply list_filter_iff.
  intros y. by rewrite list_elem_of_singleton.
Qed.

Lemma unique_elem (m : string) (l : list string) : m ∈ unique l <-> m ∈ l.
Proof.
  induction l as [|x l IH]; [done|].
  rewrite unique_cons, !elem_of_cons, list_elem_of_filter, IH.
  destruct (decide (m = x)); tauto.
Qed.

Lemma unique_NoDup (l : list string) : NoDup (unique l).
Proof.
  induction l as [|x l IH]; [constructor|].
  rewrite unique_cons. constructor; [|by apply NoDup_filter].
  rewrite list_elem_of_filter. tauto.
Qed.

Lemma value_counts_acc (counts : gmap string nat) (l : list string) (m : string) :
  foldl (fun counts m => <[m := S (default 0%nat (counts !! m))]> counts) counts l !! m
  = match length (filter (fun x => x = m) l) with
    | O => counts !! m
    | n => Some (default 0%nat (counts !! m) + n)%nat
    end.
Proof.
  revert counts. induction l as [|x l IH]; intros counts; [done|].
  simpl. rewrite IH, filter_cons.
  destruct (decide (x = m)) as [->|Hne].
  - rewrite lookup_insert_eq. simpl.
    destruct (length (filter _ l)); f_equal; lia.
  - by rewrite lookup_insert_ne.
Qed.

Lemma value_counts_lookup (l : list string) (m : string) :
  value_counts l !! m
  = match length (filter (fun x => x = m) l) with
    | O => None
    | n => Some n
    end.
Proof. unfold value_counts. rewrite value_counts_acc. by rewrite lookup_empty. Qed.

Lemma filter_length_pos (l : list string) (m : string) :
  m ∈ l -> exists n, length (filter (fun x => x = m) l) = S n.
Proof.
  intros Hm.
  assert (m ∈ filter (fun x => x = m) l) as Hin by by apply list_elem_of_filter.
  destruct (filter (fun x => x = m) l) as [|y f]; [by apply elem_of_nil in Hin|].
  by exists (length f).
Qed.

Lemma count_partition (ks l : list string) :
  NoDup ks ->
  sum_list_with (fun m => length (filter (fun x => x = m) l)) ks
  = length (filter (fun x => x ∈ ks) l).
Proof.
  induction 1 as [|k ks Hk Hnd IH]; simpl.
  - symmetry. apply length_zero_iff_nil, elem_of_nil_inv.
    intros x [Hx _]%list_elem_of_filter. by apply elem_of_nil in Hx.
  - rewrite IH. clear IH. induction l as [|x l IHl]; [done|].
    rewrite !filter_cons.
    destruct (decide (x = k)) as [->|Hne].
    + rewrite decide_False by done. rewrite decide_True by apply list_elem_of_here.
      simpl. by rewrite IHl.
    + destruct (decide (x ∈ ks)) as [Hin|Hn].
      * rewrite decide_True by by apply list_elem_of_further.
        simpl. rewrite <- IHl. lia.
      * rewrite decide_False; [done|]. by intros [?|?]%elem_of_cons.
Qed.

Lemma dict_get_zip {V} (ks : list string) (vs : list V) (k : nat) (m : string) (v : V) :
  NoDup ks -> ks !! k = Some m -> vs !! k = Some v ->
  dict_get (zip ks vs) m = Some v.
Proof.
  intros Hnd Hk Hv. unfold dict_get.
  assert (list_find (fun kv : string * V => kv.1 = m) (zip ks vs) = Some (k, (m, v)))
    as ->; [|done].
  apply list_find_Some. split; [|split; [done|]].
  - apply lookup_zip_with_Some. by exists m, v.
  - intros j [m' v'] Hj Hlt.
    apply lookup_zip_with_Some in Hj as (? & ? & [= <- <-] & Hj & _).
    simpl. intros ->.
    pose proof (NoDup_lookup _ _ _ _ Hnd Hj Hk). lia.
Qed.

(** X12. The legend accounts for every study once: there is one entry
    for each distinct modality, in the order in which the modalities
    first appear, labelled with the modality and the number of studies
    that have it; building it never raises [KeyError], and the counts in
    the labels add up to the number of studies.  The [i]-th entry shows
    the [i]-th colour of the palette. *)
Theorem legend_counts_every_study
    (color : Type) (tab20_linspace : nat -> list color) (modalities : list string) :
  (forall n, length (tab20_linspace n) = n) ->
  exists patches : list (color * string),
    modality_patches color tab20_linspace modalities = inr patches
    /\ patches.*1 = tab20_linspace (length (unique modalities))
    /\ patches.*2
       = (fun m => m +:+ " (" +:+ str_of_nat (length (filter (fun x => x = m) modalities))
                     +:+ ")") <$> unique modalities
    /\ NoDup (unique modalities)
    /\ (forall m, m ∈ unique modalities <-> m ∈ modalities)
    /\ (forall x l, modalities = x :: l ->
          unique modalities = x :: filter (fun y => y <> x) (unique l))
    /\ sum_list_with (fun m => length (filter (fun x => x = m) modalities))
         (unique modalities)
       = length modalities.
Proof.
  intros Hlen.
  assert (forall (ks : list string) (cs : list color),
            (forall m, m ∈ ks -> m ∈ modalities) -> length cs = length ks ->
            exists patches,
              mapM_result
                (fun '(modality, c) =>
                   match value_counts modalities !! modality with
                   | Some n => inr (c, modality +:+ " (" +:+ str_of_nat n +:+ ")")
                   | None => inl (KeyError (PStr modality))
                   end) (zip ks cs) = inr patches
              /\ patches.*1 = cs
              /\ patches.*2
                 = (fun m => m +:+ " (" +:+ str_of_nat
                                 (length (filter (fun x => x = m) modalities))
                               +:+ ")") <$> ks) as Hmap.
  { induction ks as [|k ks IH]; intros cs Hin Hl.
    - destruct cs; [|done]. by exists [].
    - destruct cs as [|c cs]; [done|]. simpl in Hl.
      destruct (IH cs) as (ps & Hps & H1 & H2);
        [intros m Hm; by apply Hin, list_elem_of_further|lia|].
      destruct (filter_length_pos modalities k) as [n Hn];
        [apply Hin, list_elem_of_here|].
      exists ((c, k +:+ " (" +:+ str_of_nat (S n) +:+ ")") :: ps).
      split; [|split].
      + simpl. by rewrite value_counts_lookup, Hn, Hps.
      + rewrite fmap_cons, H1. done.
      + rewrite !fmap_cons, H2, Hn. done. }
  destruct (Hmap (unique modalities) (tab20_linspace (length (unique modalities))))
    as (patches & Hp & H1 & H2); [intros m Hm; by apply unique_elem|apply Hlen|].
  exists patches. split; [exact Hp|]. split; [done|]. split; [done|].
  split; [apply unique_NoDup|]. split; [intros m; apply unique_elem|]. split.
  - intros x l ->. apply unique_cons.
  - rewrite count_partition by apply unique_NoDup.
    f_equal. apply filter_all. intros x Hx. by apply unique_elem.
Qed.

Lemma legend_counts_every_study_witness :
  exists patches : list (nat * string),
    modality_patches nat (seq 0) five_modalities = inr patches
    /\ patches.*1 = seq 0 (length (unique five_modalities))
    /\ patches.*2
       = (fun m => m +:+ " (" +:+ str_of_nat
                                    (length (filter (fun x => x = m) five_modalities))
                     +:+ ")") <$> unique five_modalities
    /\ NoDup (unique five_modalities)
    /\ (forall m, m ∈ unique five_modalities <-> m ∈ five_modalities)
    /\ (forall x l, five_modalities = x :: l ->
          unique five_modalities = x :: filter (fun y => y <> x) (unique l))
    /\ sum_list_with (fun m => length (filter (fun x => x = m) five_modalities))
         (unique five_modalities)
       = length five_modalities.
Proof.
  exact (legend_counts_every_study nat (seq 0) five_modalities (fun n => length_seq n 0)).
Defined.

(** X13. Every point of the scatter plot is drawn in the colour of the
    legend entry of its own modality: [modalities.map(color_map)] finds
    a colour for every study (no point is left without one), and it is
    the colour at the position of the study's modality among the
    distinct modalities. *)
Theorem points_coloured_as_legend
    (color : Type) (tab20_linspace : nat -> list color) (modalities : list string) :
  (forall n, length (tab20_linspace n) = n) ->
  length (modality_colors color tab20_linspace modalities) = length modalities
  /\ (color_map color tab20_linspace modalities).*1 = unique modalities
  /\ forall i m, modalities !! i = Some m ->
       exists k c,
         modality_colors color tab20_linspace modalities !! i = Some (Some c)
         /\ color_map color tab20_linspace modalities !! k = Some (m, c)
         /\ unique modalities !! k = Some m
         /\ tab20_linspace (length (unique modalities)) !! k = Some c.
Proof.
  intros Hlen. unfold modality_colors, color_map. cbv zeta.
  split; [by rewrite length_fmap|]. split.
  { apply fst_zip. by rewrite Hlen. }
  intros i m Hi.
  assert (m ∈ unique modalities) as [k Hk]%list_elem_of_lookup.
  { apply unique_elem. by eapply list_elem_of_lookup_2. }
  destruct (lookup_lt_is_Some_2 (tab20_linspace (length (unique modalities))) k)
    as [c Hc].
  { rewrite Hlen. by eapply lookup_lt_Some. }
  exists k, c. rewrite list_lookup_fmap, Hi. simpl.
  rewrite (dict_get_zip _ _ k m c (unique_NoDup modalities) Hk Hc).
  split; [done|]. split; [|done].
  apply lookup_zip_with_Some. by exists m, c.
Qed.

Lemma points_coloured_as_legend_witness :
  length (modality_colors nat (seq 0) five_modalities) = length five_modalities
  /\ (color_map nat (seq 0) five_modalities).*1 = unique five_modalities
  /\ forall i m, five_modalities !! i = Some m ->
       exists k c,
         modality_colors nat (seq 0) five_modalities !! i = Some (Some c)
         /\ color_map nat (seq 0) five_modalities !! k = Some (m, c)
         /\ unique five_modalities !! k = Some m
         /\ seq 0 (length (unique five_modalities)) !! k = Some c.
Proof.
  exact (points_coloured_as_legend nat (seq 0) five_modalities (fun n => length_seq n 0)).
Defined.

(** ** Timestamps *)

Lemma string_length_app (a b : string) :
  String.length (a +:+ b) = (String.length a + String.length b)%nat.
Proof. induction a as [|c a IH]; [done|]. rewrite append_cons. simpl. by rewrite IH. Qed.

Lemma string_app_inj (a a' b b' : string) :
  String.length a = String.length a' -> a +:+ b = a' +:+ b' -> a = a' /\ b = b'.
Proof.
  revert a'. induction a as [|c a IH]; intros [|c' a'] Hl; try done.
  rewrite !append_cons. simpl in Hl. intros [= -> H].
  destruct (IH a' ltac:(lia) H) as [-> ->]. done.
Qed.

Lemma zero_padded_length (w n : nat) : String.length (zero_padded w n) = w.
Proof.
  revert n. induction w as [|w IH]; intros n; [done|].
  simpl. rewrite string_length_app, IH. simpl. lia.
Qed.

Lemma digit_inj (a b : nat) : digit a = digit b -> a mod 10 = b mod 10.
Proof.
  unfold digit. intros H.
  pose proof (Nat.mod_upper_bound a 10 ltac:(lia)).
  pose proof (Nat.mod_upper_bound b 10 ltac:(lia)).
  apply (f_equal Ascii.nat_of_ascii) in H.
  rewrite !Ascii.nat_ascii_embedding in H by lia. lia.
Qed.

Lemma zero_padded_inj (w a b : nat) :
  a < 10 ^ w -> b < 10 ^ w -> zero_padded w a = zero_padded w b -> a = b.
Proof.
  revert a b. induction w as [|w IH]; intros a b Ha Hb.
  - simpl in *. lia.
  - simpl zero_padded. intros H.
    apply string_app_inj in H as [H1 H2]; [|by rewrite !zero_padded_length].
    injection H2 as H2%digit_inj.
    rewrite Nat.pow_succ_r' in Ha, Hb.
    assert (a / 10 = b / 10) as Hd.
    { apply IH; [apply Nat.Div0.div_lt_upper_bound; lia..|done]. }
    rewrite (Nat.div_mod_eq a 10), (Nat.div_mod_eq b 10). lia.
Qed.

Lemma get_timestamp_fields (t : datetime) :
  get_timestamp t
  = zero_padded 4 (year t) +:+ zero_padded 2 (month t) +:+ zero_padded 2 (day t)
    +:+ "_" +:+ zero_padded 2 (hour t) +:+ zero_padded 2 (minute t)
    +:+ zero_padded 2 (second t).
Proof. unfold get_timestamp. cbn [strftime]. by rewrite append_nil_r. Qed.

Lemma minute_timestamp_fields (t : datetime) :
  minute_timestamp t
  = zero_padded 4 (year t) +:+ zero_padded 2 (month t) +:+ zero_padded 2 (day t)
    +:+ "_" +:+ zero_padded 2 (hour t) +:+ zero_padded 2 (minute t).
Proof. unfold minute_timestamp. cbn [strftime]. by rewrite append_nil_r. Qed.

Ltac padded_bound := try change (10 ^ 2) with 100; lia.

Ltac split_padded H :=
  apply string_app_inj in H as [?%zero_padded_inj H];
  [|padded_bound..|by rewrite !zero_padded_length].

(** X14. [get_timestamp] names the second: the text has fifteen
    characters, and two readings of the clock give the same text only
    if they agree in year, month, day, hour, minute and second, so that
    figures saved by [utils.save_figure] at different seconds never
    share a file name. *)
Theorem get_timestamp_injective (a b : datetime) :
  valid_datetime a -> valid_datetime b ->
  String.length (get_timestamp a) = 15%nat
  /\ (get_timestamp a = get_timestamp b <-> a = b).
Proof.
  intros (Hy & Hm & Hd & Hh & Hmi & Hs) (Hy' & Hm' & Hd' & Hh' & Hmi' & Hs').
  split.
  - rewrite get_timestamp_fields, !string_length_app, !zero_padded_length. done.
  - split; [|by intros ->].
    rewrite !get_timestamp_fields. intros H.
    split_padded H. split_padded H. split_padded H.
    apply (string_app_inj "_" "_") in H as [_ H]; [|done].
    split_padded H. split_padded H.
    apply zero_padded_inj in H; [|padded_bound..].
    destruct a, b. simpl in *. by subst.
Qed.

Lemma get_timestamp_injective_witness :
  String.length (get_timestamp noon) = 15%nat
  /\ (get_timestamp noon = get_timestamp noon_later <-> noon = noon_later).
Proof.
  assert (valid_datetime noon) as Ha by (vm_compute; lia).
  assert (valid_datetime noon_later) as Hb by (vm_compute; lia).
  exact (get_timestamp_injective noon noon_later Ha Hb).
Defined.

(** X15. The [save_figure] functions of [prismadiagram.py] and
    [boxplot.py] name the minute only: two readings of the clock give
    the same timestamp, hence for one output directory the same two
    file names, exactly when they agree up to the minute, whatever the
    seconds: a second save within the minute writes to the names of the
    first. *)
Theorem minute_timestamp_collides (a b : datetime) :
  valid_datetime a -> valid_datetime b ->
  String.length (minute_timestamp a) = 13%nat
  /\ (minute_timestamp a = minute_timestamp b
      <-> year a = year b /\ month a = month b /\ day a = day b
          /\ hour a = hour b /\ minute a = minute b).
Proof.
  intros (Hy & Hm & Hd & Hh & Hmi & Hs) (Hy' & Hm' & Hd' & Hh' & Hmi' & Hs').
  split.
  - rewrite minute_timestamp_fields, !string_length_app, !zero_padded_length. done.
  - rewrite !minute_timestamp_fields. split.
    + intros H.
      split_padded H. split_padded H. split_padded H.
      apply (string_app_inj "_" "_") in H as [_ H]; [|done].
      split_padded H.
      apply zero_padded_inj in H; [|padded_bound..]. done.
    + by intros (-> & -> & -> & -> & ->).
Qed.

Lemma minute_timestamp_collides_witness :
  String.length (minute_timestamp noon) = 13%nat
  /\ (minute_timestamp noon = minute_timestamp noon_later
      <-> year noon = year noon_later /\ month noon = month noon_later
          /\ day noon = day noon_later
          /\ hour noon = hour noon_later /\ minute noon = minute noon_later).
Proof.
  assert (valid_datetime noon) as Ha by (vm_compute; lia).
  assert (valid_datetime noon_later) as Hb by (vm_compute; lia).
  exact (minute_timestamp_collides noon noon_later Ha Hb).
Defined.

(** ** The PRISMA flowchart, as binary64 draws it *)

(** X16. The seven arrows of the flowchart join the boxes along the
    review's flow.  Numbering the boxes in drawing order (0
    identification, 1 duplicates, 2 screening, 3 excluded at screening,
    4 full text, 5 excluded at full text, 6 included), the arrows run
    0 to 2, 2 to 4 and 4 to 6 downwards, and 0 to 1, 2 to 3 and 4 to 5
    to the right; each starts on the boundary of its source box, ends
    on the boundary of its target box, and is vertical or horizontal.
    The first [annotate] call draws no visible arrow: its head and tail
    are the same point, the bottom centre of the identification box. *)
Theorem prisma_arrows_join_boxes :
  Forall2 (fun a '(i, j) =>
             exists source target,
               boxes (artists (create_prisma_diagram (R := float))) !! i = Some source
               /\ boxes (artists (create_prisma_diagram (R := float))) !! j = Some target
               /\ on_boundary (xytext a) source = true
               /\ on_boundary (xy a) target = true
               /\ (if Nat.eqb i j then xy a = xytext a
                   else if Nat.eqb j (i + 1)
                        then (xy a).2 = (xytext a).2
                             /\ PrimFloat.ltb (xytext a).1 (xy a).1 = true
                        else (xy a).1 = (xytext a).1
                             /\ PrimFloat.ltb (xy a).2 (xytext a).2 = true))
    (arrows (create_prisma_diagram (R := float)))
    [ (0, 0); (0, 2); (2, 4); (4, 6); (0, 1); (2, 3); (4, 5) ]%nat
  /\ length (boxes (artists (create_prisma_diagram (R := float)))) = 7%nat.
Proof.
  split; [|reflexivity].
  assert (arrows (create_prisma_diagram (R := float))
          = [ {| xy := (4, 12); xytext := (4, 12) |};
              {| xy := (4, 11.100000000000001); xytext := (4, 12) |};
              {| xy := (4, 6); xytext := (4, 9.3) |};
              {| xy := (4, 2.8); xytext := (4, 4.2) |};
              {| xy := (8, 12.9); xytext := (6, 12.9) |};
              {| xy := (8, 10); xytext := (6, 10) |};
              {| xy := (8, 5); xytext := (6, 5) |} ]%float) as ->
    by (vm_compute; reflexivity).
  repeat (constructor;
          [eexists _, _; split; [reflexivity|]; split; [reflexivity|];
           split; [vm_compute; reflexivity|]; split; [vm_compute; reflexivity|];
           vm_compute; try split; reflexivity|]).
  constructor.
Qed.

(** X17. The seven boxes of the flowchart lie inside the axis limits
    the function sets (0 to 15 across, 0 to 16 up), and no two of them
    overlap. *)
Theorem prisma_boxes_apart :
  Forall (fun b => within_limits (create_prisma_diagram (R := float)) b = true)
    (boxes (artists (create_prisma_diagram (R := float))))
  /\ forall i j b1 b2,
       boxes (artists (create_prisma_diagram (R := float))) !! i = Some b1 ->
       boxes (artists (create_prisma_diagram (R := float))) !! j = Some b2 ->
       i <> j -> apart b1 b2 = true.
Proof.
  assert (boxes (artists (create_prisma_diagram (R := float)))
          = [ ((2, 12), 4, 1.8); ((8, 12), 4, 1.8); ((2, 9.3), 4, 1.8); ((8, 6.1), 6, 5);
              ((2, 4.2), 4, 1.8); ((8, 1), 6, 5); ((2, 1), 4, 1.8) ]%float) as ->
    by (vm_compute; reflexivity).
  split.
  - repeat (constructor; [vm_compute; reflexivity|]). constructor.
  - intros i j b1 b2 H1 H2 Hne.
    repeat (destruct i as [|i]; [|try (by apply lookup_nil in H1 || discriminate H1)]);
      simpl in H1; try discriminate H1; injection H1 as <-;
      repeat (destruct j as [|j]; [|try discriminate H2]);
      simpl in H2; try discriminate H2; injection H2 as <-;
      try (by exfalso; apply Hne); vm_compute; reflexivity.
Qed.

(** ** The plot of an empty table *)

(** X18. When no row survives, the preprocessor's empty result goes
    through the statistics of the plot without an error but without a
    median: both score arrays and the modalities are empty, the number
    of studies and both counts are 0, [np.median] of no difference is
    NaN, the legend reads [Median Threshold (Δ=nan)], and the legend has
    no modality entry. *)
Theorem empty_table_statistics
    (float_repr : float -> string) (h : gmap positive DataFrame) (df : positive)
    (d : DataFrame) (uni multi ev mo : string)
    (scores : DataFrame) (modalities : list (nat * cell))
    (color : Type) (tab20_linspace : nat -> list color) :
  h !! df = Some d ->
  (forall c, c ∈ [uni; multi] ++ [ev; mo] -> c ∈ columns d) ->
  (preprocess_performance_data float_repr df [uni; multi] ev mo h).1
  = inr (scores, modalities) ->
  surviving_rows [uni; multi] ev mo d = [] ->
  iloc_column scores 0 ≫= float_values = Some []
  /\ iloc_column scores 1 ≫= float_values = Some []
  /\ modalities = []
  /\ total_studies (create_performance_plot (R := float) [] []) = 0%nat
  /\ negative_delta (create_performance_plot (R := float) [] []) = 0%nat
  /\ large_improvement (create_performance_plot (R := float) [] []) = 0%nat
  /\ PrimFloat.is_nan (median_difference (create_performance_plot (R := float) [] []))
     = true
  /\ median_label (create_performance_plot [] []) = "Median Threshold (Δ=nan)"
  /\ modality_patches color tab20_linspace [] = inr [].
Proof.
  intros Hdf Hcols Hret Hnone.
  pose proof (preprocess_outcome float_repr h df d [uni; multi] ev mo Hdf Hcols) as Hout.
  destruct (metric_accessor [uni; multi] ev mo d) as [e|evs]; [congruence|].
  rewrite Hret, Hnone in Hout. destruct Hout as (Hc & Hs & Hm).
  apply Forall2_nil_inv_l in Hs, Hm.
  unfold iloc_column, column. rewrite Hc, Hs. simpl.
  split; [done|]. split; [done|]. split; [done|].
  split; [reflexivity|]. split; [reflexivity|]. split; [reflexivity|].
  split; [vm_compute; reflexivity|]. split; [vm_compute; reflexivity|].
  unfold modality_patches, color_map. simpl. reflexivity.
Qed.

Lemma empty_table_statistics_witness :
  iloc_column {| columns := score_columns;
                 dtypes := {[ "unimodal_best_score" := float64;
                              "multimodal_best_score" := float64 ]};
                 rows := [] |} 0 ≫= float_values = Some []
  /\ iloc_column {| columns := score_columns;
                    dtypes := {[ "unimodal_best_score" := float64;
                                 "multimodal_best_score" := float64 ]};
                    rows := [] |} 1 ≫= float_values = Some []
  /\ ([] : list (nat * cell)) = []
  /\ total_studies (create_performance_plot (R := float) [] []) = 0%nat
  /\ negative_delta (create_performance_plot (R := float) [] []) = 0%nat
  /\ large_improvement (create_performance_plot (R := float) [] []) = 0%nat
  /\ PrimFloat.is_nan (median_difference (create_performance_plot (R := float) [] []))
     = true
  /\ median_label (create_performance_plot [] []) = "Median Threshold (Δ=nan)"
  /\ modality_patches nat (seq 0) [] = inr [].
Proof.
  assert (store_of no_auc_studies !! 1%positive = Some no_auc_studies) as Hdf
    by reflexivity.
  assert (forall c, c ∈ ["unimodal_best_score"; "multimodal_best_score"]
                        ++ [evaluation_column; modality_column] ->
                    c ∈ columns no_auc_studies) as Hcols
    by (apply absent_nil_iff; reflexivity).
  assert ((preprocess_performance_data exact_repr 1%positive
             ["unimodal_best_score"; "multimodal_best_score"]
             evaluation_column modality_column (store_of no_auc_studies)).1
          = inr ({| columns := score_columns;
                    dtypes := {[ "unimodal_best_score" := float64;
                                 "multimodal_best_score" := float64 ]};
                    rows := [] |}, [])) as Hret
    by (vm_compute; reflexivity).
  assert (surviving_rows ["unimodal_best_score"; "multimodal_best_score"]
            evaluation_column modality_column no_auc_studies = []) as Hnone
    by (vm_compute; reflexivity).
  exact (empty_table_statistics exact_repr (store_of no_auc_studies) 1%positive
           no_auc_studies "unimodal_best_score" "multimodal_best_score"
           evaluation_column modality_column _ _ nat (seq 0) Hdf Hcols Hret Hnone).
Defined.

(** ** Timestamps in order *)

Lemma compare_app (p q s t : string) :
  String.length p = String.length q ->
  String.compare (p +:+ s) (q +:+ t)
  = match String.compare p q with
    | Eq => String.compare s t
    | c => c
    end.
Proof.
  revert q. induction p as [|c p IH]; intros [|c' q] Hl; try done.
  rewrite !append_cons. simpl. simpl in Hl.
  destruct (Ascii.compare c c'); [apply IH; lia|done|done].
Qed.

Lemma digit_compare (a b : nat) :
  Ascii.compare (digit a) (digit b) = (a mod 10 ?= b mod 10)%nat.
Proof.
  unfold digit, Ascii.compare, Ascii.ascii_of_nat.
  pose proof (Nat.mod_upper_bound a 10 ltac:(lia)).
  pose proof (Nat.mod_upper_bound b 10 ltac:(lia)).
  rewrite !Ascii.N_ascii_embedding by lia.
  rewrite <- Nat2N.inj_compare.
  destruct (Nat.compare_spec (48 + a mod 10) (48 + b mod 10)),
           (Nat.compare_spec (a mod 10) (b mod 10)); lia || done.
Qed.

Lemma zero_padded_S (w n : nat) :
  zero_padded (S w) n = zero_padded w (n / 10) +:+ String (digit n) EmptyString.
Proof. reflexivity. Qed.

Lemma zero_padded_compare (w a b : nat) :
  a < 10 ^ w -> b < 10 ^ w ->
  String.compare (zero_padded w a) (zero_padded w b) = (a ?= b)%nat.
Proof.
  revert a b. induction w as [|w IH]; intros a b Ha Hb.
  - simpl in *. assert (a = 0 /\ b = 0) as [-> ->] by lia. done.
  - rewrite !zero_padded_S, compare_app by by rewrite !zero_padded_length.
    rewrite Nat.pow_succ_r' in Ha, Hb.
    rewrite IH by (apply Nat.Div0.div_lt_upper_bound; lia).
    change (String.compare (String (digit a) EmptyString) (String (digit b) EmptyString))
      with (match Ascii.compare (digit a) (digit b) with
            | Eq => Eq | Lt => Lt | Gt => Gt end).
    rewrite digit_compare.
    pose proof (Nat.div_mod_eq a 10) as Ea. pose proof (Nat.div_mod_eq b 10) as Eb.
    pose proof (Nat.mod_upper_bound a 10 ltac:(lia)) as Ba.
    pose proof (Nat.mod_upper_bound b 10 ltac:(lia)) as Bb.
    remember (a / 10) as qa eqn:Hqa. remember (b / 10) as qb eqn:Hqb.
    remember (a mod 10) as ra eqn:Hra. remember (b mod 10) as rb eqn:Hrb.
    clear Hqa Hqb Hra Hrb Ha Hb IH.
    destruct (Nat.compare_spec qa qb), (Nat.compare_spec ra rb),
             (Nat.compare_spec a b); lia || done.
Qed.

(** X19. File names sort by time: comparing two timestamps of
    [get_timestamp] as Python compares strings, character by character,
    gives the order in time of the two readings of the clock. *)
Theorem get_timestamp_chronological (a b : datetime) :
  valid_datetime a -> valid_datetime b ->
  String.compare (get_timestamp a) (get_timestamp b) = chronological a b.
Proof.
  intros (Hy & Hm & Hd & Hh & Hmi & Hs) (Hy' & Hm' & Hd' & Hh' & Hmi' & Hs').
  rewrite !get_timestamp_fields. unfold chronological.
  rewrite compare_app, zero_padded_compare by (rewrite ?zero_padded_length; lia).
  destruct (year a ?= year b)%nat; [|done..].
  rewrite compare_app, zero_padded_compare
    by (rewrite ?zero_padded_length; padded_bound).
  destruct (month a ?= month b)%nat; [|done..].
  rewrite compare_app, zero_padded_compare
    by (rewrite ?zero_padded_length; padded_bound).
  destruct (day a ?= day b)%nat; [|done..].
  rewrite (compare_app "_" "_") by done.
  change (String.compare "_" "_") with Eq. cbv iota.
  rewrite compare_app, zero_padded_compare
    by (rewrite ?zero_padded_length; padded_bound).
  destruct (hour a ?= hour b)%nat; [|done..].
  rewrite compare_app, zero_padded_compare
    by (rewrite ?zero_padded_length; padded_bound).
  destruct (minute a ?= minute b)%nat; [|done..].
  apply zero_padded_compare; padded_bound.
Qed.

Lemma get_timestamp_chronological_witness :
  String.compare (get_timestamp noon) (get_timestamp noon_later)
  = chronological noon noon_later.
Proof.
  assert (valid_datetime noon) as Ha by (vm_compute; lia).
  assert (valid_datetime noon_later) as Hb by (vm_compute; lia).
  exact (get_timestamp_chronological noon noon_later Ha Hb).
Defined.

(** ** White space around a score *)

Lemma lstrip_space (ws s : string) : all_space ws = true -> lstrip (ws +:+ s) = lstrip s.
Proof.
  induction ws as [|c ws IH]; [done|]. simpl.
  intros [Hc Hws]%andb_true_iff. rewrite Hc. by apply IH.
Qed.

Lemma rstrip_all_space (ws : string) : all_space ws = true -> rstrip ws = "".
Proof.
  induction ws as [|c ws IH]; [done|]. simpl.
  intros [Hc Hws]%andb_true_iff. by rewrite (IH Hws), Hc.
Qed.

Lemma rstrip_space (s ws : string) : all_space ws = true -> rstrip (s +:+ ws) = rstrip s.
Proof.
  intros Hws. induction s as [|c s IH].
  - rewrite append_nil_l. by apply rstrip_all_space.
  - rewrite append_cons. simpl. by rewrite IH.
Qed.

Lemma lstrip_suffix (s : string) : exists ws, all_space ws = true /\ s = ws +:+ lstrip s.
Proof.
  induction s as [|c s (ws & Hws & Hs)]; [by exists ""|]. simpl.
  destruct (is_space c) eqn:Hc.
  - exists (String c ws). simpl. rewrite Hc, Hws. split; [done|].
    by rewrite append_cons, <- Hs.
  - by exists "".
Qed.

Lemma lstrip_app (s ws : string) :
  all_space ws = true -> rstrip (lstrip (s +:+ ws)) = rstrip (lstrip s).
Proof.
  intros Hws. induction s as [|c s IH].
  - rewrite append_nil_l. simpl.
    destruct (lstrip_suffix ws) as (ws' & Hws' & Hs).
    assert (all_space (lstrip ws) = true) as Hl.
    { clear -Hws. induction ws as [|c ws IH]; [done|]. simpl in *.
      apply andb_true_iff in Hws as [Hc Hws]. rewrite Hc. by apply IH. }
    by apply rstrip_all_space.
  - rewrite append_cons. simpl. destruct (is_space c); [done|].
    change (String c (s +:+ ws)) with (String c s +:+ ws).
    by apply rstrip_space.
Qed.

Lemma strip_space (ws s ws' : string) :
  all_space ws = true -> all_space ws' = true -> strip (ws +:+ s +:+ ws') = strip s.
Proof.
  intros Hws Hws'. unfold strip. rewrite lstrip_space by done. by apply lstrip_app.
Qed.

Lemma str_replace_space (ws : string) :
  all_space ws = true -> str_replace comma period ws = ws.
Proof.
  induction ws as [|c ws IH]; [done|]. simpl.
  intros [Hc Hws]%andb_true_iff. rewrite (IH Hws).
  destruct (Ascii.eqb c comma) eqn:E; [|done].
  apply Ascii.eqb_eq in E as ->. done.
Qed.

(** X20. White space around a score does not matter: [float] strips
    it, so a cell whose text is padded with blanks, tabs or line breaks
    converts to the same float as the unpadded text, and fails to
    convert exactly when the unpadded text does (the error then shows
    the padded text). *)
Theorem score_whitespace_ignored
    (float_repr : float -> string) (ws t ws' : string) :
  all_space ws = true -> all_space ws' = true ->
  python_float (ws +:+ t +:+ ws') = python_float t
  /\ score_to_float float_repr (Str (ws +:+ t +:+ ws'))
     = match score_to_float float_repr (Str t) with
       | inr y => inr y
       | inl _ => inl (ValueError (PStr (str_replace comma period (ws +:+ t +:+ ws'))))
       end.
Proof.
  intros Hws Hws'.
  assert (forall u, python_float (ws +:+ u +:+ ws') = python_float u) as Hpf.
  { intros u. unfold python_float. by rewrite strip_space. }
  split; [apply Hpf|].
  assert (python_float (str_replace comma period (ws +:+ t +:+ ws'))
          = python_float (str_replace comma period t)) as Heq.
  { rewrite !str_replace_app, (str_replace_space ws Hws), (str_replace_space ws' Hws').
    apply Hpf. }
  unfold score_to_float, cell_astype_float. simpl astype_str. rewrite Heq.
  by destruct (python_float (str_replace comma period t)).
Qed.

Lemma score_whitespace_ignored_witness :
  python_float (" " +:+ "0,87" +:+ "  ") = python_float "0,87"
  /\ score_to_float exact_repr (Str (" " +:+ "0,87" +:+ "  "))
     = match score_to_float exact_repr (Str "0,87") with
       | inr y => inr y
       | inl _ =>
           inl (ValueError (PStr (str_replace comma period (" " +:+ "0,87" +:+ "  "))))
       end.
Proof.
  exact (score_whitespace_ignored exact_repr " " "0,87" "  " eq_refl eq_refl).
Defined.
